(** * Routing and dispatch of the Traffic Ops API server

    A shallow embedding of
    [traffic_ops/traffic_ops_golang/routing/routing.go] and the properties
    of its route table and dispatch.

    Conventions of the embedding.
    - Go strings are byte strings; they are modelled by [string], one
      [ascii] per byte.
    - [Route.Version] is a [float64].  The versions a route table declares
      are short decimal literals (1.1, 1.4, 2.0, ...); on such values
      comparison and shortest formatting of the [float64] agree with exact
      decimal arithmetic.  A version is therefore modelled as a decimal
      fixed-point number: the integer [n] stands for [n / 10^prec], where
      [prec] is the number of fractional digits kept.  The conversions
      [int(v)] and [float64(i)] of line 128 are modelled with the range of
      the 64-bit [int] and the 53 bits of a [float64]
      ([Go_strconv.int_of_float64], [Go_strconv.float64_of_int]); they are
      exact below 2^53.  NaN, infinities and values that are no short
      decimals are outside the model.
    - [http.HandlerFunc] has effects on the response writer and anything
      else a handler can reach; it is modelled as a state transformer over
      an arbitrary type [World].
    - A Go panic is modelled as an explicit result.
    - The [regexp] package, [strconv.ParseFloat] and [strings.ToLower]
      are parameters ([RegexpLib], [Strconv], [Strings]), and so are the
      wrappers and fixed handlers that the routing package defines in its
      other files ([Wrappers]).  The general theorems hold for all of
      them; the examples run on the instances of [Go_regexp], [Go_strconv]
      and [Demo], on ASCII strings.
    - Log lines are not modelled.  [Handler] takes the request id that its
      call of [getReqID] returned; the counter behind it is modelled on its
      own ([nextReqIDGetter]).
    - [Route.String] is not modelled.

    The last part of the file adds the alert levels of
    [lib/go-tc/constants.go]. *)

From Stdlib Require Import ZArith Ascii String.
From stdpp Require Import gmap strings sorting pretty.

Local Open Scope Z_scope.

(** ** The Go library functions that routing.go calls *)

Module Go_strings.

(** [strings.Index(s, substr)] for a one-byte [substr], the only use in
    routing.go: the index of the first occurrence, or -1. *)
Fixpoint Index (s : string) (c : ascii) : Z :=
  match s with
  | EmptyString => -1
  | String a s' =>
      if Ascii.eqb a c then 0
      else let i := Index s' c in if i <? 0 then -1 else i + 1
  end.

(** [strings.Split(s, sep)] for a one-byte separator: the pieces between
    the separators, one more than there are separators. *)
Fixpoint Split (s : string) (sep : ascii) : list string :=
  match s with
  | EmptyString => [EmptyString]
  | String a s' =>
      if Ascii.eqb a sep then EmptyString :: Split s' sep
      else match Split s' sep with
           | [] => [String a EmptyString]
           | p :: ps => String a p :: ps
           end
  end.

Definition lower_byte (a : ascii) : ascii :=
  let n := N_of_ascii a in
  if ((65 <=? n) && (n <=? 90))%N then ascii_of_N (n + 32) else a.

(** The letters A to Z of ASCII lowered byte by byte, every other byte
    kept: what [strings.ToLower] returns for a string of ASCII bytes. *)
Fixpoint lower_ascii (s : string) : string :=
  match s with
  | EmptyString => EmptyString
  | String a s' => String (lower_byte a) (lower_ascii s')
  end.

(** All bytes are below 128. *)
Fixpoint is_ascii (s : string) : bool :=
  match s with
  | EmptyString => true
  | String a s' => (N_of_ascii a <? 128)%N && is_ascii s'
  end.

Definition len (s : string) : Z := Z.of_nat (String.length s).

(** The slice expression [s[lo:hi]]; [None] is the run-time panic
    "slice bounds out of range". *)
Definition slice (s : string) (lo hi : Z) : option string :=
  if (0 <=? lo) && (lo <=? hi) && (hi <=? len s)
  then Some (substring (Z.to_nat lo) (Z.to_nat (hi - lo)) s)
  else None.

(** [s[lo:]] *)
Definition slice_from (s : string) (lo : Z) : option string :=
  slice s lo (len s).

(** [s[:hi]] *)
Definition slice_to (s : string) (hi : Z) : option string :=
  slice s 0 hi.

End Go_strings.

Module Go_sort.

(** [sort.Float64s]: ascending order. *)
Definition Float64s (a : list Z) : list Z := merge_sort Z.le a.

(** [sort.SearchFloat64s(a, x)] on an ascending slice: the smallest index
    whose element is [>= x], [len(a)] when there is none. *)
Fixpoint SearchFloat64s (a : list Z) (x : Z) : nat :=
  match a with
  | [] => 0%nat
  | y :: a' => if y <? x then S (SearchFloat64s a' x) else 0%nat
  end.

End Go_sort.

Module Go_strconv.
Section Decimal.
(** Number of fractional decimal digits of the fixed-point versions. *)
Variable prec : nat.

Definition scale : Z := 10 ^ Z.of_nat prec.

(** The integer part of a version, cut off toward zero. *)
Definition to_int (v : Z) : Z := Z.quot v scale.

(** The version whose value is the integer [i]. *)
Definition of_int (i : Z) : Z := i * scale.

(** The mathematical floor, for comparison with [to_int]. *)
Definition floor (v : Z) : Z := v / scale.

(** The Go conversion [int(v)] of a [float64] to the 64-bit [int]: the
    integer part, cut off toward zero, when it is a value of the type.
    Otherwise the language leaves the result to the implementation; this
    is the result on amd64, the least value of the type. *)
Definition int_of_float64 (v : Z) : Z :=
  let q := to_int v in
  if (- 2 ^ 63 <=? q) && (q <? 2 ^ 63) then q else - 2 ^ 63.

(** An integer rounded to 53 significant bits: to the nearest such
    number, and of two that are equally near to the one whose last kept
    bit is 0. *)
Definition round53 (i : Z) : Z :=
  let a := Z.abs i in
  let ulp := 2 ^ Z.max 0 (Z.log2 a - 52) in
  let q := a / ulp in
  let rem := a mod ulp in
  let q' :=
    if 2 * rem <? ulp then q
    else if ulp <? 2 * rem then q + 1
    else if Z.even q then q else q + 1 in
  Z.sgn i * (q' * ulp).

(** The Go conversion [float64(i)] of a 64-bit [int]: the version whose
    value is [i] rounded to the 53 bits that a [float64] keeps. *)
Definition float64_of_int (i : Z) : Z := of_int (round53 i).

(** The versions on which the two conversions are exact: those below
    2^53 in absolute value. *)
Definition exact (v : Z) : Prop := - 2 ^ 53 * scale < v < 2 ^ 53 * scale.

Definition digit (d : Z) : ascii := ascii_of_N (48 + Z.to_N d).

(** The [n] decimal digits of [f], most significant first. *)
Fixpoint frac_digits (n : nat) (f : Z) : string :=
  match n with
  | O => EmptyString
  | S p => String (digit (f / 10 ^ Z.of_nat p))
             (frac_digits p (f mod 10 ^ Z.of_nat p))
  end.

(** Drop the zeros at the end. *)
Fixpoint strip_zeros (s : string) : string :=
  match s with
  | EmptyString => EmptyString
  | String c s' =>
      match strip_zeros s' with
      | EmptyString => if Ascii.eqb c "0" then EmptyString else String c EmptyString
      | t => String c t
      end
  end.

(** [strconv.FormatFloat(v, 'f', -1, 64)]: the shortest decimal that
    reads back as [v], without exponent: for a decimal [v], its digits
    without the zeros at the end of the fraction, and without the point
    when nothing is left of the fraction. *)
Definition FormatFloat (v : Z) : string :=
  let a := Z.abs v in
  let sign := if v <? 0 then "-" else "" in
  let frac := strip_zeros (frac_digits prec (a mod scale)) in
  sign +:+ pretty (a / scale) +:+
    match frac with
    | EmptyString => ""
    | _ => "." +:+ frac
    end.
End Decimal.

(** What [strconv.ParseFloat(s, 64)] returns: an error, or a number.  A
    number that is no fixed-point decimal of the model is [ParseOther]:
    it equals no declared version. *)
Inductive ParseResult :=
| ParseError
| ParseOther
| ParseOk (v : Z).

Definition digit_val (c : ascii) : option Z :=
  let n := N_of_ascii c in
  if ((48 <=? n) && (n <=? 57))%N then Some (Z.of_N n - 48) else None.

(** Reads digits into [acc]; stops at the first byte that is no digit. *)
Fixpoint read_digits (s : string) (acc : Z) (n : nat) : Z * nat * string :=
  match s with
  | EmptyString => (acc, n, s)
  | String c s' =>
      match digit_val c with
      | Some d => read_digits s' (10 * acc + d) (S n)
      | None => (acc, n, s)
      end
  end.

(** [ParseFloat] on plain decimal numerals: an optional sign, digits, and
    an optional point with digits, at least one digit in all.  Numerals
    with an exponent, hexadecimal numerals, "Inf" and "NaN" are numbers
    for Go and are not read by this instance: it is for the examples
    only, and the theorems about [IsRequestAPIAndUnknownVersion] hold for
    every [ParseFloat]. *)
Definition ParseFloat_decimal (prec : nat) (s : string) : ParseResult :=
  let '(neg, s1) :=
    match s with
    | String "-" t => (true, t)
    | String "+" t => (false, t)
    | _ => (false, s)
    end in
  let '(ip, ni, s2) := read_digits s1 0 0 in
  let '(fp, nf, s3) :=
    match s2 with
    | String "." t => read_digits t 0 0
    | _ => (0, 0%nat, s2)
    end in
  match s3 with
  | EmptyString =>
      if (ni + nf =? 0)%nat then ParseError
      else
        (* value = ip + fp / 10^nf, to be written with [prec] digits *)
        let num := (ip * 10 ^ Z.of_nat nf + fp) * 10 ^ Z.of_nat prec in
        let den := 10 ^ Z.of_nat nf in
        if num mod den =? 0
        then ParseOk ((if neg then -1 else 1) * (num / den))
        else ParseOther
  | _ => ParseError
  end.

End Go_strconv.


(** The part of the [regexp] package that routing.go uses. *)
Class RegexpLib := {
  Regexp : Type;
  (** [regexp.MustCompile]; [None] is its panic on a pattern that does not parse. *)
  MustCompile : string -> option Regexp;
  (** [Regexp.FindStringSubmatch]: the leftmost match and its groups, or
      the empty slice. *)
  FindStringSubmatch : Regexp -> string -> list string;
}.

(** [strconv.ParseFloat(s, 64)]. *)
Class Strconv := {
  ParseFloat : string -> Go_strconv.ParseResult;
}.

(** [strings.ToLower].  It maps the letters of Unicode, also those outside
    ASCII (U+0130, for one, becomes [i]), by tables that are not
    modelled: the function is a parameter, known only to lower a string
    of ASCII bytes letter by letter. *)
Class Strings := {
  ToLower : string -> string;
  ToLower_ascii s :
    Go_strings.is_ascii s = true -> ToLower s = Go_strings.lower_ascii s;
}.

(** An instance of [RegexpLib] for the patterns that route templates made
    of plain text and placeholders compile to: literal bytes, [^], [$],
    [.] and the group [([^/]+)].  A pattern with another operator is not
    read ([None]), also where [regexp.MustCompile] accepts it, and [.]
    takes one byte, where Go takes one UTF-8 character: the instance is
    for the examples only, which are ASCII texts and patterns of this
    kind, and the general theorems hold for every [RegexpLib]. *)
Module Go_regexp.

Inductive node :=
| Bol            (* ^ *)
| Eol            (* $ *)
| AnyChar        (* . : any byte but a newline *)
| Lit (c : ascii)
| Seg.           (* ([^/]+) *)

Definition is_digit (c : ascii) : bool :=
  let n := N_of_ascii c in ((48 <=? n) && (n <=? 57))%N.

Definition is_operator (c : ascii) : bool :=
  existsb (Ascii.eqb c) ["\"; "*"; "+"; "?"; "("; ")"; "["; "]"; "|"]%char.

(** One byte of a pattern; [next] is the byte after it.  A brace that
    starts no repetition count stands for itself. *)
Definition single (c : ascii) (next : option ascii) : option node :=
  if Ascii.eqb c "^" then Some Bol
  else if Ascii.eqb c "$" then Some Eol
  else if Ascii.eqb c "." then Some AnyChar
  else if is_operator c then None
  else if Ascii.eqb c "{" then
    match next with
    | Some d => if is_digit d then None else Some (Lit c)
    | None => Some (Lit c)
    end
  else Some (Lit c).

Definition head (s : string) : option ascii :=
  match s with
  | EmptyString => None
  | String c _ => Some c
  end.

Fixpoint parse (s : string) : option (list node) :=
  match s with
  | EmptyString => Some []
  | String c1 (String c2 (String c3 (String c4 (String c5 (String c6
      (String c7 rest7))))) as rest1) =>
      if String.eqb (String c1 (String c2 (String c3 (String c4 (String c5
           (String c6 (String c7 EmptyString))))))) "([^/]+)"
      then cons Seg <$> parse rest7
      else n ← single c1 (head rest1); cons n <$> parse rest1
  | String c1 rest1 =>
      n ← single c1 (head rest1); cons n <$> parse rest1
  end.

(** A match of [re] at the start of [s]: the groups and the matched text.
    [bol] says whether [s] starts at the beginning of the text.  The group
    takes as many bytes as it can and gives back one at a time. *)
Fixpoint match_at (re : list node) (bol : bool) (s : string)
  : option (list string * string) :=
  match re with
  | [] => Some ([], EmptyString)
  | Bol :: re' => if bol then match_at re' bol s else None
  | Eol :: re' =>
      match s with
      | EmptyString => match_at re' bol s
      | _ => None
      end
  | AnyChar :: re' =>
      match s with
      | String c s' =>
          if Ascii.eqb c "010" then None
          else '(gs, t) ← match_at re' false s'; Some (gs, String c t)
      | EmptyString => None
      end
  | Lit a :: re' =>
      match s with
      | String c s' =>
          if Ascii.eqb c a
          then '(gs, t) ← match_at re' false s'; Some (gs, String c t)
          else None
      | EmptyString => None
      end
  | Seg :: re' =>
      let seg := fix seg (s : string) : option (string * (list string * string)) :=
        match s with
        | EmptyString => None
        | String c s' =>
            if Ascii.eqb c "/" then None
            else match seg s' with
                 | Some (cap, r) => Some (String c cap, r)
                 | None => r ← match_at re' false s'; Some (String c EmptyString, r)
                 end
        end in
      '(cap, (gs, t)) ← seg s; Some (cap :: gs, cap +:+ t)
  end.

(** The leftmost match: try every start, from the left. *)
Fixpoint find_from (re : list node) (bol : bool) (s : string) : list string :=
  match match_at re bol s with
  | Some (gs, t) => t :: gs
  | None =>
      match s with
      | EmptyString => []
      | String _ s' => find_from re false s'
      end
  end.

#[export] Instance lib : RegexpLib := {|
  Regexp := list node;
  MustCompile := parse;
  FindStringSubmatch := fun re s => find_from re true s;
|}.

End Go_regexp.

(** ** Data of routing.go *)

(** A panic that stops the goroutine. *)
Inductive Panic :=
| SliceBounds      (* slice bounds out of range *)
| IndexRange       (* index out of range *)
| MalformedRoute   (* panic("malformed route") *)
| RegexpError.     (* the panic of regexp.MustCompile *)

Inductive Result (A : Type) :=
| Ok (a : A)
| Panicked (p : Panic)
| OutOfFuel.
Arguments Ok {A} a.
Arguments Panicked {A} p.
Arguments OutOfFuel {A}.

(** [config.Config], the fields that routing.go reads. *)
Record Config := {
  Secrets : list string;
  PerlRoutes : list Z;
  DisabledRoutes : list Z;
  RequestTimeout : Z;
}.

(** The keys that routing.go puts into a request's context, and the values
    under them.  A [context.Context] is a chain: [WithValue] adds a link in
    front.  The database handle is a pointer; it is modelled by a number. *)
Inductive CtxKey := DBContextKey | ConfigContextKey | ReqIDContextKey | PathParamsKey.

Inductive CtxValue :=
| DBValue (db : Z)
| ConfigValue (cfg : Config)
| ReqIDValue (reqID : Z)
| PathParamsValue (params : gmap string string).

Definition Context : Type := list (CtxKey * CtxValue).

Definition WithValue (ctx : Context) (k : CtxKey) (v : CtxValue) : Context :=
  (k, v) :: ctx.

(** [http.Request], the fields that routing.go reads. *)
Module Request.
Record t := mk {
  Method : string;
  URL_Path : string;
  Ctx : Context;
}.
Definition WithContext (r : t) (ctx : Context) : t :=
  {| Method := Method r; URL_Path := URL_Path r; Ctx := ctx |}.
End Request.

(** [http.HandlerFunc]: what a handler does to the response writer and to
    everything else it can reach, given the request. *)
Definition HandlerFunc (World : Type) : Type := Request.t -> World -> World.

Definition Middleware (World : Type) : Type := HandlerFunc World -> HandlerFunc World.

Module Route.
Record t (World : Type) := mk {
  Version : Z;
  Method : string;
  Path : string;
  Handler : HandlerFunc World;
  RequiredPrivLevel : Z;
  Authenticated : bool;
  (** [None] is the nil slice. *)
  Middlewares : option (list (Middleware World));
  ID : Z;
  CanBypassToPerl : bool;
}.
Arguments mk {World}.
Arguments Version {World}.
Arguments Method {World}.
Arguments Path {World}.
Arguments Handler {World}.
Arguments RequiredPrivLevel {World}.
Arguments Authenticated {World}.
Arguments Middlewares {World}.
Arguments ID {World}.
Arguments CanBypassToPerl {World}.
End Route.

Module RawRoute.
Record t (World : Type) := mk {
  Method : string;
  Path : string;
  Handler : HandlerFunc World;
  RequiredPrivLevel : Z;
  Authenticated : bool;
  Middlewares : option (list (Middleware World));
}.
Arguments mk {World}.
Arguments Method {World}.
Arguments Path {World}.
Arguments Handler {World}.
Arguments RequiredPrivLevel {World}.
Arguments Authenticated {World}.
Arguments Middlewares {World}.
End RawRoute.

Module PathHandler.
Record t (World : Type) := mk {
  Path : string;
  Handler : HandlerFunc World;
}.
Arguments mk {World}.
Arguments Path {World}.
Arguments Handler {World}.
End PathHandler.

Module CompiledRoute.
Record t (World : Type) {RL : RegexpLib} := mk {
  Handler : HandlerFunc World;
  Regex : Regexp;
  Params : list string;
}.
Arguments mk {World _}.
Arguments Handler {World _}.
Arguments Regex {World _}.
Arguments Params {World _}.
End CompiledRoute.

(** [AuthBase] of the package's wrappers file. *)
Record AuthBase (World : Type) := {
  secret : string;
  override : option (Middleware World);
}.
Arguments secret {World}.
Arguments override {World}.

(** The wrappers and fixed handlers of the routing package that
    routing.go calls and that live in its other files. *)
Class Wrappers (World : Type) := {
  getWrapAccessLog : string -> Middleware World;
  (** The argument is the [time.Duration], in nanoseconds. *)
  timeOutWrapper : Z -> Middleware World;
  wrapHeaders : Middleware World;
  wrapPanicRecover : Middleware World;
  wrapAccessLog : string -> HandlerFunc World -> HandlerFunc World;
  DisabledRouteHandler : HandlerFunc World;
  NotImplementedHandler : HandlerFunc World;
  (** The method [AuthBase.GetWrapper]. *)
  GetWrapper : AuthBase World -> Z -> Middleware World;
}.

(** [plugin.OnRequestData] and the hook of [plugin.Plugins] that [Handler]
    calls. *)
Module plugin.
Record OnRequestData := {
  RequestID : Z;
  AppCfg : Config;
  R : Request.t;
}.

Record Plugins := {
  OnRequest : OnRequestData -> bool;
}.
End plugin.

(** What [Handler] does with a request: the one call it ends in. *)
Inductive Served (World : Type) :=
| HandledByPlugin                                      (* the hook took the request *)
| ServeCatchall (r : Request.t)                        (* catchall.ServeHTTP(w, r) *)
| ServeHandler (h : HandlerFunc World) (r : Request.t) (* h(w, r) *)
| HandlerPanic (p : Panic).
Arguments HandledByPlugin {World}.
Arguments ServeCatchall {World} r.
Arguments ServeHandler {World} h r.
Arguments HandlerPanic {World} p.

(** ** The functions of routing.go *)

Section Routing.
Context {World : Type} {RL : RegexpLib} {SC : Strconv} {ST : Strings}
  {WR : Wrappers World}.

(** Number of fractional decimal digits of the fixed-point versions. *)
Variable prec : nat.

Definition RoutePrefix : string := "^api".

Definition getDefaultMiddleware (secret : string) (requestTimeout : Z)
  : list (Middleware World) :=
  [getWrapAccessLog secret; timeOutWrapper requestTimeout; wrapHeaders; wrapPanicRecover].

(** The map [m] of the source is a set of versions; ranging over it gives
    its elements in some order, which the sort then fixes. *)
Definition getSortedRouteVersions (rs : list (Route.t World)) : list Z :=
  let m : gset Z := foldl (fun m r => {[Route.Version r]} ∪ m) ∅ rs in
  let versions := elements m in
  Go_sort.Float64s versions.

(** Modelled from the spec: [GetRouteIDMap] is in another file of the
    package; the spec speaks of the set of the listed route ids. *)
Definition GetRouteIDMap (ids : list Z) : gset Z := list_to_set ids.

(** Arithmetic of [time.Duration], an [int64] of nanoseconds. *)
Definition int64 (z : Z) : Z := (z + 2 ^ 63) mod 2 ^ 64 - 2 ^ 63.

(** [time.Second * time.Duration(n)] *)
Definition seconds (n : Z) : Z := int64 (1000000000 * int64 n).

(** The loop of [use]: from index [n - 1] down to 0. *)
Fixpoint use_from (h : HandlerFunc World) (middlewares : list (Middleware World))
  (n : nat) : HandlerFunc World :=
  match n with
  | O => h
  | S i =>
      match middlewares !! i with
      | Some mw => use_from (mw h) middlewares i
      | None => h (* not reached: i < len(middlewares) *)
      end
  end.

Definition use (h : HandlerFunc World) (middlewares : list (Middleware World))
  : HandlerFunc World :=
  use_from h middlewares (length middlewares).

Definition getRouteMiddleware (middlewares : option (list (Middleware World)))
  (authBase : AuthBase World) (authenticated : bool) (privLevel : Z)
  (requestTimeout : Z) : list (Middleware World) :=
  let middlewares :=
    match middlewares with
    | None => getDefaultMiddleware (secret authBase) requestTimeout
    | Some l => l
    end in
  if authenticated
  then let authWrapper := GetWrapper authBase privLevel in
       middlewares ++ [authWrapper]
  else middlewares.

(** [m[method] = append(m[method], ph)]; a key that is absent reads as the
    nil slice. *)
Definition appendPath (m : gmap string (list (PathHandler.t World)))
  (method : string) (ph : PathHandler.t World)
  : gmap string (list (PathHandler.t World)) :=
  <[method := (m !!! method) ++ [ph]]> m.

(** The versions that the loop over [versions[versionI:]] reaches before
    its [break]. *)
Fixpoint untilBreak (nextMajorVer : Z) (versions : list Z) : list Z :=
  match versions with
  | [] => []
  | version :: rest =>
      if version >=? nextMajorVer then []
      else version :: untilBreak nextMajorVer rest
  end.

(** The versions for which the body of the inner loop of [CreateRouteMap]
    runs for route [r]. *)
Definition routeVersions (versions : list Z) (r : Route.t World) : list Z :=
  let versionI := Go_sort.SearchFloat64s versions (Route.Version r) in
  let nextMajorVer :=
    Go_strconv.float64_of_int prec
      (int64 (Go_strconv.int_of_float64 prec (Route.Version r) + 1)) in
  untilBreak nextMajorVer (drop versionI versions).

(** The body of the outer loop of [CreateRouteMap] for route [r]. *)
Definition mountRoute (versions : list Z) (perlRoutes disabledRoutes : gset Z)
  (perlHandler : HandlerFunc World) (authBase : AuthBase World)
  (requestTimeout : Z) (m : gmap string (list (PathHandler.t World)))
  (r : Route.t World) : gmap string (list (PathHandler.t World)) :=
  let isPerlRoute := bool_decide (Route.ID r ∈ perlRoutes) in
  let isDisabledRoute := bool_decide (Route.ID r ∈ disabledRoutes) in
  foldl (fun m version =>
    let vstr := Go_strconv.FormatFloat prec version in
    let path := RoutePrefix +:+ "/" +:+ vstr +:+ "/" +:+ Route.Path r in
    let middlewares :=
      getRouteMiddleware (Route.Middlewares r) authBase (Route.Authenticated r)
        (Route.RequiredPrivLevel r) requestTimeout in
    if isPerlRoute then
      appendPath m (Route.Method r) (PathHandler.mk path perlHandler)
    else if isDisabledRoute then
      appendPath m (Route.Method r)
        (PathHandler.mk path (wrapAccessLog (secret authBase) DisabledRouteHandler))
    else
      appendPath m (Route.Method r)
        (PathHandler.mk path (use (Route.Handler r) middlewares)))
    m (routeVersions versions r).

(** The body of the loop over the raw routes. *)
Definition mountRawRoute (authBase : AuthBase World) (requestTimeout : Z)
  (m : gmap string (list (PathHandler.t World))) (r : RawRoute.t World)
  : gmap string (list (PathHandler.t World)) :=
  let middlewares :=
    getRouteMiddleware (RawRoute.Middlewares r) authBase (RawRoute.Authenticated r)
      (RawRoute.RequiredPrivLevel r) requestTimeout in
  appendPath m (RawRoute.Method r)
    (PathHandler.mk (RawRoute.Path r) (use (RawRoute.Handler r) middlewares)).

(** [CreateRouteMap]: the table and the version set. *)
Definition CreateRouteMap (rs : list (Route.t World)) (rawRoutes : list (RawRoute.t World))
  (perlRouteIDs disabledRouteIDs : list Z) (perlHandler : HandlerFunc World)
  (authBase : AuthBase World) (reqTimeOutSeconds : Z)
  : gmap string (list (PathHandler.t World)) * gset Z :=
  let versions := getSortedRouteVersions rs in
  let requestTimeout :=
    if reqTimeOutSeconds >? 0 then seconds reqTimeOutSeconds else seconds 60 in
  let perlRoutes := GetRouteIDMap perlRouteIDs in
  let disabledRoutes := GetRouteIDMap disabledRouteIDs in
  let m := foldl (mountRoute versions perlRoutes disabledRoutes perlHandler authBase
                    requestTimeout) ∅ rs in
  let m := foldl (mountRawRoute authBase requestTimeout) m rawRoutes in
  let versionSet : gset Z := foldl (fun s version => {[version]} ∪ s) ∅ versions in
  (m, versionSet).

(** The loop of [CompileRoutes] over the placeholders of one route.  Every
    round removes an opening brace, so [fuel] rounds are enough when [fuel]
    is the length of the route (see [compileTemplate_fuel]). *)
Fixpoint compileTemplate (fuel : nat) (route : string) (params : list string)
  : Result (string * list string) :=
  let open := Go_strings.Index route "{" in
  if open >? 0 then
    match fuel with
    | O => OutOfFuel
    | S fuel' =>
        let close := Go_strings.Index route "}" in
        if close <? 0 then Panicked MalformedRoute
        else
          match Go_strings.slice route (open + 1) close with
          | None => Panicked SliceBounds
          | Some param =>
              match Go_strings.slice_to route open,
                    Go_strings.slice_from route (close + 1) with
              | Some before, Some after =>
                  compileTemplate fuel' (before +:+ "([^/]+)" +:+ after)
                    (params ++ [param])
              | _, _ => Panicked SliceBounds
              end
          end
    end
  else Ok (route, params).

(** The body of the inner loop of [CompileRoutes]. *)
Definition compileRoute (pathHandler : PathHandler.t World)
  : Result (CompiledRoute.t World) :=
  let route := PathHandler.Path pathHandler in
  let handler := PathHandler.Handler pathHandler in
  match compileTemplate (String.length route) route [] with
  | Ok (route, params) =>
      match MustCompile route with
      | Some regex => Ok (CompiledRoute.mk handler regex params)
      | None => Panicked RegexpError
      end
  | Panicked p => Panicked p
  | OutOfFuel => OutOfFuel
  end.

Fixpoint compileAll (mRoutes : list (PathHandler.t World))
  : Result (list (CompiledRoute.t World)) :=
  match mRoutes with
  | [] => Ok []
  | pathHandler :: rest =>
      match compileRoute pathHandler with
      | Ok c =>
          match compileAll rest with
          | Ok cs => Ok (c :: cs)
          | Panicked p => Panicked p
          | OutOfFuel => OutOfFuel
          end
      | Panicked p => Panicked p
      | OutOfFuel => OutOfFuel
      end
  end.

Definition compiled_ok (c : Result (list (CompiledRoute.t World))) : bool :=
  match c with
  | Ok _ => true
  | _ => false
  end.

(** [CompileRoutes]: [None] when a template makes it panic.  The methods
    are visited in no fixed order, but each method's list is compiled on
    its own, in order; a method gets a key only once a route is appended
    under it. *)
Definition CompileRoutes (routes : gmap string (list (PathHandler.t World)))
  : option (gmap string (list (CompiledRoute.t World))) :=
  let compiled := compileAll <$> routes in
  if forallb (fun mc => compiled_ok mc.2) (map_to_list compiled)
  then Some (omap (fun c => match c with
                            | Ok (c :: cs) => Some (c :: cs)
                            | _ => None
                            end) compiled)
  else None.

(** [params[v] = match[i+1]] for the names from index [i] on; [None] is the
    index panic. *)
Fixpoint bindParams (names : list string) (i : nat) (matched : list string)
  (params : gmap string string) : option (gmap string string) :=
  match names with
  | [] => Some params
  | v :: names' =>
      match matched !! S i with
      | Some x => bindParams names' (S i) matched (<[v := x]> params)
      | None => None
      end
  end.

(** The loop of [Handler] over the compiled routes of the method; [None]
    when it ends without a match. *)
Fixpoint tryRoutes (mRoutes : list (CompiledRoute.t World)) (requested : string)
  (ctx : Context) (r : Request.t) : option (Served World) :=
  match mRoutes with
  | [] => None
  | compiledRoute :: rest =>
      let matched := FindStringSubmatch (CompiledRoute.Regex compiledRoute) requested in
      if (length matched =? 0)%nat then tryRoutes rest requested ctx r
      else
        match bindParams (CompiledRoute.Params compiledRoute) 0 matched ∅ with
        | Some params =>
            let routeCtx := WithValue ctx PathParamsKey (PathParamsValue params) in
            Some (ServeHandler (CompiledRoute.Handler compiledRoute)
                    (Request.WithContext r routeCtx))
        | None => Some (HandlerPanic IndexRange)
        end
  end.

Definition IsRequestAPIAndUnknownVersion (req : Request.t) (versions : gset Z) : bool :=
  let pathParts := Go_strings.Split (Request.URL_Path req) "/" in
  if (length pathParts <? 2)%nat then false
  else if negb (String.eqb (ToLower (default "" (pathParts !! 1%nat))) "api")
  then false
  else if (length pathParts <? 3)%nat then true
  else
    match ParseFloat (default "" (pathParts !! 2%nat)) with
    | Go_strconv.ParseError => true
    | Go_strconv.ParseOther => true
    | Go_strconv.ParseOk version =>
        if decide (version ∈ versions) then false else true
    end.

(** [Handler]; [reqID] is what [getReqID()] returned.  The log lines are
    not modelled. *)
Definition Handler (routes : gmap string (list (CompiledRoute.t World)))
  (versions : gset Z) (catchall : HandlerFunc World) (db : Z) (cfg : Config)
  (reqID : Z) (plugins : plugin.Plugins) (r : Request.t) : Served World :=
  let ctx := Request.Ctx r in
  let ctx := WithValue ctx DBContextKey (DBValue db) in
  let ctx := WithValue ctx ConfigContextKey (ConfigValue cfg) in
  let ctx := WithValue ctx ReqIDContextKey (ReqIDValue reqID) in
  let pluginCtx := WithValue ctx PathParamsKey (PathParamsValue ∅) in
  let pluginReq := Request.WithContext r pluginCtx in
  let onReqData :=
    {| plugin.RequestID := reqID; plugin.AppCfg := cfg; plugin.R := pluginReq |} in
  if plugin.OnRequest plugins onReqData then HandledByPlugin
  else
    match Go_strings.slice_from (Request.URL_Path r) 1 with
    | None => HandlerPanic SliceBounds
    | Some requested =>
        match routes !! Request.Method r with
        | None => ServeCatchall r
        | Some mRoutes =>
            match tryRoutes mRoutes requested ctx r with
            | Some served => served
            | None =>
                if IsRequestAPIAndUnknownVersion r versions then
                  match Secrets cfg !! 0%nat with
                  | Some secret0 =>
                      ServeHandler (wrapAccessLog secret0 NotImplementedHandler) r
                  | None => HandlerPanic IndexRange
                  end
                else ServeCatchall r
            end
        end
    end.

(** [ServerData], the fields that [RegisterRoutes] reads. *)
Record ServerData := {
  SD_Config : Config;
  SD_DB : Z;
  SD_Plugins : plugin.Plugins;
}.

(** What [RegisterRoutes] ends in. *)
Inductive Registered :=
| ReturnedError                                    (* Routes(d) failed: return err *)
| StartupPanic                                     (* a panic before http.HandleFunc *)
| Serving (root : Z -> Request.t -> Served World). (* the handler put on "/" *)

(** [RegisterRoutes]; [Routes] is the route declaration of the package,
    which is in another file: its result is taken as given ([None] for its
    error). *)
Definition RegisterRoutes
  (Routes : ServerData ->
            option (list (Route.t World) * list (RawRoute.t World) * HandlerFunc World))
  (d : ServerData) : Registered :=
  match Routes d with
  | None => ReturnedError
  | Some (routeSlice, rawRoutes, catchall) =>
      match Secrets (SD_Config d) !! 0%nat with
      | None => StartupPanic
      | Some secret0 =>
          let authBase := {| secret := secret0; override := None |} in
          let '(routes, versions) :=
            CreateRouteMap routeSlice rawRoutes (PerlRoutes (SD_Config d))
              (DisabledRoutes (SD_Config d)) catchall authBase
              (RequestTimeout (SD_Config d)) in
          match CompileRoutes routes with
          | None => StartupPanic
          | Some compiledRoutes =>
              Serving (fun reqID r =>
                Handler compiledRoutes versions catchall (SD_DB d) (SD_Config d)
                  reqID (SD_Plugins d) r)
          end
      end
  end.

End Routing.

(** ** Definitions used in the statements *)

Section StatementDefinitions.
Context {World : Type} {WR : Wrappers World}.
Variable prec : nat.

(** The path under which route [r] is mounted at [version]. *)
Definition mountPath (version : Z) (r : Route.t World) : string :=
  "^api/" +:+ Go_strconv.FormatFloat prec version +:+ "/" +:+ Route.Path r.

(** The three classes of a route id, as the spec words them. *)
Definition installedHandler (perlRouteIDs disabledRouteIDs : list Z)
  (perlHandler : HandlerFunc World) (authBase : AuthBase World)
  (requestTimeout : Z) (r : Route.t World) : HandlerFunc World :=
  if decide (Route.ID r ∈ perlRouteIDs) then perlHandler
  else if decide (Route.ID r ∈ disabledRouteIDs)
  then wrapAccessLog (secret authBase) DisabledRouteHandler
  else use (Route.Handler r)
         (getRouteMiddleware (Route.Middlewares r) authBase (Route.Authenticated r)
            (Route.RequiredPrivLevel r) requestTimeout).

(** The entries of route [r], one for each version it is mounted at. *)
Definition routeEntries (versions : list Z) (perlRouteIDs disabledRouteIDs : list Z)
  (perlHandler : HandlerFunc World) (authBase : AuthBase World)
  (requestTimeout : Z) (r : Route.t World) : list (PathHandler.t World) :=
  (fun version =>
     PathHandler.mk (mountPath version r)
       (installedHandler perlRouteIDs disabledRouteIDs perlHandler authBase
          requestTimeout r)) <$> routeVersions prec versions r.

(** The entry of a raw route. *)
Definition rawEntry (authBase : AuthBase World) (requestTimeout : Z)
  (r : RawRoute.t World) : PathHandler.t World :=
  PathHandler.mk (RawRoute.Path r)
    (use (RawRoute.Handler r)
       (getRouteMiddleware (RawRoute.Middlewares r) authBase (RawRoute.Authenticated r)
          (RawRoute.RequiredPrivLevel r) requestTimeout)).

(** The request timeout that [CreateRouteMap] works with. *)
Definition effectiveTimeout (reqTimeOutSeconds : Z) : Z :=
  if reqTimeOutSeconds >? 0 then seconds reqTimeOutSeconds else seconds 60.


End StatementDefinitions.

(** Templates as the spec describes them: text and placeholders. *)
Inductive piece :=
| Text (s : string)
| Placeholder (name : string).

(** The template string, the pattern the spec wants for it, and its
    parameter names. *)
Fixpoint render (t : list piece) : string :=
  match t with
  | [] => ""
  | Text s :: t' => s +:+ render t'
  | Placeholder name :: t' => "{" +:+ name +:+ "}" +:+ render t'
  end.

Fixpoint pattern (t : list piece) : string :=
  match t with
  | [] => ""
  | Text s :: t' => s +:+ pattern t'
  | Placeholder _ :: t' => "([^/]+)" +:+ pattern t'
  end.

Fixpoint names (t : list piece) : list string :=
  match t with
  | [] => []
  | Text _ :: t' => names t'
  | Placeholder name :: t' => name :: names t'
  end.

(** Neither brace occurs in [s]. *)
Definition brace_free (s : string) : Prop :=
  Go_strings.Index s "{" = -1 /\ Go_strings.Index s "}" = -1.

Definition piece_brace_free (p : piece) : Prop :=
  match p with
  | Text s => brace_free s
  | Placeholder name => brace_free name
  end.

(** An opening brace with no closing brace after it. *)
Definition unclosed (route : string) : Prop :=
  exists pre post, route = pre +:+ String "{" post /\ Go_strings.Index post "}" = -1.

(** How often [c] occurs in [s]. *)
Fixpoint count_char (c : ascii) (s : string) : nat :=
  match s with
  | EmptyString => 0%nat
  | String a s' => ((if Ascii.eqb a c then 1 else 0) + count_char c s')%nat
  end.

Section DispatchStatements.
Context {World : Type} {RL : RegexpLib} {SC : Strconv} {ST : Strings}.

(** The context that [Handler] builds before it looks for a route. *)
Definition baseContext (db : Z) (cfg : Config) (reqID : Z) (r : Request.t) : Context :=
  WithValue (WithValue (WithValue (Request.Ctx r) DBContextKey (DBValue db))
               ConfigContextKey (ConfigValue cfg))
    ReqIDContextKey (ReqIDValue reqID).

(** What [Handler] hands to the plugin hook. *)
Definition hookData (db : Z) (cfg : Config) (reqID : Z) (r : Request.t)
  : plugin.OnRequestData :=
  {| plugin.RequestID := reqID;
     plugin.AppCfg := cfg;
     plugin.R := Request.WithContext r
                   (WithValue (baseContext db cfg reqID r) PathParamsKey
                      (PathParamsValue ∅)) |}.

(** The request as the handler of a matched route gets it. *)
Definition routedRequest (db : Z) (cfg : Config) (reqID : Z) (r : Request.t)
  (params : gmap string string) : Request.t :=
  Request.WithContext r
    (WithValue (baseContext db cfg reqID r) PathParamsKey (PathParamsValue params)).

(** The pattern of a compiled route matches the requested path. *)
Definition routeMatches (cr : CompiledRoute.t World) (requested : string) : Prop :=
  FindStringSubmatch (CompiledRoute.Regex cr) requested <> [].





End DispatchStatements.

(** ** Handlers that leave a trace, for statements about order *)

(** A middleware that records [pre] before it calls the handler it wraps
    and [post] after that handler returns. *)
Definition around {E : Type} (pre post : E) : Middleware (list E) :=
  fun h r w => h r (w ++ [pre]) ++ [post].

(** A handler that records [what]. *)
Definition say {E : Type} (what : E) : HandlerFunc (list E) :=
  fun _ w => w ++ [what].

(** A concrete server for the examples: handlers write to a log, versions
    have one fractional digit. *)
Module Demo.

Definition wrappers : Wrappers (list string) := {|
  getWrapAccessLog := fun _ => around "log" "logged";
  timeOutWrapper := fun _ => around "timer" "timed";
  wrapHeaders := around "headers" "headers set";
  wrapPanicRecover := around "recover" "recovered";
  wrapAccessLog := fun _ h => around "log" "logged" h;
  DisabledRouteHandler := say "disabled";
  NotImplementedHandler := say "not implemented";
  GetWrapper := fun a _ =>
    match override a with
    | Some mw => mw
    | None => around "auth" "authorized"
    end;
|}.

Definition strconv : Strconv := {| ParseFloat := Go_strconv.ParseFloat_decimal 1 |}.

(** [strings.ToLower] on strings of ASCII bytes, the only ones in the
    examples. *)
#[global] Instance strings : Strings := {|
  ToLower := Go_strings.lower_ascii;
  ToLower_ascii := fun _ _ => eq_refl;
|}.

Definition cfg : Config := {|
  Secrets := ["s3cret"];
  PerlRoutes := [];
  DisabledRoutes := [];
  RequestTimeout := 0;
|}.

Definition authBase : AuthBase (list string) := {| secret := "s3cret"; override := None |}.

Definition plugins : plugin.Plugins := {| plugin.OnRequest := fun _ => false |}.

Definition catchall : HandlerFunc (list string) := say "catchall".

Definition route (version : Z) (method path : string) (id : Z)
  : Route.t (list string) :=
  Route.mk version method path (say path) 0 false None id false.

Definition raw (method path : string) : RawRoute.t (list string) :=
  RawRoute.mk method path (say path) 0 false None.

Definition request (method path : string) : Request.t :=
  Request.mk method path [].

(** A compiled route of the regexp instance; [pattern] is one that the
    instance reads. *)
Definition compiled (pattern what : string) (names : list string)
  : CompiledRoute.t (RL := Go_regexp.lib) (list string) :=
  CompiledRoute.mk (RL := Go_regexp.lib) (say what)
    (default [] (Go_regexp.parse pattern)) names.

(** The compiled route that the table has for the route or raw route
    [what] without middleware of its own, given the pattern it compiles to. *)
Definition mounted (pattern what : string) (names : list string)
  : CompiledRoute.t (RL := Go_regexp.lib) (list string) :=
  CompiledRoute.mk (RL := Go_regexp.lib)
    (use (say what)
       (getRouteMiddleware (WR := wrappers) None authBase false 0 (effectiveTimeout 0)))
    (default [] (Go_regexp.parse pattern)) names.

(** The table of [rs] and [rawRoutes], compiled. *)
Definition table (rs : list (Route.t (list string)))
  (rawRoutes : list (RawRoute.t (list string))) (perl disabled : list Z) :=
  let '(routes, versions) :=
    CreateRouteMap (WR := wrappers) 1 rs rawRoutes perl disabled catchall authBase 0 in
  (CompileRoutes (RL := Go_regexp.lib) routes, versions).

(** The compiled routes of that table (none when compilation panics) and
    its version set. *)
Definition routesOf (rs : list (Route.t (list string)))
  (rawRoutes : list (RawRoute.t (list string))) (perl disabled : list Z) :=
  default ∅ (table rs rawRoutes perl disabled).1.

Definition versionsOf (rs : list (Route.t (list string)))
  (rawRoutes : list (RawRoute.t (list string))) (perl disabled : list Z) :=
  (table rs rawRoutes perl disabled).2.

(** [Handler] with the collaborators of the example. *)
Definition handle (routes : gmap string (list (CompiledRoute.t (RL := Go_regexp.lib) (list string))))
  (versions : gset Z) (r : Request.t) : Served (list string) :=
  Handler (RL := Go_regexp.lib) (SC := strconv) (WR := wrappers)
    routes versions catchall 0 cfg 1 plugins r.

(** [Handler] on that table. *)
Definition serve (rs : list (Route.t (list string)))
  (rawRoutes : list (RawRoute.t (list string))) (perl disabled : list Z)
  (r : Request.t) : option (Served (list string)) :=
  let '(compiled, versions) := table rs rawRoutes perl disabled in
  match compiled with
  | Some routes =>
      Some (Handler (RL := Go_regexp.lib) (SC := strconv) (WR := wrappers)
              routes versions catchall 0 cfg 1 plugins r)
  | None => None
  end.

End Demo.

(** ** The request id counter *)

(** [atomic.AddUint64(addr, delta)] on a counter that holds [val]: the new
    value, which is stored and returned.  A [uint64] wraps around at
    2^64. *)
Definition AddUint64 (val delta : Z) : Z := (val + delta) mod 2 ^ 64.

(** [nextReqIDGetter] returns a closure over its variable [id], which
    starts at 0.  The closure is modelled by the value of [id]: the
    getter as [nextReqIDGetter] returns it is the value 0, and a call of
    it ([getReqID]) gives the identifier and the value that it leaves in
    [id].  The addition is atomic, so the calls of several goroutines take
    effect one after the other; a run of calls is a run in that order. *)
Definition nextReqIDGetter : Z := 0.

Definition getReqID (id : Z) : Z * Z :=
  let new := AddUint64 id 1 in (new, new).

(** The identifiers that [n] calls in a row return. *)
Fixpoint reqIDs (n : nat) (id : Z) : list Z :=
  match n with
  | O => []
  | S n' => let '(reqID, id') := getReqID id in reqID :: reqIDs n' id'
  end.

(** The function that [RegisterRoutes] puts on "/" calls [Handler] with the
    one [getReqID] of the server, and the first thing [Handler] does is to
    call it.  [serveAll root id requests] is what becomes of the requests
    when they are served one after the other: [root] is that function,
    given the identifier ([Serving root] of [RegisterRoutes]), and [id] is
    the counter. *)
Fixpoint serveAll {World : Type} (root : Z -> Request.t -> Served World) (id : Z)
  (requests : list Request.t) : list (Served World) :=
  match requests with
  | [] => []
  | r :: rest => let '(reqID, id') := getReqID id in root reqID r :: serveAll root id' rest
  end.

(** ** Reading a request's context *)

#[global] Instance CtxKey_eq_dec : EqDecision CtxKey.
Proof. solve_decision. Defined.

(** [ctx.Value(key)], by which a handler reads what [Handler] has put
    into the context: the value of the nearest link of the chain that has
    this key; [None] is nil. *)
Fixpoint Value (ctx : Context) (key : CtxKey) : option CtxValue :=
  match ctx with
  | [] => None
  | (k, v) :: parent => if decide (k = key) then Some v else Value parent key
  end.

(** A route with another [CanBypassToPerl] flag. *)
Definition withBypass {World : Type} (r : Route.t World) (b : bool) : Route.t World :=
  Route.mk (Route.Version r) (Route.Method r) (Route.Path r) (Route.Handler r)
    (Route.RequiredPrivLevel r) (Route.Authenticated r) (Route.Middlewares r)
    (Route.ID r) b.

(** ** lib/go-tc/constants.go *)

Module tc.

(** [ErrorConstant] is a string type; [Error] converts it back. *)
Definition ErrorConstant : Type := string.

Definition Error (e : ErrorConstant) : string := e.

(** [AlertLevel] is an [int]; the four levels are numbered by [iota]. *)
Definition AlertLevel : Type := Z.

Definition SuccessLevel : AlertLevel := 0.
Definition InfoLevel : AlertLevel := 1.
Definition WarnLevel : AlertLevel := 2.
Definition ErrorLevel : AlertLevel := 3.

(** The array [alertLevels] of four strings. *)
Definition alertLevels : list string := ["success"; "info"; "warning"; "error"].

(** The method [AlertLevel.String], which is [alertLevels[a]]; [None] is
    the panic of an index that is out of the range of the array. *)
Definition AlertLevel_String (a : AlertLevel) : option string :=
  if (0 <=? a) && (a <? 4) then alertLevels !! Z.to_nat a else None.

End tc.

(** * Properties *)

(** ** The library models on examples *)

Example Index_examples :
  Go_strings.Index "widget/{id}" "{" = 7 /\ Go_strings.Index "{id}" "{" = 0
  /\ Go_strings.Index "ping" "{" = -1.
Proof. repeat split. Qed.

Example Split_examples :
  Go_strings.Split "/api/1.1/foo" "/" = [""; "api"; "1.1"; "foo"]
  /\ Go_strings.Split "/apifoo" "/" = [""; "apifoo"]
  /\ Go_strings.Split "/api/" "/" = [""; "api"; ""]
  /\ Go_strings.Split "" "/" = [""].
Proof. repeat split. Qed.

Example slice_examples :
  Go_strings.slice "a{id}b" 2 4 = Some "id" /\ Go_strings.slice "a}b{c" 4 1 = None
  /\ Go_strings.slice_from "" 1 = None.
Proof. repeat split. Qed.

Example FormatFloat_examples :
  Go_strconv.FormatFloat 1 12 = "1.2" /\ Go_strconv.FormatFloat 1 20 = "2"
  /\ Go_strconv.FormatFloat 2 (-105) = "-1.05" /\ Go_strconv.FormatFloat 2 150 = "1.5"
  /\ Go_strconv.FormatFloat 1 (-5) = "-0.5".
Proof. repeat split. Qed.

Example ParseFloat_examples :
  Go_strconv.ParseFloat_decimal 1 "9.9" = Go_strconv.ParseOk 99
  /\ Go_strconv.ParseFloat_decimal 1 "2" = Go_strconv.ParseOk 20
  /\ Go_strconv.ParseFloat_decimal 1 "1.10" = Go_strconv.ParseOk 11
  /\ Go_strconv.ParseFloat_decimal 1 "1.25" = Go_strconv.ParseOther
  /\ Go_strconv.ParseFloat_decimal 1 "foo" = Go_strconv.ParseError
  /\ Go_strconv.ParseFloat_decimal 1 "" = Go_strconv.ParseError.
Proof. repeat split. Qed.

Example regexp_examples :
  let find pattern s :=
    re ← Go_regexp.parse pattern; Some (Go_regexp.find_from re true s) in
  find "^api/1.1/widget/([^/]+)/part/([^/]+)" "api/1.1/widget/42/part/7"
  = Some ["api/1.1/widget/42/part/7"; "42"; "7"]
  /\ find "^api/1.1/ping" "v/api/1.1/ping" = Some []
  /\ find "ping$" "api/1.1/ping" = Some ["ping"]
  /\ find "^api/1.1/ping" "api/1x1/pingpong" = Some ["api/1x1/ping"]
  /\ find "tools/([^/]+)x" "tools/42xx/y" = Some ["tools/42xx"; "42x"]
  /\ find "a(b)?" "ab" = None.
Proof. repeat split. Qed.

(** ** Byte strings *)

#[local] Arguments String.append !_ _ / : simpl nomatch.

Lemma append_nil_r (s : string) : s +:+ "" = s.
Proof. induction s as [|a s IH]; simpl; [done|by rewrite IH]. Qed.

Lemma append_assoc (s t u : string) : (s +:+ t) +:+ u = s +:+ (t +:+ u).
Proof. induction s as [|a s IH]; simpl; [done|by rewrite IH]. Qed.

Lemma length_append (s t : string) :
  String.length (s +:+ t) = (String.length s + String.length t)%nat.
Proof. induction s as [|a s IH]; simpl; [done|by rewrite IH]. Qed.

Lemma append_eq_split (a b c d : string) :
  a +:+ b = c +:+ d ->
  (String.length a <= String.length c)%nat ->
  exists m, c = a +:+ m /\ b = m +:+ d.
Proof.
  revert c. induction a as [|x a IH]; intros c Heq Hlen; simpl in *.
  - by exists c.
  - destruct c as [|y c]; simpl in *; [lia|].
    injection Heq as -> Heq. destruct (IH c Heq) as (m & -> & ->); [lia|].
    by exists m.
Qed.

Lemma substring_whole (s : string) : substring 0 (String.length s) s = s.
Proof. induction s as [|a s IH]; simpl; [done|by rewrite IH]. Qed.

Lemma substring_append_l (a b : string) :
  substring 0 (String.length a) (a +:+ b) = a.
Proof.
  induction a as [|x a IH]; simpl; [by destruct b|by rewrite IH].
Qed.

Lemma substring_append_skip (a b : string) (m : nat) :
  substring (String.length a) m (a +:+ b) = substring 0 m b.
Proof. induction a as [|x a IH]; simpl; [done|by rewrite IH]. Qed.

(** A substring within bounds cuts the string in three. *)
Lemma substring_split (s : string) (n m : nat) :
  (n + m <= String.length s)%nat ->
  exists a b, s = a +:+ substring n m s +:+ b
              /\ String.length a = n /\ String.length (substring n m s) = m.
Proof.
  revert n m. induction s as [|x s IH]; intros n m Hlen; simpl in *.
  - assert (n = 0 /\ m = 0)%nat as [-> ->] by lia. by exists "", "".
  - destruct n as [|n].
    + destruct m as [|m].
      * by exists "", (String x s).
      * destruct (IH 0%nat m) as (a & b & Hs & Ha & Hm); [lia|].
        destruct a; [|done]. simpl in Hs.
        exists "", b. simpl. rewrite <- Hs. by rewrite Hm.
    + destruct (IH n m) as (a & b & Hs & Ha & Hm); [lia|].
      exists (String x a), b. simpl. rewrite <- Hs. by rewrite Ha.
Qed.

Section GoStringFacts.
Import Go_strings.

Lemma len_nonneg (s : string) : 0 <= len s.
Proof. unfold len. lia. Qed.

Lemma len_append (s t : string) : len (s +:+ t) = len s + len t.
Proof. unfold len. rewrite length_append. lia. Qed.

Lemma len_String (a : ascii) (s : string) : len (String a s) = 1 + len s.
Proof. unfold len. simpl. lia. Qed.

Lemma Index_range (s : string) (c : ascii) :
  Index s c = -1 \/ 0 <= Index s c < len s.
Proof.
  induction s as [|a s IH]; simpl; [by left|].
  rewrite len_String. destruct (Ascii.eqb a c); [right; pose proof (len_nonneg s); lia|].
  destruct (Z.ltb_spec (Index s c) 0); [by left|right; lia].
Qed.

(** The first occurrence cuts the string in two. *)
Lemma Index_split (s : string) (c : ascii) :
  0 <= Index s c ->
  exists pre post, s = pre +:+ String c post
                   /\ len pre = Index s c /\ Index pre c = -1.
Proof.
  induction s as [|a s IH]; simpl; [lia|].
  destruct (Ascii.eqb_spec a c) as [->|Hne].
  - intros _. by exists "", s.
  - destruct (Z.ltb_spec (Index s c) 0) as [?|Hge]; [lia|]. intros _.
    destruct (IH Hge) as (pre & post & -> & Hlen & Hpre).
    exists (String a pre), post. simpl. rewrite len_String.
    split; [done|]. split; [lia|].
    destruct (Ascii.eqb_spec a c); [done|]. by rewrite Hpre.
Qed.

Lemma Index_append_absent (pre post : string) (c : ascii) :
  Index pre c = -1 ->
  Index (pre +:+ post) c = if Index post c <? 0 then -1 else len pre + Index post c.
Proof.
  induction pre as [|a pre IH]; simpl.
  - intros _. change (len "") with 0. destruct (Index_range post c) as [->|?]; [done|].
    destruct (Z.ltb_spec (Index post c) 0); lia.
  - rewrite len_String. destruct (Ascii.eqb a c); [lia|].
    destruct (Z.ltb_spec (Index pre c) 0) as [Hlt|?]; [|lia]. intros _.
    rewrite IH by (destruct (Index_range pre c); lia).
    pose proof (len_nonneg pre).
    destruct (Index_range post c) as [->|?]; [done|].
    destruct (Z.ltb_spec (Index post c) 0); [lia|].
    destruct (Z.ltb_spec (len pre + Index post c) 0); lia.
Qed.

Lemma Index_append_present (pre post : string) (c : ascii) :
  0 <= Index pre c -> Index (pre +:+ post) c = Index pre c.
Proof.
  intros Hge. destruct (Index_split pre c Hge) as (a & b & Hpre & Hlen & Ha).
  rewrite Hpre at 1. rewrite append_assoc. simpl.
  rewrite Index_append_absent by done. simpl. rewrite Ascii.eqb_refl. simpl. lia.
Qed.

Lemma Index_head (a : ascii) (s : string) (c : ascii) :
  Index (String a s) c = 0 <-> a = c.
Proof.
  simpl. destruct (Ascii.eqb_spec a c) as [->|Hne]; [done|].
  split; [|done]. destruct (Z.ltb_spec (Index s c) 0); [lia|].
  destruct (Index_range s c); lia.
Qed.

Lemma slice_append (a t b : string) :
  slice (a +:+ t +:+ b) (len a) (len a + len t) = Some t.
Proof.
  unfold slice. rewrite !len_append.
  pose proof (len_nonneg a). pose proof (len_nonneg t). pose proof (len_nonneg b).
  rewrite !(proj2 (Z.leb_le _ _)) by lia. simpl. f_equal.
  unfold len. rewrite Nat2Z.id.
  replace (Z.to_nat _) with (String.length t) by lia.
  rewrite substring_append_skip. apply substring_append_l.
Qed.

Lemma slice_to_append (a b : string) : slice_to (a +:+ b) (len a) = Some a.
Proof.
  unfold slice_to. pose proof (slice_append "" a b) as H. simpl in H.
  by rewrite Z.add_0_l in H.
Qed.

Lemma slice_from_append (a b : string) : slice_from (a +:+ b) (len a) = Some b.
Proof.
  unfold slice_from. rewrite len_append.
  pose proof (slice_append a b "") as H. by rewrite append_nil_r in H.
Qed.

(** A slice that does not panic cuts the string in three. *)
Lemma slice_split (s t : string) (lo hi : Z) :
  slice s lo hi = Some t ->
  exists a b, s = a +:+ t +:+ b /\ len a = lo /\ len t = hi - lo.
Proof.
  unfold slice. destruct (Z.leb_spec 0 lo); [|done].
  destruct (Z.leb_spec lo hi); [|done]. destruct (Z.leb_spec hi (len s)); [|done].
  simpl. intros [= <-].
  destruct (substring_split s (Z.to_nat lo) (Z.to_nat (hi - lo))) as (a & b & Hs & Ha & Ht).
  { unfold len in *. lia. }
  exists a, b. unfold len. rewrite Ha, Ht. split; [done|]. lia.
Qed.

End GoStringFacts.

(** ** Middleware composition *)

Section UseProperties.
Context {World : Type}.
Implicit Types (h : HandlerFunc World) (ms : list (Middleware World)).

Lemma use_from_take h ms n :
  (n <= length ms)%nat ->
  use_from h ms n = foldr (fun mw acc => mw acc) h (take n ms).
Proof.
  revert h. induction n as [|i IH]; intros h Hn; [done|].
  destruct (lookup_lt_is_Some_2 ms i) as [mw Hmw]; [lia|].
  cbn [use_from]. unfold Middleware in *. rewrite Hmw, IH by lia.
  rewrite (take_S_r _ _ _ Hmw), foldr_app. done.
Qed.

Lemma use_foldr h ms : use h ms = foldr (fun mw acc => mw acc) h ms.
Proof. unfold use. rewrite use_from_take by done. by rewrite firstn_all. Qed.

Lemma use_nil h : use h [] = h.
Proof. done. Qed.

Lemma use_cons h mw ms : use h (mw :: ms) = mw (use h ms).
Proof. by rewrite !use_foldr. Qed.

End UseProperties.

(** C6. Applying the list [m1; ...; mn] to [h] gives [m1 (m2 (... (mn h)))],
    the right fold of application over the list; the first middleware of a
    list wraps what the rest of the list makes of [h], so it is the
    outermost wrapper.
    For the list [A; B] of two middlewares that record their work, A's
    pre-logic is recorded first, then B's, then the handler runs, then B's
    post-logic is recorded and last A's. *)
Theorem use_first_is_outermost :
  (forall World (h : HandlerFunc World) ms,
     use h ms = foldr (fun mw acc => mw acc) h ms) /\
  (forall World (h : HandlerFunc World) mw ms, use h (mw :: ms) = mw (use h ms)) /\
  (forall E (h : HandlerFunc (list E)) (preA postA preB postB : E) r w,
     use h [around preA postA; around preB postB] r w
     = h r (w ++ [preA; preB]) ++ [postB; postA]).
Proof.
  split; [|split].
  - intros. apply use_foldr.
  - intros. apply use_cons.
  - intros. rewrite !use_cons, use_nil. unfold around.
    by rewrite <- !(assoc_L (++)).
Qed.

(** ** The middleware of a route *)

Section MiddlewareProperties.
Context {World : Type} {WR : Wrappers World}.

(** C5. The middleware of a route is its own list when it has one, and
    otherwise the default chain of access logging, request timeout,
    standard headers and panic recovery, in this order; to either, an
    authenticated route adds at the end the one authorization wrapper for
    its privilege level, also for level zero, and a route that is not
    authenticated adds nothing. *)
Theorem getRouteMiddleware_resolved
  (explicit : option (list (Middleware World))) (authBase : AuthBase World)
  (authenticated : bool) (privLevel requestTimeout : Z) :
  let chain :=
    match explicit with
    | Some l => l
    | None => [getWrapAccessLog (secret authBase); timeOutWrapper requestTimeout;
               wrapHeaders; wrapPanicRecover]
    end in
  getRouteMiddleware explicit authBase authenticated privLevel requestTimeout
  = chain ++ (if authenticated then [GetWrapper authBase privLevel] else [])
  /\ getRouteMiddleware explicit authBase true 0 requestTimeout
     = chain ++ [GetWrapper authBase 0]
  /\ getRouteMiddleware explicit authBase false privLevel requestTimeout = chain.
Proof.
  unfold getRouteMiddleware, getDefaultMiddleware.
  destruct explicit, authenticated; simpl; rewrite ?app_nil_r; done.
Qed.

End MiddlewareProperties.

(** ** The versions of the route table *)

Lemma filter_Forall_id {A} (P : A -> Prop) `{!forall x, Decision (P x)} (l : list A) :
  Forall P l -> filter P l = l.
Proof.
  induction 1 as [|x l Hx _ IH]; [done|].
  by rewrite filter_cons_True, IH.
Qed.

Lemma filter_Forall_nil {A} (P : A -> Prop) `{!forall x, Decision (P x)} (l : list A) :
  Forall (fun x => ~ P x) l -> filter P l = [].
Proof.
  induction 1 as [|x l Hx _ IH]; [done|].
  by rewrite filter_cons_False.
Qed.

(** On an ascending slice, [versions[versionI:]] holds the elements from
    [x] on. *)
Lemma SearchFloat64s_drop (a : list Z) (x : Z) :
  StronglySorted Z.le a ->
  drop (Go_sort.SearchFloat64s a x) a = filter (fun y => x <= y) a.
Proof.
  induction 1 as [|y a Hs IH Hy]; [done|]. simpl.
  destruct (Z.ltb_spec y x) as [Hlt|Hge].
  - rewrite filter_cons_False by lia. apply IH.
  - simpl. rewrite filter_cons_True by lia. f_equal.
    symmetry. apply filter_Forall_id.
    eapply Forall_impl; [exact Hy|]. simpl. intros; lia.
Qed.

(** On an ascending slice, the loop reaches the elements below the bound. *)
Lemma untilBreak_filter (next : Z) (a : list Z) :
  StronglySorted Z.le a ->
  untilBreak next a = filter (fun y => y < next) a.
Proof.
  induction 1 as [|y a Hs IH Hy]; [done|]. simpl.
  destruct (Z.geb_spec y next) as [Hge|Hlt].
  - rewrite filter_cons_False by lia.
    symmetry. apply filter_Forall_nil.
    eapply Forall_impl; [exact Hy|]. simpl. intros; lia.
  - rewrite filter_cons_True by lia. by rewrite IH.
Qed.

Lemma StronglySorted_filter (P : Z -> Prop) `{!forall x, Decision (P x)} (a : list Z) :
  StronglySorted Z.le a -> StronglySorted Z.le (filter P a).
Proof.
  induction 1 as [|y a Hs IH Hy]; [constructor|].
  rewrite filter_cons. case_decide; [|done].
  constructor; [done|].
  apply Forall_forall. intros z [_ Hz]%list_elem_of_filter.
  by eapply Forall_forall in Hy.
Qed.

(** ** The conversions between [float64] and [int] *)

Section Conversions.
Variable prec : nat.

Lemma scale_pos : 0 < Go_strconv.scale prec.
Proof. unfold Go_strconv.scale. apply Z.pow_pos_nonneg; lia. Qed.

(** For a version that is not negative, the integer part is the floor. *)
Lemma to_int_floor (v : Z) :
  0 <= v -> Go_strconv.to_int prec v = Go_strconv.floor prec v.
Proof.
  intros Hv. unfold Go_strconv.to_int, Go_strconv.floor.
  apply Z.quot_div_nonneg; [done|apply scale_pos].
Qed.

Lemma to_int_bounds (v b : Z) :
  0 <= b ->
  - b * Go_strconv.scale prec < v < b * Go_strconv.scale prec ->
  - b < Go_strconv.to_int prec v < b.
Proof.
  pose proof scale_pos as Hs.
  intros Hb Hv. unfold Go_strconv.to_int. assert (0 < b) by nia.
  destruct (Z.le_gt_cases 0 v) as [Hpos|Hneg].
  - rewrite Z.quot_div_nonneg by lia.
    split; [pose proof (Z.div_pos v (Go_strconv.scale prec)); lia|].
    apply Z.div_lt_upper_bound; lia.
  - replace v with (- - v) by lia. rewrite Z.quot_opp_l by lia.
    rewrite Z.quot_div_nonneg by lia.
    assert (0 <= - v / Go_strconv.scale prec) by (apply Z.div_pos; lia).
    assert (- v / Go_strconv.scale prec < b)
      by (apply Z.div_lt_upper_bound; lia).
    lia.
Qed.

(** An integer of at most 53 bits is a [float64]. *)
Lemma round53_small (i : Z) : Z.abs i <= 2 ^ 53 -> Go_strconv.round53 i = i.
Proof.
  intros Hi. destruct (Z.eq_dec (Z.abs i) (2 ^ 53)) as [He|Hne].
  - assert (i = 2 ^ 53 \/ i = - 2 ^ 53) as [->| ->] by lia; reflexivity.
  - unfold Go_strconv.round53.
    assert (Z.max 0 (Z.log2 (Z.abs i) - 52) = 0) as ->.
    { destruct (Z.eq_dec (Z.abs i) 0) as [->|Hz]; [reflexivity|].
      assert (Z.log2 (Z.abs i) < 53) by (apply Z.log2_lt_pow2; lia). lia. }
    change (2 ^ 0) with 1. rewrite Z.div_1_r, Z.mod_1_r. simpl.
    rewrite Z.mul_1_r, Z.mul_comm. apply Z.abs_sgn.
Qed.

(** Below 2^53 the conversion [int(v)] is the integer part. *)
Lemma int_of_float64_exact (v : Z) :
  Go_strconv.exact prec v ->
  Go_strconv.int_of_float64 prec v = Go_strconv.to_int prec v.
Proof.
  intros Hv. pose proof (to_int_bounds v (2 ^ 53) ltac:(lia) Hv) as Hq.
  unfold Go_strconv.int_of_float64. cbv zeta.
  destruct (Z.leb_spec (- 2 ^ 63) (Go_strconv.to_int prec v)); [|lia].
  destruct (Z.ltb_spec (Go_strconv.to_int prec v) (2 ^ 63)); [done|lia].
Qed.

Lemma int64_small (z : Z) : - 2 ^ 63 <= z < 2 ^ 63 -> int64 z = z.
Proof. intros Hz. unfold int64. rewrite Z.mod_small; lia. Qed.

(** Below 2^53 the bound [float64(int(v) + 1)] of [CreateRouteMap] is the
    integer part of [v] plus one. *)
Lemma nextMajorVer_exact (v : Z) :
  Go_strconv.exact prec v ->
  Go_strconv.float64_of_int prec (int64 (Go_strconv.int_of_float64 prec v + 1))
  = Go_strconv.of_int prec (Go_strconv.to_int prec v + 1).
Proof.
  intros Hv. pose proof (to_int_bounds v (2 ^ 53) ltac:(lia) Hv) as Hq.
  rewrite int_of_float64_exact by done.
  rewrite int64_small by lia.
  unfold Go_strconv.float64_of_int. by rewrite round53_small by lia.
Qed.

End Conversions.

(** The conversions at the ends of their ranges: 2^53 + 1 is rounded to
    2^53 and 2^53 + 3 to 2^53 + 4; the version 10^19 is outside the range
    of [int]. *)
Example conversions_at_the_ends :
  Go_strconv.round53 (2 ^ 53 + 1) = 2 ^ 53
  /\ Go_strconv.round53 (2 ^ 53 + 3) = 2 ^ 53 + 4
  /\ Go_strconv.round53 (- (2 ^ 63) + 1) = - 2 ^ 63
  /\ Go_strconv.int_of_float64 1 (Go_strconv.of_int 1 (10 ^ 19)) = - 2 ^ 63
  /\ Go_strconv.int_of_float64 1 (-15) = -1.
Proof. repeat split; vm_compute; reflexivity. Qed.

(** A table whose one route is declared at the version 10^19: the bound
    of the loop is below the version, the route is mounted nowhere, and
    its method is no key of the table. *)
Example route_at_10_19_is_not_mounted :
  let r := Demo.route (Go_strconv.of_int 1 (10 ^ 19)) "GET" "a" 1 in
  routeVersions 1 (getSortedRouteVersions [r]) r = []
  /\ (CreateRouteMap (WR := Demo.wrappers) 1 [r] [] [] [] Demo.catchall Demo.authBase 0).1
       !! "GET" = None.
Proof. split; vm_compute; reflexivity. Qed.

Section VersionProperties.
Context {World : Type}.
Variable prec : nat.
Implicit Types (rs : list (Route.t World)) (r : Route.t World) (v : Z).

Lemma elem_of_version_set rs (acc : gset Z) v :
  v ∈ foldl (fun m r => {[Route.Version r]} ∪ m) acc rs
  <-> v ∈ acc \/ exists r, r ∈ rs /\ Route.Version r = v.
Proof.
  revert acc. induction rs as [|r rs IH]; intros acc; simpl.
  - split; [by left|]. intros [?|(r & Hr & _)]; [done|]. by apply elem_of_nil in Hr.
  - rewrite IH, elem_of_union, elem_of_singleton. split.
    + intros [[->|?]|(r' & Hr' & <-)]; [right; exists r|by left|right; exists r'];
        split; try done; [left|by right].
    + intros [?|(r' & Hr' & <-)]; [by left; right|].
      apply elem_of_cons in Hr' as [->|Hr']; [by left; left|].
      right. by exists r'.
Qed.

(** The sorted versions are the versions that some route declares. *)
Lemma elem_of_getSortedRouteVersions rs v :
  v ∈ getSortedRouteVersions rs <-> exists r, r ∈ rs /\ Route.Version r = v.
Proof.
  unfold getSortedRouteVersions, Go_sort.Float64s.
  rewrite merge_sort_Permutation, elem_of_elements, elem_of_version_set.
  split; [intros [H|H]; [by apply not_elem_of_empty in H|done]|by right].
Qed.

Lemma getSortedRouteVersions_sorted rs :
  StronglySorted Z.le (getSortedRouteVersions rs).
Proof. apply StronglySorted_merge_sort; apply _. Qed.

(** Every declared version is listed once. *)
Lemma getSortedRouteVersions_NoDup rs : NoDup (getSortedRouteVersions rs).
Proof.
  unfold getSortedRouteVersions, Go_sort.Float64s.
  rewrite merge_sort_Permutation. apply NoDup_elements.
Qed.

(** The versions at which a route is mounted, in closed form. *)
Lemma routeVersions_filter (versions : list Z) r :
  StronglySorted Z.le versions ->
  routeVersions prec versions r
  = filter (fun v => v < Go_strconv.float64_of_int prec
                         (int64 (Go_strconv.int_of_float64 prec (Route.Version r) + 1)))
      (filter (fun v => Route.Version r <= v) versions).
Proof.
  intros Hs. unfold routeVersions.
  rewrite SearchFloat64s_drop by done.
  apply untilBreak_filter. by apply StronglySorted_filter.
Qed.

(** The same for a version below 2^53, where the conversions are exact. *)
Lemma routeVersions_filter_exact (versions : list Z) r :
  StronglySorted Z.le versions ->
  Go_strconv.exact prec (Route.Version r) ->
  routeVersions prec versions r
  = filter (fun v => v < Go_strconv.of_int prec (Go_strconv.to_int prec (Route.Version r) + 1))
      (filter (fun v => Route.Version r <= v) versions).
Proof.
  intros Hs Hr. rewrite routeVersions_filter by done.
  by rewrite nextMajorVer_exact.
Qed.

End VersionProperties.

(** ** The route table in closed form *)

Section TableProperties.
Context {World : Type} {WR : Wrappers World}.
Variable prec : nat.
Implicit Types (m : gmap string (list (PathHandler.t World))) (meth : string).

Lemma foldl_ext_eq {A B} (f g : A -> B -> A) (l : list B) (a : A) :
  (forall a b, f a b = g a b) -> foldl f a l = foldl g a l.
Proof.
  intros Hfg. revert a. induction l as [|b l IH]; intros a; simpl; [done|].
  by rewrite Hfg, IH.
Qed.

Lemma appendPath_lookup_total m k ph meth :
  appendPath m k ph !!! meth = m !!! meth ++ (if decide (k = meth) then [ph] else []).
Proof.
  unfold appendPath. case_decide as Hk.
  - subst. by rewrite lookup_total_insert_eq.
  - by rewrite lookup_total_insert_ne, app_nil_r.
Qed.

(** One round of the inner loop adds one entry, whatever the class of the
    route. *)
Lemma mountRoute_foldl versions perlRouteIDs disabledRouteIDs perlHandler
  authBase requestTimeout m (r : Route.t World) :
  mountRoute prec versions (GetRouteIDMap perlRouteIDs) (GetRouteIDMap disabledRouteIDs)
    perlHandler authBase requestTimeout m r
  = foldl (fun m version =>
      appendPath m (Route.Method r)
        (PathHandler.mk (mountPath prec version r)
           (installedHandler perlRouteIDs disabledRouteIDs perlHandler authBase
              requestTimeout r)))
      m (routeVersions prec versions r).
Proof.
  unfold mountRoute, installedHandler, mountPath, RoutePrefix, GetRouteIDMap.
  apply foldl_ext_eq. intros m' version.
  rewrite !bool_decide_decide.
  destruct (decide (Route.ID r ∈ perlRouteIDs)) as [Hp|Hp];
    destruct (decide (Route.ID r ∈ (list_to_set perlRouteIDs : gset Z))) as [Hp'|Hp'];
    rewrite elem_of_list_to_set in Hp'; try done.
  destruct (decide (Route.ID r ∈ disabledRouteIDs)) as [Hd|Hd];
    destruct (decide (Route.ID r ∈ (list_to_set disabledRouteIDs : gset Z))) as [Hd'|Hd'];
    rewrite elem_of_list_to_set in Hd'; done.
Qed.

Lemma foldl_appendPath_lookup_total m k (phs : list (PathHandler.t World)) meth :
  foldl (fun m ph => appendPath m k ph) m phs !!! meth
  = m !!! meth ++ (if decide (k = meth) then phs else []).
Proof.
  revert m. induction phs as [|ph phs IH]; intros m; simpl.
  - by case_decide; rewrite app_nil_r.
  - rewrite IH, appendPath_lookup_total. case_decide; by rewrite <- ?(assoc_L (++)).
Qed.

Lemma mountRoute_lookup_total versions perlRouteIDs disabledRouteIDs perlHandler
  authBase requestTimeout m (r : Route.t World) meth :
  mountRoute prec versions (GetRouteIDMap perlRouteIDs) (GetRouteIDMap disabledRouteIDs)
    perlHandler authBase requestTimeout m r !!! meth
  = m !!! meth ++
    (if decide (Route.Method r = meth)
     then (fun version =>
             PathHandler.mk (mountPath prec version r)
               (installedHandler perlRouteIDs disabledRouteIDs perlHandler authBase
                  requestTimeout r)) <$> routeVersions prec versions r
     else []).
Proof.
  rewrite mountRoute_foldl.
  rewrite <- (foldl_fmap (fun m ph => appendPath m (Route.Method r) ph)).
  apply foldl_appendPath_lookup_total.
Qed.

Lemma mountRoutes_lookup_total versions perlRouteIDs disabledRouteIDs perlHandler
  authBase requestTimeout m (rs : list (Route.t World)) meth :
  foldl (mountRoute prec versions (GetRouteIDMap perlRouteIDs)
           (GetRouteIDMap disabledRouteIDs) perlHandler authBase requestTimeout) m rs
    !!! meth
  = m !!! meth ++
    flat_map (routeEntries prec versions perlRouteIDs disabledRouteIDs perlHandler
                authBase requestTimeout)
      (filter (fun r => Route.Method r = meth) rs).
Proof.
  revert m. induction rs as [|r rs IH]; intros m; simpl.
  - by rewrite app_nil_r.
  - rewrite IH, mountRoute_lookup_total, filter_cons.
    case_decide; simpl; by rewrite <- ?(assoc_L (++)), ?app_nil_r.
Qed.

Lemma mountRawRoutes_lookup_total authBase requestTimeout m
  (rawRoutes : list (RawRoute.t World)) meth :
  foldl (mountRawRoute authBase requestTimeout) m rawRoutes !!! meth
  = m !!! meth ++
    (rawEntry authBase requestTimeout
       <$> filter (fun r => RawRoute.Method r = meth) rawRoutes).
Proof.
  revert m. induction rawRoutes as [|r rs IH]; intros m; simpl.
  - by rewrite app_nil_r.
  - rewrite IH. unfold mountRawRoute, rawEntry. rewrite appendPath_lookup_total, filter_cons.
    case_decide; simpl; by rewrite <- ?(assoc_L (++)), ?app_nil_r.
Qed.

(** The route table under a method: the entries of the routes of that
    method, route after route in the order of declaration, and for each
    route version after version in ascending order; then the raw routes of
    the method. *)
Lemma CreateRouteMap_lookup_total rs rawRoutes perlRouteIDs disabledRouteIDs
  perlHandler authBase reqTimeOutSeconds meth :
  (CreateRouteMap prec rs rawRoutes perlRouteIDs disabledRouteIDs perlHandler authBase
     reqTimeOutSeconds).1 !!! meth
  = flat_map (routeEntries prec (getSortedRouteVersions rs) perlRouteIDs
                disabledRouteIDs perlHandler authBase
                (effectiveTimeout reqTimeOutSeconds))
      (filter (fun r => Route.Method r = meth) rs)
    ++ (rawEntry authBase (effectiveTimeout reqTimeOutSeconds)
          <$> filter (fun r => RawRoute.Method r = meth) rawRoutes).
Proof.
  unfold CreateRouteMap, effectiveTimeout. cbn [fst].
  rewrite mountRawRoutes_lookup_total, mountRoutes_lookup_total.
  by rewrite lookup_total_empty.
Qed.

(** The version set holds the declared versions. *)
Lemma CreateRouteMap_versions rs rawRoutes perlRouteIDs disabledRouteIDs
  perlHandler authBase reqTimeOutSeconds v :
  v ∈ (CreateRouteMap prec rs rawRoutes perlRouteIDs disabledRouteIDs perlHandler authBase
         reqTimeOutSeconds).2
  <-> exists r, r ∈ rs /\ Route.Version r = v.
Proof.
  unfold CreateRouteMap. cbn [snd].
  rewrite <- elem_of_getSortedRouteVersions.
  generalize (getSortedRouteVersions rs) as vs. intros vs.
  assert (forall acc : gset Z,
    v ∈ foldl (fun s version => {[version]} ∪ s) acc vs <-> v ∈ acc \/ v ∈ vs) as Hfold.
  { induction vs as [|x vs IH]; intros acc; simpl.
    - rewrite elem_of_nil. tauto.
    - rewrite IH, elem_of_union, elem_of_singleton, elem_of_cons. tauto. }
  rewrite Hfold. split; [intros [H|H]; [by apply not_elem_of_empty in H|done]|by right].
Qed.

(** No method is a key of the table without an entry. *)
Lemma appendPath_nonempty m k ph :
  map_Forall (fun _ l => l <> []) m -> map_Forall (fun _ l => l <> []) (appendPath m k ph).
Proof.
  intros Hm. apply map_Forall_insert_2; [|done].
  by destruct (m !!! k).
Qed.

Lemma CreateRouteMap_nonempty rs rawRoutes perlRouteIDs disabledRouteIDs
  perlHandler authBase reqTimeOutSeconds :
  map_Forall (fun _ l => l <> [])
    (CreateRouteMap prec rs rawRoutes perlRouteIDs disabledRouteIDs perlHandler authBase
       reqTimeOutSeconds).1.
Proof.
  unfold CreateRouteMap. cbn [fst].
  assert (forall (A : Type) (f : gmap string (list (PathHandler.t World)) -> A -> _)
            (l : list A) m,
    (forall m a, map_Forall (fun _ l => l <> []) m -> map_Forall (fun _ l => l <> []) (f m a)) ->
    map_Forall (fun _ l => l <> []) m -> map_Forall (fun _ l => l <> []) (foldl f m l))
    as Hfold.
  { intros A f l. induction l as [|a l IH]; intros m Hf Hm; simpl; [done|].
    apply IH; [done|]. by apply Hf. }
  apply Hfold.
  { intros m r Hm. by apply appendPath_nonempty. }
  apply Hfold; [|apply map_Forall_empty].
  intros m r Hm. rewrite mountRoute_foldl.
  apply Hfold; [|done]. intros m' v Hm'. by apply appendPath_nonempty.
Qed.

(** The paths of the table under a method. *)
Lemma CreateRouteMap_paths rs rawRoutes perlRouteIDs disabledRouteIDs
  perlHandler authBase reqTimeOutSeconds meth :
  PathHandler.Path <$>
    ((CreateRouteMap prec rs rawRoutes perlRouteIDs disabledRouteIDs perlHandler
        authBase reqTimeOutSeconds).1 !!! meth)
  = flat_map (fun r => (fun v => mountPath prec v r)
                         <$> routeVersions prec (getSortedRouteVersions rs) r)
      (filter (fun r => Route.Method r = meth) rs)
    ++ (RawRoute.Path <$> filter (fun r => RawRoute.Method r = meth) rawRoutes).
Proof.
  rewrite CreateRouteMap_lookup_total, fmap_app. f_equal.
  - generalize (filter (fun r => Route.Method r = meth) rs) as l.
    induction l as [|r l IH]; simpl; [done|].
    rewrite fmap_app, IH. f_equal.
    unfold routeEntries. rewrite <- list_fmap_compose. done.
  - rewrite <- list_fmap_compose. done.
Qed.

End TableProperties.

(** ** Version propagation *)

Section Propagation.
Context {World : Type} {WR : Wrappers World}.
Variable prec : nat.

(** C1, amended.  Under a method the table has, route after route, one
    entry for every version of [routeVersions], at the path of that
    version; and a route [r] is mounted at [v] exactly when [v] is a version
    that some route declares, [Version r <= v], and [v] is below the bound
    that the code computes, [float64(int(Version r) + 1)].  The conversion
    to [int] cuts the version off toward zero, and the conversion back
    rounds to the 53 bits of a [float64]: for a version below 2^53 in
    absolute value the bound is the integer part of [Version r] plus one.
    With 1.1, 1.2, 1.3, 2.0 and 2.1 declared, the route declared at 1.2 is
    mounted at 1.2 and 1.3 and nowhere else. *)
Theorem CreateRouteMap_mounts_within_major
  (rs : list (Route.t World)) (rawRoutes : list (RawRoute.t World))
  (perlRouteIDs disabledRouteIDs : list Z) (perlHandler : HandlerFunc World)
  (authBase : AuthBase World) (reqTimeOutSeconds : Z) :
  let versions := getSortedRouteVersions rs in
  (forall meth,
     PathHandler.Path <$>
       ((CreateRouteMap prec rs rawRoutes perlRouteIDs disabledRouteIDs perlHandler
           authBase reqTimeOutSeconds).1 !!! meth)
     = flat_map (fun r => (fun v => mountPath prec v r) <$> routeVersions prec versions r)
         (filter (fun r => Route.Method r = meth) rs)
       ++ (RawRoute.Path <$> filter (fun r => RawRoute.Method r = meth) rawRoutes))
  /\ (forall (r : Route.t World) (v : Z),
        v ∈ routeVersions prec versions r
        <-> (exists r', r' ∈ rs /\ Route.Version r' = v)
            /\ Route.Version r <= v
            /\ v < Go_strconv.float64_of_int prec
                     (int64 (Go_strconv.int_of_float64 prec (Route.Version r) + 1)))
  /\ (forall (r : Route.t World) (v : Z),
        Go_strconv.exact prec (Route.Version r) ->
        v ∈ routeVersions prec versions r
        <-> (exists r', r' ∈ rs /\ Route.Version r' = v)
            /\ Route.Version r <= v
            /\ v < Go_strconv.of_int prec (Go_strconv.to_int prec (Route.Version r) + 1))
  /\ routeVersions 1
       (getSortedRouteVersions
          [Demo.route 11 "GET" "a" 1; Demo.route 12 "GET" "b" 2;
           Demo.route 13 "GET" "c" 3; Demo.route 20 "GET" "d" 4;
           Demo.route 21 "GET" "e" 5])
       (Demo.route 12 "GET" "b" 2)
     = [12; 13].
Proof.
  intros versions. split; [|split; [|split]].
  - intros meth. apply CreateRouteMap_paths.
  - intros r v. subst versions.
    rewrite routeVersions_filter by apply getSortedRouteVersions_sorted.
    rewrite !list_elem_of_filter, elem_of_getSortedRouteVersions. tauto.
  - intros r v Hr. subst versions.
    rewrite routeVersions_filter_exact
      by (done || apply getSortedRouteVersions_sorted).
    rewrite !list_elem_of_filter, elem_of_getSortedRouteVersions. tauto.
  - vm_compute. reflexivity.
Qed.

(** When the version of the route is not negative and below 2^53, the
    bound is the floor of the version plus one, as the claim words it. *)
Lemma routeVersions_floor (rs : list (Route.t World)) (r : Route.t World) (v : Z) :
  0 <= Route.Version r < 2 ^ 53 * Go_strconv.scale prec ->
  v ∈ routeVersions prec (getSortedRouteVersions rs) r
  <-> (exists r', r' ∈ rs /\ Route.Version r' = v)
      /\ Route.Version r <= v
      /\ v < Go_strconv.of_int prec (Go_strconv.floor prec (Route.Version r) + 1).
Proof.
  intros Hr. rewrite <- to_int_floor by lia.
  pose proof (scale_pos prec) as Hs.
  rewrite routeVersions_filter_exact
    by (apply getSortedRouteVersions_sorted || (unfold Go_strconv.exact; nia)).
  rewrite !list_elem_of_filter, elem_of_getSortedRouteVersions. tauto.
Qed.

End Propagation.

(** C1 as the claim words it fails in two places.  For a negative
    version: with the versions -0.5 and 0.5 declared, the route declared
    at -0.5 is mounted at 0.5, which is not below floor(-0.5) + 1 = 0.
    From 2^53 on: the route declared at 2^53 is not mounted at its own
    version, which is below floor(2^53) + 1; [int(2^53) + 1] is no
    [float64], and the conversion back gives 2^53, so that the loop ends
    at the first version it tries. *)
Lemma floor_plus_one_bound_fails :
  (let r := Demo.route (-5) "GET" "a" 1 in
   let rs := [r; Demo.route 5 "GET" "b" 2] in
   ~ (5 ∈ routeVersions 1 (getSortedRouteVersions rs) r
      <-> (exists r', r' ∈ rs /\ Route.Version r' = 5)
          /\ Route.Version r <= 5
          /\ 5 < Go_strconv.of_int 1 (Go_strconv.floor 1 (Route.Version r) + 1)))
  /\ (let v := Go_strconv.of_int 1 (2 ^ 53) in
      let r := Demo.route v "GET" "a" 1 in
      let rs := [r] in
      ~ (v ∈ routeVersions 1 (getSortedRouteVersions rs) r
         <-> (exists r', r' ∈ rs /\ Route.Version r' = v)
             /\ Route.Version r <= v
             /\ v < Go_strconv.of_int 1 (Go_strconv.floor 1 (Route.Version r) + 1))).
Proof.
  split.
  - intros r rs [Hin _].
    assert (routeVersions 1 (getSortedRouteVersions rs) r = [-5; 5]) as Hvs
      by (vm_compute; reflexivity).
    rewrite Hvs in Hin.
    destruct Hin as (_ & _ & Hlt); [set_solver|].
    vm_compute in Hlt. discriminate.
  - intros v r rs [_ Hin].
    assert (routeVersions 1 (getSortedRouteVersions rs) r = []) as Hvs
      by (vm_compute; reflexivity).
    rewrite Hvs in Hin. eapply not_elem_of_nil, Hin.
    split; [exists r; split; [apply list_elem_of_here|reflexivity]|].
    split; [apply Z.le_refl|]. vm_compute. reflexivity.
Qed.

(** ** The path of a mounted route *)

Section MountedPath.
Context {World : Type} {WR : Wrappers World}.
Variable prec : nat.




End MountedPath.

(** ** The handler of a mounted route *)

Section Classification.
Context {World : Type} {WR : Wrappers World}.
Variable prec : nat.




End Classification.

(** ** Dispatch *)

Section Dispatch.
Context {World : Type} {RL : RegexpLib} {SC : Strconv} {ST : Strings}
  {WR : Wrappers World}.
Implicit Types (cr : CompiledRoute.t World) (r : Request.t).

Lemma slice_from_1 (c : ascii) (s : string) :
  Go_strings.slice_from (String c s) 1 = Some s.
Proof.
  unfold Go_strings.slice_from, Go_strings.slice, Go_strings.len.
  cbn [String.length].
  rewrite !(proj2 (Z.leb_le _ _)) by lia. cbn [andb]. f_equal.
  replace (Z.to_nat (Z.of_nat (S (String.length s)) - 1)) with (String.length s) by lia.
  change (Z.to_nat 1) with 1%nat. cbn [substring].
  induction s as [|a s IH]; [done|]. cbn [substring String.length]. by rewrite IH.
Qed.

Lemma slice_from_1_empty : Go_strings.slice_from "" 1 = None.
Proof. done. Qed.

(** The loop passes over the routes that do not match. *)
Lemma tryRoutes_skip (pre l : list (CompiledRoute.t World)) requested ctx r :
  Forall (fun cr => FindStringSubmatch (CompiledRoute.Regex cr) requested = []) pre ->
  tryRoutes (pre ++ l) requested ctx r = tryRoutes l requested ctx r.
Proof.
  induction 1 as [|cr pre Hcr _ IH]; [done|].
  cbn [app tryRoutes]. by rewrite Hcr.
Qed.

Lemma tryRoutes_none (l : list (CompiledRoute.t World)) requested ctx r :
  Forall (fun cr => FindStringSubmatch (CompiledRoute.Regex cr) requested = []) l ->
  tryRoutes l requested ctx r = None.
Proof. intros H. rewrite <- (app_nil_r l). by rewrite tryRoutes_skip. Qed.

(** With a submatch for every name, the binding does not panic. *)
Lemma bindParams_is_Some (names : list string) (i : nat) (matched : list string)
  (params : gmap string string) :
  (length names + i < length matched)%nat ->
  is_Some (bindParams names i matched params).
Proof.
  revert i params. induction names as [|v names IH]; intros i params Hlen; simpl.
  - by eexists.
  - destruct (lookup_lt_is_Some_2 matched (S i)) as [x Hx]; [simpl in Hlen; lia|].
    rewrite Hx. apply IH. simpl in Hlen. lia.
Qed.

(** The first route that matches takes the request. *)
Lemma tryRoutes_first (pre post : list (CompiledRoute.t World)) cr requested ctx r :
  Forall (fun cr => FindStringSubmatch (CompiledRoute.Regex cr) requested = []) pre ->
  routeMatches cr requested ->
  (length (CompiledRoute.Params cr)
   < length (FindStringSubmatch (CompiledRoute.Regex cr) requested))%nat ->
  exists params,
    bindParams (CompiledRoute.Params cr) 0
      (FindStringSubmatch (CompiledRoute.Regex cr) requested) ∅ = Some params
    /\ tryRoutes (pre ++ cr :: post) requested ctx r
       = Some (ServeHandler (CompiledRoute.Handler cr)
                 (Request.WithContext r
                    (WithValue ctx PathParamsKey (PathParamsValue params)))).
Proof.
  intros Hpre Hm Hlen.
  destruct (bindParams_is_Some (CompiledRoute.Params cr) 0
              (FindStringSubmatch (CompiledRoute.Regex cr) requested) ∅)
    as [params Hp]; [lia|].
  exists params. split; [done|].
  rewrite tryRoutes_skip by done. cbn [tryRoutes].
  unfold routeMatches in Hm.
  destruct (FindStringSubmatch (CompiledRoute.Regex cr) requested) as [|x m] eqn:Hf;
    [done|].
  cbn [length Nat.eqb]. by rewrite Hp.
Qed.

(** [Handler] when the hook passes the request on and the method has
    routes. *)
Lemma Handler_routes routes versions catchall db cfg reqID plugins r c requested mRoutes :
  plugin.OnRequest plugins (hookData db cfg reqID r) = false ->
  Request.URL_Path r = String c requested ->
  routes !! Request.Method r = Some mRoutes ->
  Handler routes versions catchall db cfg reqID plugins r
  = match tryRoutes mRoutes requested (baseContext db cfg reqID r) r with
    | Some served => served
    | None =>
        if IsRequestAPIAndUnknownVersion r versions then
          match Secrets cfg !! 0%nat with
          | Some secret0 => ServeHandler (wrapAccessLog secret0 NotImplementedHandler) r
          | None => HandlerPanic IndexRange
          end
        else ServeCatchall r
    end.
Proof.
  intros Hhook Hpath Hroutes. unfold Handler.
  change (plugin.OnRequest plugins _) with (plugin.OnRequest plugins (hookData db cfg reqID r)).
  rewrite Hhook, Hpath, slice_from_1, Hroutes. done.
Qed.

(** A method without routes goes to the catch-all. *)
Lemma Handler_no_routes routes versions catchall db cfg reqID plugins r c requested :
  plugin.OnRequest plugins (hookData db cfg reqID r) = false ->
  Request.URL_Path r = String c requested ->
  routes !! Request.Method r = None ->
  Handler routes versions catchall db cfg reqID plugins r = ServeCatchall r.
Proof.
  intros Hhook Hpath Hroutes. unfold Handler.
  change (plugin.OnRequest plugins _) with (plugin.OnRequest plugins (hookData db cfg reqID r)).
  rewrite Hhook, Hpath, slice_from_1, Hroutes. done.
Qed.

End Dispatch.

Section FirstMatch.
Context {World : Type} {RL : RegexpLib} {SC : Strconv} {ST : Strings}
  {WR : Wrappers World}.

(** C2. For a request that the plugin hook passes on and whose method has
    compiled routes, the routes are tried in the order of the list: when
    none of the routes before [cr] matches the requested path and [cr]
    does, the handler of [cr] is invoked, on the request carrying the
    parameters bound from the match of [cr].  When two routes [c1] and
    [c2] both match, the list [c1; c2] invokes the handler of [c1] and the
    list [c2; c1] the handler of [c2]. *)
Theorem first_match_wins
  (routes : gmap string (list (CompiledRoute.t World))) (versions : gset Z)
  (catchall : HandlerFunc World) (db : Z) (cfg : Config) (reqID : Z)
  (plugins : plugin.Plugins) (r : Request.t) (c : ascii) (requested : string) :
  plugin.OnRequest plugins (hookData db cfg reqID r) = false ->
  Request.URL_Path r = String c requested ->
  (forall pre cr post,
     routes !! Request.Method r = Some (pre ++ cr :: post) ->
     Forall (fun cr' => ~ routeMatches cr' requested) pre ->
     routeMatches cr requested ->
     (length (CompiledRoute.Params cr)
      < length (FindStringSubmatch (CompiledRoute.Regex cr) requested))%nat ->
     exists params,
       bindParams (CompiledRoute.Params cr) 0
         (FindStringSubmatch (CompiledRoute.Regex cr) requested) ∅ = Some params
       /\ Handler routes versions catchall db cfg reqID plugins r
          = ServeHandler (CompiledRoute.Handler cr) (routedRequest db cfg reqID r params))
  /\ (forall c1 c2,
        routeMatches c1 requested ->
        routeMatches c2 requested ->
        (length (CompiledRoute.Params c1)
         < length (FindStringSubmatch (CompiledRoute.Regex c1) requested))%nat ->
        (length (CompiledRoute.Params c2)
         < length (FindStringSubmatch (CompiledRoute.Regex c2) requested))%nat ->
        (exists p1,
           bindParams (CompiledRoute.Params c1) 0
             (FindStringSubmatch (CompiledRoute.Regex c1) requested) ∅ = Some p1
           /\ Handler (<[Request.Method r := [c1; c2]]> routes) versions catchall db cfg
                reqID plugins r
              = ServeHandler (CompiledRoute.Handler c1) (routedRequest db cfg reqID r p1))
        /\ (exists p2,
              bindParams (CompiledRoute.Params c2) 0
                (FindStringSubmatch (CompiledRoute.Regex c2) requested) ∅ = Some p2
              /\ Handler (<[Request.Method r := [c2; c1]]> routes) versions catchall db
                   cfg reqID plugins r
                 = ServeHandler (CompiledRoute.Handler c2)
                     (routedRequest db cfg reqID r p2))).
Proof.
  intros Hhook Hpath.
  assert (forall routes' pre cr post,
    routes' !! Request.Method r = Some (pre ++ cr :: post) ->
    Forall (fun cr' => ~ routeMatches cr' requested) pre ->
    routeMatches cr requested ->
    (length (CompiledRoute.Params cr)
     < length (FindStringSubmatch (CompiledRoute.Regex cr) requested))%nat ->
    exists params,
      bindParams (CompiledRoute.Params cr) 0
        (FindStringSubmatch (CompiledRoute.Regex cr) requested) ∅ = Some params
      /\ Handler routes' versions catchall db cfg reqID plugins r
         = ServeHandler (CompiledRoute.Handler cr) (routedRequest db cfg reqID r params))
    as Hfirst.
  { intros routes' pre cr post Hroutes Hpre Hm Hlen.
    assert (Forall (fun cr' => FindStringSubmatch (CompiledRoute.Regex cr') requested = [])
              pre) as Hpre'.
    { eapply Forall_impl; [exact Hpre|]. intros cr' Hn. unfold routeMatches in Hn.
      by destruct (decide (FindStringSubmatch (CompiledRoute.Regex cr') requested = [])). }
    destruct (tryRoutes_first pre post cr requested (baseContext db cfg reqID r) r
                Hpre' Hm Hlen) as (params & Hp & Htry).
    exists params. split; [done|].
    by rewrite (Handler_routes _ _ _ _ _ _ _ _ _ _ _ Hhook Hpath Hroutes), Htry. }
  split; [by apply Hfirst|].
  intros c1 c2 Hm1 Hm2 Hl1 Hl2. split.
  - apply (Hfirst _ [] c1 [c2]); [by rewrite lookup_insert_eq|done..].
  - apply (Hfirst _ [] c2 [c1]); [by rewrite lookup_insert_eq|done..].
Qed.

End FirstMatch.

(** C2 on an example.  Two routes that both match
    [api/1.1/servers/status]: the one listed first takes the request. *)
Lemma first_match_wins_witness :
  let c1 := Demo.compiled "^api/1.1/servers/([^/]+)" "by id" ["id"] in
  let c2 := Demo.compiled "^api/1.1/servers/status" "status" [] in
  let r := Demo.request "GET" "/api/1.1/servers/status" in
  plugin.OnRequest Demo.plugins (hookData 0 Demo.cfg 1 r) = false
  /\ Request.URL_Path r = String "/" "api/1.1/servers/status"
  /\ routeMatches c1 "api/1.1/servers/status"
  /\ routeMatches c2 "api/1.1/servers/status"
  /\ Handler (RL := Go_regexp.lib) (SC := Demo.strconv) (WR := Demo.wrappers)
       {["GET" := [c1; c2]]} ∅ Demo.catchall 0 Demo.cfg 1 Demo.plugins r
     = ServeHandler (say "by id") (routedRequest 0 Demo.cfg 1 r {["id" := "status"]})
  /\ Handler (RL := Go_regexp.lib) (SC := Demo.strconv) (WR := Demo.wrappers)
       {["GET" := [c2; c1]]} ∅ Demo.catchall 0 Demo.cfg 1 Demo.plugins r
     = ServeHandler (say "status") (routedRequest 0 Demo.cfg 1 r ∅).
Proof.
  intros c1 c2 r.
  assert (plugin.OnRequest Demo.plugins (hookData 0 Demo.cfg 1 r) = false) as Hhook
    by reflexivity.
  assert (Request.URL_Path r = String "/" "api/1.1/servers/status") as Hpath
    by reflexivity.
  assert (FindStringSubmatch (CompiledRoute.Regex c1) "api/1.1/servers/status"
          = ["api/1.1/servers/status"; "status"]) as Hf1 by (vm_compute; reflexivity).
  assert (FindStringSubmatch (CompiledRoute.Regex c2) "api/1.1/servers/status"
          = ["api/1.1/servers/status"]) as Hf2 by (vm_compute; reflexivity).
  assert (routeMatches c1 "api/1.1/servers/status") as Hm1
    by (unfold routeMatches; rewrite Hf1; discriminate).
  assert (routeMatches c2 "api/1.1/servers/status") as Hm2
    by (unfold routeMatches; rewrite Hf2; discriminate).
  destruct (first_match_wins (RL := Go_regexp.lib) (SC := Demo.strconv)
              (WR := Demo.wrappers) ∅ ∅ Demo.catchall 0 Demo.cfg 1 Demo.plugins r
              "/" "api/1.1/servers/status" Hhook Hpath) as [_ Hswap].
  destruct (Hswap c1 c2 Hm1 Hm2) as [(p1 & Hb1 & H1) (p2 & Hb2 & H2)];
    [rewrite ?Hf1, ?Hf2; simpl; lia..|].
  rewrite Hf1 in Hb1. rewrite Hf2 in Hb2.
  injection Hb1 as <-. injection Hb2 as <-.
  split; [exact Hhook|]. split; [exact Hpath|]. split; [exact Hm1|].
  split; [exact Hm2|]. split; [exact H1|exact H2].
Defined.

(** ** Requests that no route takes *)

Section UnknownVersion.
Context {World : Type} {RL : RegexpLib} {SC : Strconv} {ST : Strings}
  {WR : Wrappers World}.



End UnknownVersion.

(** Closed goals are settled by evaluation in the kernel's virtual
    machine, without writing out the values. *)
Ltac by_computation :=
  lazymatch goal with
  | |- ?a = ?b => vm_cast_no_check (@eq_refl _ b)
  | |- Is_true _ => vm_cast_no_check I
  end.


(** ** The path compiler *)

Section TemplateFacts.
Import Go_strings.

Lemma count_char_append (c : ascii) (s t : string) :
  count_char c (s +:+ t) = (count_char c s + count_char c t)%nat.
Proof. induction s as [|a s IH]; simpl; [done|]. rewrite IH. lia. Qed.

Lemma count_char_length (c : ascii) (s : string) :
  (count_char c s <= String.length s)%nat.
Proof. induction s as [|a s IH]; simpl; [done|]. destruct (Ascii.eqb a c); lia. Qed.

Lemma count_char_absent (c : ascii) (s : string) :
  Index s c = -1 <-> count_char c s = 0%nat.
Proof.
  induction s as [|a s IH]; simpl; [done|].
  destruct (Ascii.eqb a c); [split; [lia|done]|].
  destruct (Z.ltb_spec (Index s c) 0) as [Hlt|Hge].
  - destruct (Index_range s c) as [Hi|?]; [|lia]. rewrite <- IH. tauto.
  - destruct (Index_range s c) as [Hi|?]; [lia|].
    split; [lia|]. intros Hc. apply IH in Hc. lia.
Qed.

(** The shape of a route in a round of the loop that does not panic. *)
Lemma round_shape (route param before after : string) :
  0 < Index route "{" ->
  slice route (Index route "{" + 1) (Index route "}") = Some param ->
  slice_to route (Index route "{") = Some before ->
  slice_from route (Index route "}" + 1) = Some after ->
  route = before +:+ String "{" (param +:+ String "}" after)
  /\ Index before "{" = -1
  /\ 0 < len before
  /\ Index (before +:+ String "{" param) "}" = -1.
Proof.
  intros Hopen Hparam Hbefore Hafter.
  destruct (Index_split route "{") as (pre & post & Hroute & Hpre & Hno); [lia|].
  assert (before = pre) as ->.
  { rewrite Hroute in Hbefore at 1. rewrite <- Hpre, slice_to_append in Hbefore.
    by injection Hbefore. }
  destruct (slice_split _ _ _ _ Hparam) as (a & b & _ & Ha & Hlen).
  pose proof (len_nonneg param) as Hp.
  destruct (Index_split route "}") as (pre2 & post2 & Hroute2 & Hpre2 & Hno2); [lia|].
  assert (after = post2) as ->.
  { rewrite Hroute2 in Hafter at 1.
    change (pre2 +:+ String "}" post2) with (pre2 +:+ "}" +:+ post2) in Hafter.
    rewrite <- append_assoc in Hafter.
    replace (Index route "}" + 1) with (len (pre2 +:+ "}")) in Hafter
      by (rewrite len_append, Hpre2; reflexivity).
    rewrite slice_from_append in Hafter. by injection Hafter. }
  assert (pre +:+ String "{" post = pre2 +:+ String "}" post2) as Heq by congruence.
  destruct (append_eq_split _ _ _ _ Heq) as (m & Hpre2m & Hpost).
  { unfold len in *. lia. }
  destruct m as [|x m].
  { rewrite append_nil_r in Hpre2m. subst pre2. lia. }
  simpl in Hpost. injection Hpost as <- Hpost.
  assert (param = m) as ->.
  { rewrite Hroute, Hpost in Hparam at 1.
    change (pre +:+ String "{" (m +:+ String "}" post2))
      with (pre +:+ "{" +:+ m +:+ String "}" post2) in Hparam.
    rewrite <- append_assoc in Hparam.
    replace (Index route "{" + 1) with (len (pre +:+ "{")) in Hparam
      by (rewrite len_append, Hpre; reflexivity).
    replace (Index route "}") with (len (pre +:+ "{") + len m) in Hparam.
    - rewrite slice_append in Hparam. by injection Hparam.
    - rewrite <- Hpre2, Hpre2m, !len_append, !len_String. change (len "") with 0. lia. }
  split; [by rewrite Hroute, Hpost|]. split; [done|]. split; [lia|].
  by rewrite <- Hpre2m.
Qed.

(** Without an opening brace past the first byte the loop does not run. *)
Lemma compileTemplate_done (fuel : nat) (route : string) (params : list string) :
  Index route "{" <= 0 -> compileTemplate fuel route params = Ok (route, params).
Proof.
  intros Hle. destruct fuel; cbn [compileTemplate];
    by rewrite Z.gtb_ltb, (proj2 (Z.ltb_ge _ _)).
Qed.

(** One round of the loop. *)
Lemma compileTemplate_round (fuel : nat) (route : string) (params : list string) :
  0 < Index route "{" ->
  compileTemplate (S fuel) route params
  = if Index route "}" <? 0 then Panicked MalformedRoute
    else match slice route (Index route "{" + 1) (Index route "}") with
         | None => Panicked SliceBounds
         | Some param =>
             match slice_to route (Index route "{"),
                   slice_from route (Index route "}" + 1) with
             | Some before, Some after =>
                 compileTemplate fuel (before +:+ "([^/]+)" +:+ after) (params ++ [param])
             | _, _ => Panicked SliceBounds
             end
         end.
Proof.
  intros Hlt. cbn [compileTemplate].
  by rewrite Z.gtb_ltb, (proj2 (Z.ltb_lt _ _)).
Qed.

(** A round removes an opening brace. *)
Lemma round_count (route param before after : string) :
  0 < Index route "{" ->
  slice route (Index route "{" + 1) (Index route "}") = Some param ->
  slice_to route (Index route "{") = Some before ->
  slice_from route (Index route "}" + 1) = Some after ->
  (count_char "{" (before +:+ "([^/]+)" +:+ after) < count_char "{" route)%nat.
Proof.
  intros Hopen Hparam Hbefore Hafter.
  destruct (round_shape _ _ _ _ Hopen Hparam Hbefore Hafter) as (Hroute & Hno & _ & _).
  rewrite Hroute. apply count_char_absent in Hno.
  rewrite !count_char_append, Hno. simpl. rewrite count_char_append. simpl. lia.
Qed.

(** The loop ends within as many rounds as the route has opening braces,
    and more fuel does not change what it returns. *)
Lemma compileTemplate_fuel (fuel1 fuel2 : nat) (route : string) (params : list string) :
  (count_char "{" route <= fuel1)%nat ->
  (count_char "{" route <= fuel2)%nat ->
  compileTemplate fuel1 route params = compileTemplate fuel2 route params
  /\ compileTemplate fuel1 route params <> OutOfFuel.
Proof.
  revert fuel2 route params.
  induction fuel1 as [|fuel1 IH]; intros fuel2 route params H1 H2.
  - assert (Index route "{" = -1) as Hno by (apply count_char_absent; lia).
    rewrite !compileTemplate_done by lia. done.
  - destruct (Z.lt_ge_cases 0 (Index route "{")) as [Hlt|Hge].
    + assert (count_char "{" route <> 0)%nat as Hc.
      { intros Hc. apply count_char_absent in Hc. lia. }
      destruct fuel2 as [|fuel2]; [lia|].
      rewrite !compileTemplate_round by done.
      destruct (Index route "}" <? 0); [done|].
      destruct (slice route _ _) as [param|] eqn:Hparam; [|done].
      destruct (slice_to route _) as [before|] eqn:Hbefore; [|done].
      destruct (slice_from route _) as [after|] eqn:Hafter; [|done].
      pose proof (round_count _ _ _ _ Hlt Hparam Hbefore Hafter).
      apply IH; lia.
    + rewrite !compileTemplate_done by lia. done.
Qed.

(** The fuel that [compileRoute] gives is enough. *)
Lemma compileTemplate_length_fuel (route : string) (params : list string) :
  compileTemplate (String.length route) route params <> OutOfFuel.
Proof.
  pose proof (count_char_length "{" route).
  by apply (compileTemplate_fuel _ (String.length route)).
Qed.

Lemma Index_contains (pre post : string) (c : ascii) :
  0 <= Index (pre +:+ String c post) c.
Proof.
  destruct (Index_range pre c) as [Hno|Hin].
  - rewrite Index_append_absent by done. simpl. rewrite Ascii.eqb_refl. simpl.
    pose proof (len_nonneg pre). lia.
  - rewrite Index_append_present; lia.
Qed.

(** A route with an opening brace, none of them at its start, and no
    closing brace after the last one does not come out of the loop. *)
Lemma compileTemplate_unclosed (fuel : nat) (route : string) (params : list string) :
  unclosed route ->
  Index route "{" <> 0 ->
  forall x, compileTemplate fuel route params <> Ok x.
Proof.
  revert route params. induction fuel as [|fuel IH]; intros route params Hun Hhead x.
  - destruct Hun as (pre & post & -> & _).
    pose proof (Index_contains pre post "{"). cbn [compileTemplate].
    rewrite Z.gtb_ltb, (proj2 (Z.ltb_lt _ _)) by lia. done.
  - assert (0 < Index route "{") as Hopen.
    { destruct Hun as (pre & post & -> & _).
      pose proof (Index_contains pre post "{"). lia. }
    rewrite compileTemplate_round by done.
    destruct (Index route "}" <? 0); [done|].
    destruct (slice route _ _) as [param|] eqn:Hparam; [|done].
    destruct (slice_to route _) as [before|] eqn:Hbefore; [|done].
    destruct (slice_from route _) as [after|] eqn:Hafter; [|done].
    destruct (round_shape _ _ _ _ Hopen Hparam Hbefore Hafter)
      as (Hroute & Hno & Hlen & Hnoclose).
    apply IH.
    + destruct Hun as (pre & post & Hpre & Hpost).
      assert ((before +:+ String "{" param) +:+ String "}" after = pre +:+ String "{" post)
        as Heq.
      { rewrite <- Hpre, Hroute, append_assoc. done. }
      destruct (Nat.le_gt_cases (String.length pre)
                  (String.length (before +:+ String "{" param))) as [Hle|Hgt].
      * symmetry in Heq.
        destruct (append_eq_split _ _ _ _ Heq Hle) as (m & Hm & Hpost').
        destruct m as [|y m]; simpl in Hpost'; [discriminate|].
        injection Hpost' as <- Hpost'.
        pose proof (Index_contains m after "}") as Hc. rewrite <- Hpost' in Hc. lia.
      * destruct (append_eq_split ((before +:+ String "{" param) +:+ "}") after pre
                    (String "{" post)) as (m & Hm & Hafter').
        { rewrite <- Heq, append_assoc. done. }
        { rewrite length_append. simpl. lia. }
        exists (before +:+ "([^/]+)" +:+ m), post. split; [|done].
        rewrite Hafter', !append_assoc. done.
    + destruct before as [|a before]; [unfold len in Hlen; simpl in Hlen; lia|].
      simpl. intros Hzero.
      assert (Index (String a before) "{" = 0) as Hz.
      { apply Index_head. by apply (Index_head a _ "{") in Hzero. }
      lia.
Qed.

Lemma brace_free_append (a b : string) :
  brace_free a -> brace_free b -> brace_free (a +:+ b).
Proof.
  intros [Ha1 Ha2] [Hb1 Hb2]. split; rewrite Index_append_absent by done.
  - by rewrite Hb1.
  - by rewrite Hb2.
Qed.

Lemma names_length_render (t : list piece) :
  (length (names t) <= String.length (render t))%nat.
Proof.
  induction t as [|[s|name] t IH]; simpl; [done| |].
  - rewrite length_append. lia.
  - rewrite length_append. simpl. lia.
Qed.

(** The loop on a template of brace-free text and placeholders, after a
    brace-free prefix that is not empty: every placeholder becomes the
    group [([^/]+)] and the names are collected in order. *)
Lemma compileTemplate_template (t : list piece) (prefix : string)
  (params : list string) (fuel : nat) :
  Forall piece_brace_free t ->
  brace_free prefix ->
  prefix <> "" ->
  (length (names t) <= fuel)%nat ->
  compileTemplate fuel (prefix +:+ render t) params
  = Ok (prefix +:+ pattern t, params ++ names t).
Proof.
  intros Ht. revert prefix params fuel.
  induction Ht as [|[s|name] t Hp Ht IH]; intros prefix params fuel Hprefix Hne Hfuel.
  - simpl. rewrite !append_nil_r, app_nil_r. apply compileTemplate_done.
    destruct Hprefix as [-> _]. lia.
  - simpl. rewrite <- !append_assoc. apply IH; [|by destruct prefix|done].
    by apply brace_free_append.
  - simpl in Hfuel. destruct fuel as [|fuel]; [lia|].
    destruct Hprefix as [Hpo Hpc]. destruct Hp as [Hno Hnc].
    assert (0 < len prefix) as Hlen.
    { destruct prefix as [|a p]; [done|]. rewrite len_String. pose proof (len_nonneg p). lia. }
    set (route := prefix +:+ render (Placeholder name :: t)).
    assert (route = prefix +:+ String "{" (name +:+ String "}" (render t))) as Hroute
      by done.
    assert (Index route "{" = len prefix) as Hopen.
    { rewrite Hroute, Index_append_absent by done. simpl. lia. }
    assert (Index (prefix +:+ String "{" name) "}" = -1) as Hblock.
    { rewrite Index_append_absent by done. simpl. by rewrite Hnc. }
    assert (Index route "}" = len prefix + 1 + len name) as Hclose.
    { rewrite Hroute.
      change (prefix +:+ String "{" (name +:+ String "}" (render t)))
        with (prefix +:+ String "{" name +:+ String "}" (render t)).
      replace (prefix +:+ String "{" name +:+ String "}" (render t))
        with ((prefix +:+ String "{" name) +:+ String "}" (render t))
        by (by rewrite append_assoc).
      rewrite Index_append_absent by done. simpl.
      rewrite len_append, len_String. lia. }
    rewrite compileTemplate_round by lia.
    pose proof (len_nonneg name) as Hname.
    rewrite Hopen, Hclose, (proj2 (Z.ltb_ge _ _)) by lia.
    assert (slice route (len prefix + 1) (len prefix + 1 + len name) = Some name) as ->.
    { rewrite Hroute.
      replace (prefix +:+ String "{" (name +:+ String "}" (render t)))
        with ((prefix +:+ "{") +:+ name +:+ String "}" (render t))
        by (by rewrite append_assoc).
      replace (len prefix + 1) with (len (prefix +:+ "{"))
        by (rewrite len_append; reflexivity).
      apply slice_append. }
    assert (slice_to route (len prefix) = Some prefix) as ->
      by (rewrite Hroute; apply slice_to_append).
    assert (slice_from route (len prefix + 1 + len name + 1) = Some (render t)) as ->.
    { rewrite Hroute.
      replace (prefix +:+ String "{" (name +:+ String "}" (render t)))
        with ((prefix +:+ String "{" (name +:+ "}")) +:+ render t)
        by (rewrite !append_assoc; simpl; by rewrite append_assoc).
      replace (len prefix + 1 + len name + 1)
        with (len (prefix +:+ String "{" (name +:+ "}"))).
      - apply slice_from_append.
      - rewrite len_append, len_String, len_append. change (len "}") with 1. lia. }
    rewrite <- append_assoc, IH; [| |by destruct prefix|lia].
    + by rewrite append_assoc, <- (assoc_L (++)).
    + apply brace_free_append; [done|]. by split.
Qed.

End TemplateFacts.

Section CompilerProperties.
Context {World : Type} {RL : RegexpLib}.
Implicit Types (ph : PathHandler.t World) (l : list (PathHandler.t World)).

Lemma compileRoute_fuel ph : compileRoute ph <> OutOfFuel.
Proof.
  unfold compileRoute.
  pose proof (compileTemplate_length_fuel (PathHandler.Path ph) []) as Hf.
  destruct (compileTemplate _ _ _) as [[route params]| |]; [|done..].
  by destruct (MustCompile route).
Qed.

Lemma compileAll_fuel l : compileAll l <> OutOfFuel.
Proof.
  induction l as [|ph l IH]; simpl; [done|].
  pose proof (compileRoute_fuel ph).
  destruct (compileRoute ph); [|done..]. by destruct (compileAll l).
Qed.

(** A route that starts with an opening brace is handed to the regexp
    compiler as it is, with no parameter name. *)
Lemma compileRoute_leading_brace (rest : string) (h : HandlerFunc World) :
  compileRoute (PathHandler.mk (String "{" rest) h)
  = match MustCompile (String "{" rest) with
    | Some regex => Ok (CompiledRoute.mk h regex [])
    | None => Panicked RegexpError
    end.
Proof.
  unfold compileRoute. cbn [PathHandler.Path PathHandler.Handler].
  rewrite compileTemplate_done; [done|].
  by rewrite (proj2 (Index_head "{" rest "{")).
Qed.

(** The route of a template of brace-free text and placeholders after a
    brace-free prefix that is not empty: the pattern has the group
    [([^/]+)] in the place of every placeholder, and the parameter names
    are the names of the placeholders in order. *)
Lemma compileRoute_template (prefix : string) (t : list piece) (h : HandlerFunc World) :
  Forall piece_brace_free t ->
  brace_free prefix ->
  prefix <> "" ->
  compileRoute (PathHandler.mk (prefix +:+ render t) h)
  = match MustCompile (prefix +:+ pattern t) with
    | Some regex => Ok (CompiledRoute.mk h regex (names t))
    | None => Panicked RegexpError
    end.
Proof.
  intros Ht Hprefix Hne. unfold compileRoute. cbn [PathHandler.Path PathHandler.Handler].
  rewrite compileTemplate_template; [done..|].
  rewrite length_append. pose proof (names_length_render t). lia.
Qed.

(** A route with an opening brace that is never closed, which does not
    start with a brace, makes [compileRoute] panic. *)
Lemma compileRoute_unclosed ph :
  unclosed (PathHandler.Path ph) ->
  Go_strings.Index (PathHandler.Path ph) "{" <> 0 ->
  compileRoute ph = Panicked MalformedRoute \/ compileRoute ph = Panicked SliceBounds.
Proof.
  intros Hun Hhead. unfold compileRoute.
  pose proof (compileTemplate_length_fuel (PathHandler.Path ph) []) as Hf.
  pose proof (compileTemplate_unclosed (String.length (PathHandler.Path ph))
                (PathHandler.Path ph) [] Hun Hhead) as Hno.
  assert (forall fuel route params,
    compileTemplate fuel route params <> Panicked IndexRange
    /\ compileTemplate fuel route params <> Panicked RegexpError) as Hkind.
  { induction fuel as [|fuel IH]; intros route params.
    - cbn [compileTemplate]. by destruct (_ >? 0).
    - cbn [compileTemplate]. destruct (_ >? 0); [|done].
      destruct (_ <? 0); [done|].
      destruct (Go_strings.slice route _ _); [|done].
      destruct (Go_strings.slice_to route _); [|done].
      destruct (Go_strings.slice_from route _); [|done]. apply IH. }
  destruct (Hkind (String.length (PathHandler.Path ph)) (PathHandler.Path ph) [])
    as [Hk1 Hk2].
  destruct (compileTemplate _ _ _) as [x|[]|]; try done; [by destruct (Hno x)|tauto..].
Qed.

Lemma compileAll_panics l ph p :
  ph ∈ l -> compileRoute ph = Panicked p -> compiled_ok (compileAll l) = false.
Proof.
  intros Hin Hp. induction l as [|ph' l IH]; [by apply elem_of_nil in Hin|].
  simpl. apply elem_of_cons in Hin as [<-|Hin].
  - by rewrite Hp.
  - destruct (compileRoute ph'); [|done..].
    specialize (IH Hin). by destruct (compileAll l).
Qed.

(** One route that panics makes [CompileRoutes] panic. *)
Lemma CompileRoutes_panics (routes : gmap string (list (PathHandler.t World)))
  (meth : string) l ph p :
  routes !! meth = Some l ->
  ph ∈ l ->
  compileRoute ph = Panicked p ->
  CompileRoutes routes = None.
Proof.
  intros Hl Hin Hp. unfold CompileRoutes.
  destruct (forallb _ _) eqn:Hall; [|done].
  rewrite forallb_forall in Hall.
  assert (compiled_ok (compileAll l) = true) as Hok.
  { apply (Hall (meth, compileAll l)), list_elem_of_In, elem_of_map_to_list.
    by rewrite lookup_fmap, Hl. }
  by rewrite (compileAll_panics l ph p Hin Hp) in Hok.
Qed.

(** [CompileRoutes] returns a table exactly when every list compiles. *)
Lemma CompileRoutes_is_Some (routes : gmap string (list (PathHandler.t World))) :
  is_Some (CompileRoutes routes)
  <-> forall meth l, routes !! meth = Some l -> compiled_ok (compileAll l) = true.
Proof.
  unfold CompileRoutes. destruct (forallb _ _) eqn:Hall.
  - split; [|by eexists]. intros _ meth l Hl.
    rewrite forallb_forall in Hall.
    apply (Hall (meth, compileAll l)), list_elem_of_In, elem_of_map_to_list.
    by rewrite lookup_fmap, Hl.
  - split; [by intros [? ?]|]. intros Hok.
    assert (forallb (fun mc => compiled_ok mc.2) (map_to_list (compileAll <$> routes))
            = true) as Habs; [|congruence].
    apply forallb_forall. intros [meth c] Hin.
    apply list_elem_of_In, elem_of_map_to_list in Hin.
    rewrite lookup_fmap in Hin.
    destruct (routes !! meth) as [l|] eqn:Hl; [|done].
    injection Hin as <-. by apply (Hok meth).
Qed.

End CompilerProperties.

(** ** Malformed templates stop the start-up *)

Section Startup.
Context {World : Type} {RL : RegexpLib} {SC : Strconv} {ST : Strings}
  {WR : Wrappers World}.
Variable prec : nat.

(** Every version is below its integer part plus one. *)
Lemma next_major_gt (v : Z) :
  v < Go_strconv.of_int prec (Go_strconv.to_int prec v + 1).
Proof.
  pose proof (scale_pos prec) as Hs.
  unfold Go_strconv.of_int, Go_strconv.to_int.
  pose proof (Z.quot_rem' v (Go_strconv.scale prec)) as Hqr.
  destruct (Z.le_gt_cases 0 v) as [Hv|Hv].
  - pose proof (Z.rem_bound_pos v (Go_strconv.scale prec) Hv Hs). nia.
  - pose proof (Z.rem_bound_pos_neg v (Go_strconv.scale prec) Hs ltac:(lia)). nia.
Qed.

(** A declared route is mounted at its own version, when that is below
    2^53.  From 2^53 on it is not: [float64(int(v) + 1)] is then [v] or
    less, and the loop ends at the first version. *)
Lemma routeVersions_own (rs : list (Route.t World)) (r : Route.t World) :
  r ∈ rs -> Go_strconv.exact prec (Route.Version r) ->
  Route.Version r ∈ routeVersions prec (getSortedRouteVersions rs) r.
Proof.
  intros Hr Hv.
  rewrite routeVersions_filter_exact by (done || apply getSortedRouteVersions_sorted).
  rewrite !list_elem_of_filter, elem_of_getSortedRouteVersions.
  split; [apply next_major_gt|]. split; [lia|]. by exists r.
Qed.

Lemma lookup_of_total {A} (m : gmap string (list A)) (k : string) (x : A) :
  x ∈ m !!! k -> m !! k = Some (m !!! k).
Proof.
  rewrite lookup_total_alt. destruct (m !! k); simpl; [done|].
  intros H. by apply elem_of_nil in H.
Qed.

(** The entry of a route at a version it is mounted at is in the table. *)
Lemma CreateRouteMap_entry rs rawRoutes perlRouteIDs disabledRouteIDs perlHandler
  authBase reqTimeOutSeconds (r : Route.t World) (v : Z) :
  r ∈ rs ->
  v ∈ routeVersions prec (getSortedRouteVersions rs) r ->
  PathHandler.mk (mountPath prec v r)
    (installedHandler perlRouteIDs disabledRouteIDs perlHandler authBase
       (effectiveTimeout reqTimeOutSeconds) r)
  ∈ (CreateRouteMap prec rs rawRoutes perlRouteIDs disabledRouteIDs perlHandler authBase
       reqTimeOutSeconds).1 !!! Route.Method r.
Proof.
  intros Hr Hv. rewrite CreateRouteMap_lookup_total.
  apply elem_of_app. left. apply list_elem_of_In, in_flat_map.
  exists r. split.
  - apply list_elem_of_In, list_elem_of_filter. done.
  - apply list_elem_of_In. unfold routeEntries.
    apply list_elem_of_fmap. by exists v.
Qed.

Lemma CreateRouteMap_raw_entry rs rawRoutes perlRouteIDs disabledRouteIDs perlHandler
  authBase reqTimeOutSeconds (r : RawRoute.t World) :
  r ∈ rawRoutes ->
  rawEntry authBase (effectiveTimeout reqTimeOutSeconds) r
  ∈ (CreateRouteMap prec rs rawRoutes perlRouteIDs disabledRouteIDs perlHandler authBase
       reqTimeOutSeconds).1 !!! RawRoute.Method r.
Proof.
  intros Hr. rewrite CreateRouteMap_lookup_total.
  apply elem_of_app. right. apply list_elem_of_fmap. exists r.
  split; [done|]. by apply list_elem_of_filter.
Qed.

(** A declared route whose template has an opening brace that is never
    closed makes the compilation of the table panic, when its version is
    below 2^53 (so that the route is mounted).  So does a raw route with
    such a path, unless the path starts with a brace. *)
Theorem unclosed_template_stops_compilation
  (rs : list (Route.t World)) (rawRoutes : list (RawRoute.t World))
  (perlRouteIDs disabledRouteIDs : list Z) (perlHandler : HandlerFunc World)
  (authBase : AuthBase World) (reqTimeOutSeconds : Z) :
  (forall r, r ∈ rs -> Go_strconv.exact prec (Route.Version r) ->
     unclosed (Route.Path r) ->
     CompileRoutes (CreateRouteMap prec rs rawRoutes perlRouteIDs disabledRouteIDs
                      perlHandler authBase reqTimeOutSeconds).1 = None)
  /\ (forall r, r ∈ rawRoutes -> unclosed (RawRoute.Path r) ->
        Go_strings.Index (RawRoute.Path r) "{" <> 0 ->
        CompileRoutes (CreateRouteMap prec rs rawRoutes perlRouteIDs disabledRouteIDs
                         perlHandler authBase reqTimeOutSeconds).1 = None).
Proof.
  split.
  - intros r Hr Hv (pre & post & Hpath & Hpost).
    pose proof (CreateRouteMap_entry rs rawRoutes perlRouteIDs disabledRouteIDs
                  perlHandler authBase reqTimeOutSeconds r (Route.Version r) Hr
                  (routeVersions_own rs r Hr Hv)) as Hin.
    destruct (compileRoute_unclosed
                (PathHandler.mk (mountPath prec (Route.Version r) r)
                   (installedHandler perlRouteIDs disabledRouteIDs perlHandler authBase
                      (effectiveTimeout reqTimeOutSeconds) r))) as [Hp|Hp].
    + exists ("^api/" +:+ Go_strconv.FormatFloat prec (Route.Version r) +:+ "/" +:+ pre), post.
      split; [|done]. cbn [PathHandler.Path]. unfold mountPath.
      rewrite Hpath, !append_assoc. done.
    + cbn [PathHandler.Path]. unfold mountPath. intros H0.
      by apply (Index_head "^" _ "{") in H0.
    + eapply CompileRoutes_panics; [by eapply lookup_of_total|done..].
    + eapply CompileRoutes_panics; [by eapply lookup_of_total|done..].
  - intros r Hr Hun Hhead.
    pose proof (CreateRouteMap_raw_entry rs rawRoutes perlRouteIDs disabledRouteIDs
                  perlHandler authBase reqTimeOutSeconds r Hr) as Hin.
    destruct (compileRoute_unclosed (rawEntry authBase (effectiveTimeout reqTimeOutSeconds) r))
      as [Hp|Hp]; [done..| |].
    + eapply CompileRoutes_panics; [by eapply lookup_of_total|done..].
    + eapply CompileRoutes_panics; [by eapply lookup_of_total|done..].
Qed.

(** X28. A declared route whose version is below 2^53 and whose template
    has an opening brace that is never closed makes [RegisterRoutes] panic
    before it puts a handler on the root path: no request is served. *)
Lemma RegisterRoutes_unclosed Routes (d : ServerData)
  (rs : list (Route.t World)) (rawRoutes : list (RawRoute.t World))
  (catchall : HandlerFunc World) (r : Route.t World) :
  Routes d = Some (rs, rawRoutes, catchall) ->
  r ∈ rs -> Go_strconv.exact prec (Route.Version r) ->
  unclosed (Route.Path r) ->
  RegisterRoutes prec Routes d = StartupPanic.
Proof.
  intros HR Hr Hv Hun. unfold RegisterRoutes. rewrite HR.
  destruct (Secrets (SD_Config d) !! 0%nat) as [secret0|]; [|done].
  destruct (CreateRouteMap _ _ _ _ _ _ _ _) as [routes versions] eqn:Htable.
  assert (CompileRoutes routes = None) as ->; [|done].
  replace routes with (routes, versions).1 by done. rewrite <- Htable.
  by eapply (proj1 (unclosed_template_stops_compilation _ _ _ _ _ _ _)).
Qed.

End Startup.

(** ** Well-formed templates *)

Section WellFormed.
Context {World : Type} {RL : RegexpLib}.

Lemma brace_free_String (a : ascii) (s : string) :
  a <> "{"%char -> a <> "}"%char -> brace_free s -> brace_free (String a s).
Proof.
  intros Ho Hc [Hso Hsc]. split; simpl.
  - destruct (Ascii.eqb_spec a "{"); [done|]. by rewrite Hso.
  - destruct (Ascii.eqb_spec a "}"); [done|]. by rewrite Hsc.
Qed.

Lemma brace_free_String_inv (a : ascii) (s : string) :
  brace_free (String a s) -> a <> "{"%char /\ a <> "}"%char /\ brace_free s.
Proof.
  intros [Ho Hc]. simpl in Ho, Hc.
  destruct (Ascii.eqb_spec a "{"); [done|]. destruct (Ascii.eqb_spec a "}"); [done|].
  destruct (Z.ltb_spec (Go_strings.Index s "{") 0);
    [|pose proof (Index_range s "{"); lia].
  destruct (Z.ltb_spec (Go_strings.Index s "}") 0);
    [|pose proof (Index_range s "}"); lia].
  repeat split; try done.
  - destruct (Index_range s "{"); [done|lia].
  - destruct (Index_range s "}"); [done|lia].
Qed.

Lemma pretty_N_char_brace_free (x : N) (s : string) :
  brace_free s -> brace_free (String (pretty_N_char x) s).
Proof.
  intros Hs. unfold pretty_N_char. repeat case_match; by apply brace_free_String.
Qed.

Lemma pretty_N_go_brace_free (x : N) (s : string) :
  brace_free s -> brace_free (pretty_N_go x s).
Proof.
  revert s. induction (N.lt_wf_0 x) as [x _ IH]; intros s Hs.
  assert (x = 0 \/ 0 < x)%N as [->|Hx] by lia.
  - by rewrite pretty_N_go_0.
  - rewrite pretty_N_go_step by done. apply IH.
    + by apply N.div_lt.
    + by apply pretty_N_char_brace_free.
Qed.

Lemma pretty_Z_brace_free (z : Z) : brace_free (pretty z).
Proof.
  assert (forall n : N, brace_free (pretty n)) as HN.
  { intros n. unfold pretty, pretty_N. case_decide; [done|].
    by apply pretty_N_go_brace_free. }
  destruct z as [|p|p]; [done|apply HN|].
  change (pretty (Z.neg p)) with ("-" +:+ pretty (N.pos p)).
  apply brace_free_append; [done|apply HN].
Qed.

Lemma digit_brace_free (d : Z) (s : string) :
  0 <= d < 10 -> brace_free s -> brace_free (String (Go_strconv.digit d) s).
Proof.
  intros Hd Hs.
  assert (d = 0 \/ d = 1 \/ d = 2 \/ d = 3 \/ d = 4 \/ d = 5 \/ d = 6 \/ d = 7
          \/ d = 8 \/ d = 9) as Hcases by lia.
  repeat (destruct Hcases as [->|Hcases]); try subst d; by apply brace_free_String.
Qed.

Lemma frac_digits_brace_free (n : nat) (f : Z) :
  0 <= f < 10 ^ Z.of_nat n -> brace_free (Go_strconv.frac_digits n f).
Proof.
  revert f. induction n as [|n IH]; intros f Hf; [done|].
  cbn [Go_strconv.frac_digits].
  assert (0 < 10 ^ Z.of_nat n) as Hpow by (apply Z.pow_pos_nonneg; lia).
  rewrite Nat2Z.inj_succ, Z.pow_succ_r in Hf by lia.
  apply digit_brace_free.
  - split; [apply Z.div_pos; lia|]. apply Z.div_lt_upper_bound; lia.
  - apply IH. apply Z.mod_pos_bound. lia.
Qed.

Lemma strip_zeros_brace_free (s : string) :
  brace_free s -> brace_free (Go_strconv.strip_zeros s).
Proof.
  induction s as [|c s IH]; [done|]. intros Hs.
  apply brace_free_String_inv in Hs as (Ho & Hc & Hs).
  cbn [Go_strconv.strip_zeros]. specialize (IH Hs).
  destruct (Go_strconv.strip_zeros s) as [|c' t].
  - destruct (Ascii.eqb c "0"); [done|]. by apply brace_free_String.
  - by apply brace_free_String.
Qed.

(** A version is written without braces. *)
Lemma FormatFloat_brace_free (prec : nat) (v : Z) :
  brace_free (Go_strconv.FormatFloat prec v).
Proof.
  unfold Go_strconv.FormatFloat.
  pose proof (scale_pos prec) as Hs.
  assert (brace_free (Go_strconv.strip_zeros
            (Go_strconv.frac_digits prec (Z.abs v mod Go_strconv.scale prec)))) as Hfrac.
  { apply strip_zeros_brace_free, frac_digits_brace_free.
    apply Z.mod_pos_bound. exact Hs. }
  apply brace_free_append; [by destruct (v <? 0)|].
  apply brace_free_append; [apply pretty_Z_brace_free|].
  destruct (Go_strconv.strip_zeros _); [done|].
  by apply (brace_free_append ".").
Qed.

(** X27. The path compiler on a declared route.  When the template of the
    route is made of brace-free text and placeholders, its path at any
    version compiles to the pattern with the group [([^/]+)] in the place of
    every placeholder, and to the names of the placeholders in order. *)
Theorem mounted_template_compiles (prec : nat) (v : Z) (r : Route.t World)
  (t : list piece) (h : HandlerFunc World) :
  Route.Path r = render t ->
  Forall piece_brace_free t ->
  compileRoute (PathHandler.mk (mountPath prec v r) h)
  = match MustCompile ("^api/" +:+ Go_strconv.FormatFloat prec v +:+ "/" +:+ pattern t) with
    | Some regex => Ok (CompiledRoute.mk h regex (names t))
    | None => Panicked RegexpError
    end.
Proof.
  intros Hpath Ht. unfold mountPath. rewrite Hpath.
  pose proof (compileRoute_template
                ("^api/" +:+ Go_strconv.FormatFloat prec v +:+ "/") t h Ht) as Hc.
  rewrite !append_assoc in Hc. apply Hc; [|done].
  apply (brace_free_append "^api/"); [done|].
  apply brace_free_append; [apply FormatFloat_brace_free|done].
Qed.

(** With distinct names and a submatch for each, every name is bound to
    the submatch at its position. *)
Lemma bindParams_positional (names : list string) (i : nat) (matched : list string)
  (params : gmap string string) :
  NoDup names ->
  (length names + i < length matched)%nat ->
  exists bound,
    bindParams names i matched params = Some bound
    /\ (forall k name, names !! k = Some name -> bound !! name = matched !! S (i + k))
    /\ (forall name, name ∉ names -> bound !! name = params !! name).
Proof.
  intros Hnd. revert i params.
  induction Hnd as [|v names Hv Hnd IH]; intros i params Hlen.
  - exists params. split; [done|]. split; [|done]. intros k name Hk.
    by rewrite lookup_nil in Hk.
  - cbn [bindParams].
    destruct (lookup_lt_is_Some_2 matched (S i)) as [x Hx]; [simpl in Hlen; lia|].
    rewrite Hx.
    destruct (IH (S i) (<[v:=x]> params)) as (bound & Hb & Hpos & Hrest);
      [simpl in Hlen; lia|].
    exists bound. split; [done|]. split.
    + intros [|k] name Hk.
      * injection Hk as <-. rewrite Hrest by done.
        by rewrite lookup_insert_eq, Nat.add_0_r.
      * rewrite (Hpos k name Hk). f_equal. lia.
    + intros name Hname. apply not_elem_of_cons in Hname as [Hne Hname].
      rewrite Hrest by done. by rewrite lookup_insert_ne.
Qed.

End WellFormed.

(** ** Examples of compilation and dispatch *)

(** The template [widget/{id}/part/{partId}], mounted at 1.1, against
    [/api/1.1/widget/42/part/7]: the handler of the route gets the
    parameters id = 42 and partId = 7. *)
Example widget_parameters :
  let r := Demo.request "GET" "/api/1.1/widget/42/part/7" in
  compileTemplate 2 "widget/{id}/part/{partId}" []
  = Ok ("widget/([^/]+)/part/([^/]+)", ["id"; "partId"])
  /\ Demo.serve [Demo.route 11 "GET" "widget/{id}/part/{partId}" 1] [] [] [] r
     = Some (ServeHandler
               (CompiledRoute.Handler
                  (Demo.mounted "^api/1.1/widget/([^/]+)/part/([^/]+)"
                     "widget/{id}/part/{partId}" ["id"; "partId"]))
               (routedRequest 0 Demo.cfg 1 r (<["partId" := "7"]> {["id" := "42"]}))).
Proof. intros. split; by_computation. Qed.

(** The general statement at this template, mounted at 1.1. *)
Example widget_template_compiles :
  let t := [Text "widget/"; Placeholder "id"; Text "/part/"; Placeholder "partId"] in
  let r := Demo.route 11 "GET" "widget/{id}/part/{partId}" 1 in
  Route.Path r = render t
  /\ Forall piece_brace_free t
  /\ compileRoute (RL := Go_regexp.lib) (PathHandler.mk (mountPath 1 11 r) Demo.catchall)
     = match MustCompile (RegexpLib := Go_regexp.lib)
               ("^api/" +:+ Go_strconv.FormatFloat 1 11 +:+ "/" +:+ pattern t) with
       | Some regex => Ok (CompiledRoute.mk Demo.catchall regex ["id"; "partId"])
       | None => Panicked RegexpError
       end.
Proof.
  intros t r.
  assert (Forall piece_brace_free t) as Ht by (repeat constructor).
  split; [reflexivity|]. split; [exact Ht|].
  exact (mounted_template_compiles (RL := Go_regexp.lib) 1 11 r t Demo.catchall
           eq_refl Ht).
Defined.

(** The same as a raw route, against [/widget/42/part/7]. *)
Example widget_parameters_raw :
  let r := Demo.request "GET" "/widget/42/part/7" in
  Demo.serve [] [Demo.raw "GET" "widget/{id}/part/{partId}"] [] [] r
  = Some (ServeHandler
            (CompiledRoute.Handler
               (Demo.mounted "widget/([^/]+)/part/([^/]+)"
                  "widget/{id}/part/{partId}" ["id"; "partId"]))
            (routedRequest 0 Demo.cfg 1 r (<["partId" := "7"]> {["id" := "42"]}))).
Proof. intros. by_computation. Qed.

(** C7 on the code, at a raw route whose template starts with a
    placeholder.  The loop of [CompileRoutes] runs while the index of the
    opening brace is greater than zero, so for [{id}/x] it does not run: the
    route is compiled as it is, without a capture and without a parameter
    name.  A request for [/42/x] then is not matched and goes to the
    catch-all, and a request for the path [/{id}/x] itself is given to the
    handler of the route with no parameter. *)
Theorem placeholder_at_start_is_not_compiled :
  let r1 := Demo.request "GET" "/42/x" in
  let r2 := Demo.request "GET" "/{id}/x" in
  compileTemplate (String.length "{id}/x") "{id}/x" [] = Ok ("{id}/x", [])
  /\ Demo.routesOf [] [Demo.raw "GET" "{id}/x"] [] [] !! "GET"
     = Some [Demo.mounted "{id}/x" "{id}/x" []]
  /\ CompiledRoute.Regex (Demo.mounted "{id}/x" "{id}/x" [])
     = Go_regexp.Lit <$> ["{"; "i"; "d"; "}"; "/"; "x"]%char
  /\ Demo.serve [] [Demo.raw "GET" "{id}/x"] [] [] r1 = Some (ServeCatchall r1)
  /\ Demo.serve [] [Demo.raw "GET" "{id}/x"] [] [] r2
     = Some (ServeHandler (CompiledRoute.Handler (Demo.mounted "{id}/x" "{id}/x" []))
               (routedRequest 0 Demo.cfg 1 r2 ∅)).
Proof. intros. repeat split; by_computation. Qed.

(** C8 on the code, at a raw route whose path starts with an opening
    brace that is never closed: the loop does not run, nothing panics, and
    the route is compiled and served. *)
Theorem unclosed_brace_at_start_compiles :
  let r := Demo.request "GET" "/{id" in
  unclosed "{id"
  /\ compileTemplate (String.length "{id") "{id" [] = Ok ("{id", [])
  /\ (Demo.table [] [Demo.raw "GET" "{id"] [] []).1
     = Some {["GET" := [Demo.mounted "{id" "{id" []]]}
  /\ Demo.serve [] [Demo.raw "GET" "{id"] [] [] r
     = Some (ServeHandler (CompiledRoute.Handler (Demo.mounted "{id" "{id" []))
               (routedRequest 0 Demo.cfg 1 r ∅)).
Proof.
  intros. split; [by exists "", "id"|]. repeat split; by_computation.
Qed.

(** C10. A route declared at 1.1 with the template [ping] is mounted at
    the one path [^api/1.1/ping] and a raw route at its path
    [tools/upload]; the request paths [/api/1.1/pingpong/extra], which goes
    on after the mounted path, and [/static/tools/uploads], which only has
    the raw path inside it, are neither of these, and each is given to the
    handler of that route. *)
Theorem patterns_are_not_anchored :
  let rs := [Demo.route 11 "GET" "ping" 1] in
  let rawRoutes := [Demo.raw "GET" "tools/upload"] in
  let r1 := Demo.request "GET" "/api/1.1/pingpong/extra" in
  let r2 := Demo.request "GET" "/static/tools/uploads" in
  PathHandler.Path <$>
    ((CreateRouteMap (WR := Demo.wrappers) 1 rs rawRoutes [] [] Demo.catchall
        Demo.authBase 0).1 !!! "GET")
  = ["^api/1.1/ping"; "tools/upload"]
  /\ Demo.routesOf rs rawRoutes [] [] !! "GET"
     = Some [Demo.mounted "^api/1.1/ping" "ping" [];
             Demo.mounted "tools/upload" "tools/upload" []]
  /\ Demo.serve rs rawRoutes [] [] r1
     = Some (ServeHandler (CompiledRoute.Handler (Demo.mounted "^api/1.1/ping" "ping" []))
               (routedRequest 0 Demo.cfg 1 r1 ∅))
  /\ Demo.serve rs rawRoutes [] [] r2
     = Some (ServeHandler
               (CompiledRoute.Handler (Demo.mounted "tools/upload" "tools/upload" []))
               (routedRequest 0 Demo.cfg 1 r2 ∅)).
Proof. intros. repeat split; by_computation. Qed.

(** * Further properties of the package *)

(** ** The sorted versions and the version set *)

Section SortedVersions.
Context {World : Type}.
Implicit Types (rs : list (Route.t World)).

Lemma StronglySorted_le_lt (l : list Z) :
  StronglySorted Z.le l -> NoDup l -> StronglySorted Z.lt l.
Proof.
  induction 1 as [|x l Hs IH Hx]; intros Hnd; [constructor|].
  apply NoDup_cons in Hnd as [Hnin Hnd].
  constructor; [by apply IH|].
  apply Forall_forall. intros y Hy.
  rewrite Forall_forall in Hx. specialize (Hx y Hy).
  assert (x <> y) by (intros ->; done). lia.
Qed.

(** Two ascending lists without repetition that hold the same numbers
    are the same list. *)
Lemma ascending_unique (l1 l2 : list Z) :
  StronglySorted Z.le l1 -> NoDup l1 ->
  StronglySorted Z.le l2 -> NoDup l2 ->
  (forall v, v ∈ l1 <-> v ∈ l2) ->
  l1 = l2.
Proof.
  intros Hs1 Hn1 Hs2 Hn2 Heq.
  apply (StronglySorted_unique Z.le); [done..|].
  by apply NoDup_Permutation.
Qed.

(** X1. [getSortedRouteVersions] returns the versions that the routes
    declare, each of them once, in strictly ascending order.  The result
    does not depend on the order in which the map of the versions is
    ranged over, and it is the same for two route lists that declare the
    same versions, whatever their order and repetitions. *)
Theorem getSortedRouteVersions_ascending rs :
  StronglySorted Z.lt (getSortedRouteVersions rs)
  /\ (forall v, v ∈ getSortedRouteVersions rs <-> exists r, r ∈ rs /\ Route.Version r = v)
  /\ (forall ranged : list Z,
        ranged ≡ₚ elements (foldl (fun (m : gset Z) r => {[Route.Version r]} ∪ m) ∅ rs) ->
        Go_sort.Float64s ranged = getSortedRouteVersions rs)
  /\ (forall rs',
        (forall v, (exists r, r ∈ rs' /\ Route.Version r = v)
                   <-> (exists r, r ∈ rs /\ Route.Version r = v)) ->
        getSortedRouteVersions rs' = getSortedRouteVersions rs).
Proof.
  split; [|split; [|split]].
  - apply StronglySorted_le_lt;
      [apply getSortedRouteVersions_sorted|apply getSortedRouteVersions_NoDup].
  - intros v. apply elem_of_getSortedRouteVersions.
  - intros ranged Hperm. unfold getSortedRouteVersions, Go_sort.Float64s.
    apply (StronglySorted_unique Z.le).
    + apply StronglySorted_merge_sort; apply _.
    + apply StronglySorted_merge_sort; apply _.
    + by rewrite !merge_sort_Permutation.
  - intros rs' Heq. apply ascending_unique.
    + apply getSortedRouteVersions_sorted.
    + apply getSortedRouteVersions_NoDup.
    + apply getSortedRouteVersions_sorted.
    + apply getSortedRouteVersions_NoDup.
    + intros v. by rewrite !elem_of_getSortedRouteVersions.
Qed.

End SortedVersions.

(** ** The shape of the route table *)

Section TableShape.
Context {World : Type} {WR : Wrappers World}.
Variable prec : nat.

(** X2. The version set that [CreateRouteMap] returns is the set of the
    versions that the routes declare, bypassed and disabled routes
    included; the raw routes and the other arguments add nothing to it. *)
Theorem CreateRouteMap_version_set
  (rs : list (Route.t World)) (rawRoutes : list (RawRoute.t World))
  (perlRouteIDs disabledRouteIDs : list Z) (perlHandler : HandlerFunc World)
  (authBase : AuthBase World) (reqTimeOutSeconds : Z) :
  (CreateRouteMap prec rs rawRoutes perlRouteIDs disabledRouteIDs perlHandler authBase
     reqTimeOutSeconds).2
  = list_to_set (Route.Version <$> rs).
Proof.
  apply set_eq. intros v.
  rewrite CreateRouteMap_versions, elem_of_list_to_set, list_elem_of_fmap.
  split; intros (r & H1 & H2); exists r; done.
Qed.

Lemma flat_map_nil_inv {A B} (f : A -> list B) (l : list A) :
  flat_map f l = [] <-> forall x, x ∈ l -> f x = [].
Proof.
  induction l as [|a l IH]; simpl.
  - split; [|done]. intros _ x Hx. by apply elem_of_nil in Hx.
  - split.
    + intros [Ha Hl]%app_eq_nil x [->|Hx]%elem_of_cons; [done|]. by apply IH.
    + intros H. rewrite (H a) by left. simpl. apply IH. intros x Hx. apply H. by right.
Qed.

(** X3. The keys of the route table.  A method that no route and no raw
    route declares is no key.  A method that a raw route declares is a
    key, and so is one that a route declares whose version is below 2^53
    in absolute value: such a route is mounted at least at its own
    version.  No key of the table has an empty list. *)
Theorem CreateRouteMap_methods
  (rs : list (Route.t World)) (rawRoutes : list (RawRoute.t World))
  (perlRouteIDs disabledRouteIDs : list Z) (perlHandler : HandlerFunc World)
  (authBase : AuthBase World) (reqTimeOutSeconds : Z) (meth : string) :
  let table := (CreateRouteMap prec rs rawRoutes perlRouteIDs disabledRouteIDs perlHandler
                  authBase reqTimeOutSeconds).1 in
  ((forall r, r ∈ rs -> Route.Method r <> meth)
   /\ (forall r, r ∈ rawRoutes -> RawRoute.Method r <> meth)
   -> table !! meth = None)
  /\ (table !! meth = None
      -> (forall r, r ∈ rs -> Go_strconv.exact prec (Route.Version r) ->
                    Route.Method r <> meth)
         /\ (forall r, r ∈ rawRoutes -> RawRoute.Method r <> meth))
  /\ table !! meth <> Some [].
Proof.
  intros table.
  pose proof (CreateRouteMap_nonempty prec rs rawRoutes perlRouteIDs disabledRouteIDs
                perlHandler authBase reqTimeOutSeconds) as Hne.
  fold table in Hne.
  assert (table !! meth <> Some []) as Hsome.
  { intros H. by apply (Hne meth []). }
  assert (table !! meth = None <-> table !!! meth = []) as Hnone.
  { rewrite lookup_total_alt. destruct (table !! meth) as [l|]; simpl; [|done].
    split; [done|]. intros ->. done. }
  split; [|split; [|done]]; rewrite Hnone; unfold table;
    rewrite CreateRouteMap_lookup_total.
  - intros [Hrs Hraw].
    assert (filter (fun r => Route.Method r = meth) rs = []) as ->.
    { apply filter_Forall_nil, Forall_forall. intros r Hr. by apply Hrs. }
    assert (filter (fun r => RawRoute.Method r = meth) rawRoutes = []) as ->.
    { apply filter_Forall_nil, Forall_forall. intros r Hr. by apply Hraw. }
    done.
  - intros [Hrs Hraw]%app_eq_nil. split.
    + intros r Hr Hv Hm. rewrite flat_map_nil_inv in Hrs.
      assert (r ∈ filter (fun r => Route.Method r = meth) rs) as Hin
        by by apply list_elem_of_filter.
      specialize (Hrs r Hin). unfold routeEntries in Hrs.
      apply fmap_nil_inv in Hrs.
      pose proof (routeVersions_own prec rs r Hr Hv) as Hown.
      rewrite Hrs in Hown. by apply elem_of_nil in Hown.
    + intros r Hr Hm. apply fmap_nil_inv in Hraw.
      assert (r ∈ filter (fun r => RawRoute.Method r = meth) rawRoutes) as Hin
        by by apply list_elem_of_filter.
      rewrite Hraw in Hin. by apply elem_of_nil in Hin.
Qed.

(** X4. A request timeout of zero or less stands for 60 seconds: the
    table and the version set are those of the timeout 60. *)
Theorem CreateRouteMap_default_timeout
  (rs : list (Route.t World)) (rawRoutes : list (RawRoute.t World))
  (perlRouteIDs disabledRouteIDs : list Z) (perlHandler : HandlerFunc World)
  (authBase : AuthBase World) (reqTimeOutSeconds : Z) :
  reqTimeOutSeconds <= 0 ->
  CreateRouteMap prec rs rawRoutes perlRouteIDs disabledRouteIDs perlHandler authBase
    reqTimeOutSeconds
  = CreateRouteMap prec rs rawRoutes perlRouteIDs disabledRouteIDs perlHandler authBase 60.
Proof.
  intros Hle. unfold CreateRouteMap.
  rewrite Z.gtb_ltb, (proj2 (Z.ltb_ge _ _)) by lia. done.
Qed.

(** Within these bounds the multiplication of the duration does not
    overflow. *)
Lemma seconds_exact (n : Z) :
  -9223372036 <= n <= 9223372036 -> seconds n = n * 1000000000.
Proof.
  intros Hn. unfold seconds, int64.
  rewrite (Z.mod_small (n + 2 ^ 63)) by lia.
  replace (n + 2 ^ 63 - 2 ^ 63) with n by lia.
  rewrite Z.mod_small by lia. lia.
Qed.

(** X5. For a request timeout of 1 to 9223372036 seconds, the handlers of
    the table are built with the duration of that many seconds, in
    nanoseconds.  Above that the multiplication of the [int64] duration
    overflows: for 9223372037 seconds the table is built with the negative
    duration of -9223372036709551616 nanoseconds. *)
Theorem CreateRouteMap_timeout_in_seconds
  (rs : list (Route.t World)) (rawRoutes : list (RawRoute.t World))
  (perlRouteIDs disabledRouteIDs : list Z) (perlHandler : HandlerFunc World)
  (authBase : AuthBase World) :
  (forall (n : Z) (meth : string),
     0 < n <= 9223372036 ->
     (CreateRouteMap prec rs rawRoutes perlRouteIDs disabledRouteIDs perlHandler authBase
        n).1 !!! meth
     = flat_map (routeEntries prec (getSortedRouteVersions rs) perlRouteIDs
                   disabledRouteIDs perlHandler authBase (n * 1000000000))
         (filter (fun r => Route.Method r = meth) rs)
       ++ (rawEntry authBase (n * 1000000000)
             <$> filter (fun r => RawRoute.Method r = meth) rawRoutes))
  /\ (forall meth : string,
        (CreateRouteMap prec rs rawRoutes perlRouteIDs disabledRouteIDs perlHandler
           authBase 9223372037).1 !!! meth
        = flat_map (routeEntries prec (getSortedRouteVersions rs) perlRouteIDs
                      disabledRouteIDs perlHandler authBase (-9223372036709551616))
            (filter (fun r => Route.Method r = meth) rs)
          ++ (rawEntry authBase (-9223372036709551616)
                <$> filter (fun r => RawRoute.Method r = meth) rawRoutes)).
Proof.
  split.
  - intros n meth Hn. rewrite CreateRouteMap_lookup_total. unfold effectiveTimeout.
    rewrite Z.gtb_ltb, (proj2 (Z.ltb_lt _ _)) by lia.
    rewrite seconds_exact by lia. done.
  - intros meth. rewrite CreateRouteMap_lookup_total. done.
Qed.

(** X6. [CreateRouteMap] does not read the field [CanBypassToPerl]: the
    table and the version set stay the same when the flags of the routes
    are set in any other way.  A route whose id is in the bypass list is
    given the Perl handler also when its flag is false: at every version
    at which it is mounted, and so at its own version when that is below
    2^53 in absolute value. *)
Theorem CanBypassToPerl_is_not_read
  (rs : list (Route.t World)) (rawRoutes : list (RawRoute.t World))
  (perlRouteIDs disabledRouteIDs : list Z) (perlHandler : HandlerFunc World)
  (authBase : AuthBase World) (reqTimeOutSeconds : Z) :
  (forall flag : Route.t World -> bool,
     CreateRouteMap prec ((fun r => withBypass r (flag r)) <$> rs) rawRoutes perlRouteIDs
       disabledRouteIDs perlHandler authBase reqTimeOutSeconds
     = CreateRouteMap prec rs rawRoutes perlRouteIDs disabledRouteIDs perlHandler authBase
         reqTimeOutSeconds)
  /\ (forall r v,
        r ∈ rs -> Route.CanBypassToPerl r = false -> Route.ID r ∈ perlRouteIDs ->
        v ∈ routeVersions prec (getSortedRouteVersions rs) r ->
        PathHandler.mk (mountPath prec v r) perlHandler
        ∈ (CreateRouteMap prec rs rawRoutes perlRouteIDs disabledRouteIDs perlHandler
             authBase reqTimeOutSeconds).1 !!! Route.Method r)
  /\ (forall r,
        r ∈ rs -> Route.CanBypassToPerl r = false -> Route.ID r ∈ perlRouteIDs ->
        Go_strconv.exact prec (Route.Version r) ->
        PathHandler.mk (mountPath prec (Route.Version r) r) perlHandler
        ∈ (CreateRouteMap prec rs rawRoutes perlRouteIDs disabledRouteIDs perlHandler
             authBase reqTimeOutSeconds).1 !!! Route.Method r).
Proof.
  split; [|split].
  - intros flag. unfold CreateRouteMap.
    assert (getSortedRouteVersions ((fun r => withBypass r (flag r)) <$> rs)
            = getSortedRouteVersions rs) as ->.
    { unfold getSortedRouteVersions. by rewrite foldl_fmap. }
    by rewrite foldl_fmap.
  - intros r v Hr _ Hid Hv.
    pose proof (CreateRouteMap_entry prec rs rawRoutes perlRouteIDs disabledRouteIDs
                  perlHandler authBase reqTimeOutSeconds r v Hr Hv) as Hin.
    unfold installedHandler in Hin. by rewrite decide_True in Hin.
  - intros r Hr _ Hid Hv.
    pose proof (CreateRouteMap_entry prec rs rawRoutes perlRouteIDs disabledRouteIDs
                  perlHandler authBase reqTimeOutSeconds r (Route.Version r) Hr
                  (routeVersions_own prec rs r Hr Hv)) as Hin.
    unfold installedHandler in Hin. by rewrite decide_True in Hin.
Qed.

End TableShape.

(** A timeout below zero. *)
Lemma CreateRouteMap_default_timeout_witness :
  let rs := [Demo.route 11 "GET" "ping" 1] in
  CreateRouteMap (WR := Demo.wrappers) 1 rs [] [] [] Demo.catchall Demo.authBase (-5)
  = CreateRouteMap (WR := Demo.wrappers) 1 rs [] [] [] Demo.catchall Demo.authBase 60.
Proof.
  intros rs.
  apply (CreateRouteMap_default_timeout (WR := Demo.wrappers) 1 rs [] [] []
           Demo.catchall Demo.authBase (-5)).
  lia.
Defined.

(** ** The chain of wrappers around a handler *)

Section Chains.
Context {World : Type} {WR : Wrappers World}.

(** X7. Applying a list of middlewares that is made of two parts applies
    the second part to the handler and the first part to what comes out
    of that. *)
Theorem use_app (h : HandlerFunc World) (ms1 ms2 : list (Middleware World)) :
  use h (ms1 ++ ms2) = use (use h ms2) ms1.
Proof. by rewrite !use_foldr, foldr_app. Qed.

(** X8. The handler of an authenticated route is wrapped by the
    authorization wrapper first, and by the middleware of the route around
    that: the authorization wrapper is the innermost one.  With the
    default middleware the chain is, from the outside, access log, timeout,
    headers, panic recovery, authorization.  A route with an empty list of
    middleware that is not nil gets no wrapper at all. *)
Theorem auth_wrapper_is_innermost (explicit : option (list (Middleware World)))
  (authBase : AuthBase World) (privLevel requestTimeout : Z) (h : HandlerFunc World) :
  use h (getRouteMiddleware explicit authBase true privLevel requestTimeout)
  = use (GetWrapper authBase privLevel h)
      (getRouteMiddleware explicit authBase false privLevel requestTimeout)
  /\ use h (getRouteMiddleware None authBase true privLevel requestTimeout)
     = getWrapAccessLog (secret authBase)
         (timeOutWrapper requestTimeout
            (wrapHeaders (wrapPanicRecover (GetWrapper authBase privLevel h))))
  /\ use h (getRouteMiddleware None authBase false privLevel requestTimeout)
     = getWrapAccessLog (secret authBase)
         (timeOutWrapper requestTimeout (wrapHeaders (wrapPanicRecover h)))
  /\ use h (getRouteMiddleware (Some []) authBase false privLevel requestTimeout) = h.
Proof.
  assert (forall ms mw, use h (ms ++ [mw]) = use (mw h) ms) as Hlast.
  { intros ms mw. by rewrite !use_foldr, foldr_app. }
  split; [|split; [|split]].
  - unfold getRouteMiddleware. by rewrite Hlast.
  - unfold getRouteMiddleware, getDefaultMiddleware. by rewrite Hlast, !use_cons, use_nil.
  - unfold getRouteMiddleware, getDefaultMiddleware. by rewrite !use_cons, use_nil.
  - done.
Qed.

End Chains.

(** ** More on the path compiler *)

(** X9. The loop of [CompileRoutes] over the placeholders of a route
    ends: it runs at most as many rounds as the route has opening braces,
    which is at most the length of the route, and what it returns does not
    depend on the number of rounds it is allowed beyond that. *)
Theorem compileTemplate_terminates (route : string) (params : list string) :
  (count_char "{" route <= String.length route)%nat
  /\ exists result,
       result <> OutOfFuel
       /\ forall fuel, (count_char "{" route <= fuel)%nat ->
                       compileTemplate fuel route params = result.
Proof.
  split; [apply count_char_length|].
  exists (compileTemplate (count_char "{" route) route params). split.
  - by apply (compileTemplate_fuel _ (count_char "{" route)).
  - intros fuel Hfuel. by apply compileTemplate_fuel.
Qed.

Section Compiler.
Context {World : Type} {RL : RegexpLib}.
Implicit Types (ph : PathHandler.t World) (l : list (PathHandler.t World)).

(** X10. A route whose first closing brace comes before its first opening
    brace makes the compiler panic in the slice expression
    [route[open+1 : close]], not with "malformed route". *)
Theorem closing_brace_first_panics ph :
  0 <= Go_strings.Index (PathHandler.Path ph) "}"
       < Go_strings.Index (PathHandler.Path ph) "{" ->
  compileRoute ph = Panicked SliceBounds.
Proof.
  intros [Hclose Hopen]. unfold compileRoute.
  destruct (String.length (PathHandler.Path ph)) as [|fuel] eqn:Hlen.
  { destruct (PathHandler.Path ph); [simpl in *; lia|done]. }
  rewrite compileTemplate_round by lia.
  rewrite (proj2 (Z.ltb_ge _ _)) by lia.
  unfold Go_strings.slice.
  assert ((Go_strings.Index (PathHandler.Path ph) "{" + 1
           <=? Go_strings.Index (PathHandler.Path ph) "}") = false) as ->
    by (apply Z.leb_gt; lia).
  by rewrite andb_false_r.
Qed.

(** Every route of a list that compiles keeps its handler and its place. *)
Lemma compileAll_handlers l cs :
  compileAll l = Ok cs ->
  CompiledRoute.Handler <$> cs = PathHandler.Handler <$> l.
Proof.
  revert cs. induction l as [|ph l IH]; intros cs; simpl.
  - by intros [= <-].
  - unfold compileRoute at 1.
    destruct (compileTemplate _ _ _) as [[route params]| |]; [|done..].
    destruct (MustCompile route) as [regex|]; [|done].
    destruct (compileAll l) as [cs'| |]; [|done..].
    intros [= <-]. rewrite !fmap_cons. f_equal. by apply IH.
Qed.

(** The compiled routes of a method are what its list of routes compiles
    to. *)
Lemma CompileRoutes_lookup (routes : gmap string (list (PathHandler.t World)))
  (compiled : gmap string (list (CompiledRoute.t World))) (meth : string) :
  CompileRoutes routes = Some compiled ->
  compileAll (routes !!! meth) = Ok (compiled !!! meth)
  /\ (compiled !! meth = None <-> compiled !!! meth = []).
Proof.
  unfold CompileRoutes. destruct (forallb _ _) eqn:Hall; [|done].
  intros [= <-]. rewrite forallb_forall in Hall.
  rewrite !lookup_total_alt, lookup_omap, lookup_fmap.
  destruct (routes !! meth) as [l|] eqn:Hl; simpl; [|done].
  assert (compiled_ok (compileAll l) = true) as Hok.
  { apply (Hall (meth, compileAll l)), list_elem_of_In, elem_of_map_to_list.
    by rewrite lookup_fmap, Hl. }
  destruct (compileAll l) as [[|c cs]| |] eqn:Hc; done.
Qed.

(** X11. When [CompileRoutes] does not panic, the compiled routes of a
    method are as many as its routes and have their handlers, in the same
    order; and a method has no compiled routes at all exactly when its list
    of routes is empty or missing, so that a method with an empty list is
    no key of the result. *)
Theorem CompileRoutes_keeps_handlers
  (routes : gmap string (list (PathHandler.t World)))
  (compiled : gmap string (list (CompiledRoute.t World))) (meth : string) :
  CompileRoutes routes = Some compiled ->
  CompiledRoute.Handler <$> (compiled !!! meth) = PathHandler.Handler <$> (routes !!! meth)
  /\ (compiled !! meth = None <-> routes !!! meth = []).
Proof.
  intros Hc. destruct (CompileRoutes_lookup routes compiled meth Hc) as [Hall Hnone].
  pose proof (compileAll_handlers _ _ Hall) as Hh.
  split; [exact Hh|]. rewrite Hnone. split.
  - intros Hnil. rewrite Hnil in Hh. symmetry in Hh. by apply fmap_nil_inv in Hh.
  - intros Hnil. rewrite Hnil in Hh. by apply fmap_nil_inv in Hh.
Qed.

End Compiler.

(** The route [a}/{id}]. *)
Lemma closing_brace_first_panics_witness :
  Go_strings.Index "a}/{id}" "}" = 1 /\ Go_strings.Index "a}/{id}" "{" = 3
  /\ compileRoute (RL := Go_regexp.lib) (PathHandler.mk "a}/{id}" Demo.catchall)
     = Panicked SliceBounds.
Proof.
  split; [reflexivity|]. split; [reflexivity|].
  apply (closing_brace_first_panics (RL := Go_regexp.lib)
           (PathHandler.mk "a}/{id}" Demo.catchall)).
  simpl. lia.
Defined.

(** A table with two routes under GET and an empty list under PUT. *)
Lemma CompileRoutes_keeps_handlers_witness :
  let routes : gmap string (list (PathHandler.t (list string))) :=
    {["GET" := [PathHandler.mk "a/{id}" (say "a"); PathHandler.mk "b" (say "b")];
      "PUT" := []]} in
  exists compiled,
    CompileRoutes (RL := Go_regexp.lib) routes = Some compiled
    /\ CompiledRoute.Handler <$> (compiled !!! "GET") = [say "a"; say "b"]
    /\ compiled !! "PUT" = None.
Proof.
  intros routes.
  assert (is_Some (CompileRoutes (RL := Go_regexp.lib) routes)) as [compiled Hc]
    by (apply (bool_decide_unpack _); by_computation).
  exists compiled. split; [done|].
  destruct (CompileRoutes_keeps_handlers (RL := Go_regexp.lib) routes compiled "GET" Hc)
    as [Hget _].
  destruct (CompileRoutes_keeps_handlers (RL := Go_regexp.lib) routes compiled "PUT" Hc)
    as [_ Hput].
  split; [exact Hget|]. by apply Hput.
Defined.

(** A declared route with a brace that is never closed stops the
    start-up. *)
Lemma RegisterRoutes_unclosed_witness :
  let r := Demo.route 11 "GET" "servers/{id" 1 in
  let Routes := fun _ : ServerData => Some ([r], [Demo.raw "GET" "ping"], Demo.catchall) in
  let d := {| SD_Config := Demo.cfg; SD_DB := 0; SD_Plugins := Demo.plugins |} in
  Go_strconv.exact 1 (Route.Version r)
  /\ unclosed (Route.Path r)
  /\ RegisterRoutes (RL := Go_regexp.lib) (SC := Demo.strconv) (WR := Demo.wrappers) 1
       Routes d
     = StartupPanic.
Proof.
  intros r Routes d.
  assert (Go_strconv.exact 1 (Route.Version r)) as Hv by (by vm_compute).
  assert (unclosed (Route.Path r)) as Hun by (by exists "servers/", "id").
  split; [exact Hv|]. split; [exact Hun|].
  apply (RegisterRoutes_unclosed (RL := Go_regexp.lib) (SC := Demo.strconv)
           (WR := Demo.wrappers) 1 Routes d [r] [Demo.raw "GET" "ping"] Demo.catchall r
           eq_refl); [by left|exact Hv|exact Hun].
Defined.

(** ** The path parameters of a match *)

Section Binding.

Lemma bindParams_dom (names : list string) (i : nat) (matched : list string)
  (params bound : gmap string string) :
  bindParams names i matched params = Some bound ->
  dom bound = list_to_set names ∪ dom params.
Proof.
  revert i params. induction names as [|v names IH]; intros i params; simpl.
  - intros [= <-]. by rewrite (left_id_L ∅ (∪)).
  - destruct (matched !! S i) as [x|]; [|done]. intros Hb.
    rewrite (IH _ _ Hb), dom_insert_L.
    rewrite (assoc_L (∪)). f_equal. apply (comm_L (∪)).
Qed.

(** A name that is not in the list keeps what it had. *)
Lemma bindParams_keeps (names : list string) (i : nat) (matched : list string)
  (params bound : gmap string string) (name : string) :
  bindParams names i matched params = Some bound ->
  name ∉ names -> bound !! name = params !! name.
Proof.
  revert i params. induction names as [|v names IH]; intros i params; simpl.
  - by intros [= <-].
  - destruct (matched !! S i) as [x|]; [|done]. intros Hb Hn.
    apply not_elem_of_cons in Hn as [Hne Hn].
    rewrite (IH _ _ Hb Hn). by rewrite lookup_insert_ne.
Qed.

Lemma bindParams_last (names : list string) (i : nat) (matched : list string)
  (params bound : gmap string string) (k : nat) (name : string) :
  bindParams names i matched params = Some bound ->
  names !! k = Some name ->
  (forall k', (k < k')%nat -> names !! k' <> Some name) ->
  bound !! name = matched !! S (i + k).
Proof.
  revert i params k. induction names as [|v names IH]; intros i params k; simpl.
  - intros _ Hk. by rewrite lookup_nil in Hk.
  - destruct (matched !! S i) as [x|] eqn:Hx; [|done]. intros Hb Hk Hlast.
    destruct k as [|k].
    + injection Hk as <-.
      rewrite (bindParams_keeps _ _ _ _ _ v Hb).
      * by rewrite lookup_insert_eq, Nat.add_0_r.
      * intros [j Hj]%list_elem_of_lookup. by apply (Hlast (S j)); [lia|].
    + rewrite (IH _ _ k Hb Hk).
      * f_equal. lia.
      * intros k' Hk'. apply (Hlast (S k')). lia.
Qed.

(** The binding panics exactly when there are names and the match has no
    submatch for the last of them. *)
Lemma bindParams_None (names : list string) (i : nat) (matched : list string)
  (params : gmap string string) :
  bindParams names i matched params = None
  <-> names <> [] /\ (length matched <= length names + i)%nat.
Proof.
  revert i params. induction names as [|v names IH]; intros i params; simpl.
  - split; [done|]. by intros [? _].
  - destruct (matched !! S i) as [x|] eqn:Hx.
    + apply lookup_lt_Some in Hx. rewrite IH. split.
      * intros [Hne Hlen]. split; [done|]. lia.
      * intros [_ Hlen]. split; [|lia]. intros ->. simpl in Hlen. lia.
    + apply lookup_ge_None in Hx. split; [|done]. intros _. split; [done|]. lia.
Qed.

(** X12. The parameters that [Handler] binds from a match have exactly
    the parameter names of the route as keys.  A name that occurs more
    than once is bound to the submatch of its last occurrence: the later
    assignment overwrites the earlier one. *)
Theorem bindParams_last_wins (names matched : list string) (bound : gmap string string) :
  bindParams names 0 matched ∅ = Some bound ->
  dom bound = list_to_set names
  /\ (forall k name,
        names !! k = Some name ->
        (forall k', (k < k')%nat -> names !! k' <> Some name) ->
        bound !! name = matched !! S k).
Proof.
  intros Hb. split.
  - rewrite (bindParams_dom _ _ _ _ _ Hb). by rewrite dom_empty_L, (right_id_L ∅ (∪)).
  - intros k name Hk Hlast. by rewrite (bindParams_last _ _ _ _ _ _ _ Hb Hk Hlast).
Qed.

(** The names of the template [w/{id}/p/{part}/{id}]. *)
Lemma bindParams_last_wins_witness :
  bindParams ["id"; "part"; "id"] 0 ["w/1/p/2/3"; "1"; "2"; "3"] ∅
  = Some (<["id" := "3"]> (<["part" := "2"]> {["id" := "1"]}))
  /\ (<["id" := "3"]> (<["part" := "2"]> {["id" := "1"]}) : gmap string string) !! "id"
     = Some "3".
Proof.
  assert (bindParams ["id"; "part"; "id"] 0 ["w/1/p/2/3"; "1"; "2"; "3"] ∅
          = Some (<["id" := "3"]> (<["part" := "2"]> {["id" := "1"]}))) as Hb
    by reflexivity.
  split; [exact Hb|].
  refine (proj2 (bindParams_last_wins _ _ _ Hb) 2%nat "id" eq_refl _).
  intros [|[|[|k']]] Hk'; try lia; done.
Defined.

End Binding.

(** ** The outcomes of [Handler] *)

Section Outcomes.
Context {World : Type} {RL : RegexpLib} {SC : Strconv} {ST : Strings}
  {WR : Wrappers World}.
Implicit Types (cr : CompiledRoute.t World) (r : Request.t).

Lemma no_match_nil (l : list (CompiledRoute.t World)) requested :
  Forall (fun cr => ~ routeMatches cr requested) l
  <-> Forall (fun cr => FindStringSubmatch (CompiledRoute.Regex cr) requested = []) l.
Proof.
  apply Forall_proper; [|done]. intros cr. unfold routeMatches.
  destruct (decide (FindStringSubmatch (CompiledRoute.Regex cr) requested = [])); tauto.
Qed.

(** What the loop over the routes of a method ends in. *)
Lemma tryRoutes_inv (l : list (CompiledRoute.t World)) requested ctx r :
  match tryRoutes l requested ctx r with
  | None => Forall (fun cr => ~ routeMatches cr requested) l
  | Some served =>
      exists pre cr post,
        l = pre ++ cr :: post
        /\ Forall (fun cr' => ~ routeMatches cr' requested) pre
        /\ routeMatches cr requested
        /\ served
           = match bindParams (CompiledRoute.Params cr) 0
                     (FindStringSubmatch (CompiledRoute.Regex cr) requested) ∅ with
             | Some params =>
                 ServeHandler (CompiledRoute.Handler cr)
                   (Request.WithContext r
                      (WithValue ctx PathParamsKey (PathParamsValue params)))
             | None => HandlerPanic IndexRange
             end
  end.
Proof.
  induction l as [|cr l IH]; [by constructor|].
  cbn [tryRoutes].
  destruct (FindStringSubmatch (CompiledRoute.Regex cr) requested) as [|x m] eqn:Hf.
  - cbn [length Nat.eqb].
    assert (~ routeMatches cr requested) as Hn
      by (unfold routeMatches; rewrite Hf; intros Hne; by apply Hne).
    destruct (tryRoutes l requested ctx r) as [served|].
    + destruct IH as (pre & cr' & post & -> & Hpre & Hm & Hs).
      exists (cr :: pre), cr', post. split; [done|].
      split; [constructor; [exact Hn|exact Hpre]|]. done.
    + by constructor.
  - cbn [length Nat.eqb].
    assert (routeMatches cr requested) as Hm by (unfold routeMatches; by rewrite Hf).
    destruct (bindParams (CompiledRoute.Params cr) 0 (x :: m) ∅) as [params|] eqn:Hb;
      exists [], cr, l; (split; [done|]); (split; [constructor|]); (split; [done|]);
      by rewrite Hf, Hb.
Qed.

(** [Handler] by cases: the hook, the path, the routes of the method. *)
Lemma Handler_cases routes versions catchall db cfg reqID plugins r :
  Handler routes versions catchall db cfg reqID plugins r
  = if plugin.OnRequest plugins (hookData db cfg reqID r) then HandledByPlugin
    else match Request.URL_Path r with
         | EmptyString => HandlerPanic SliceBounds
         | String _ requested =>
             match routes !! Request.Method r with
             | None => ServeCatchall r
             | Some mRoutes =>
                 match tryRoutes mRoutes requested (baseContext db cfg reqID r) r with
                 | Some served => served
                 | None =>
                     if IsRequestAPIAndUnknownVersion r versions then
                       match Secrets cfg !! 0%nat with
                       | Some secret0 =>
                           ServeHandler (wrapAccessLog secret0 NotImplementedHandler) r
                       | None => HandlerPanic IndexRange
                       end
                     else ServeCatchall r
                 end
             end
         end.
Proof.
  unfold Handler.
  change (plugin.OnRequest plugins _) with (plugin.OnRequest plugins (hookData db cfg reqID r)).
  destruct (plugin.OnRequest plugins (hookData db cfg reqID r)); [done|].
  destruct (Request.URL_Path r) as [|c requested]; [done|].
  by rewrite slice_from_1.
Qed.

(** When [Handler] ends in a call of a handler, the handler is the one of
    the first route of the method that matches, or the unknown-version
    handler. *)
Lemma Handler_ServeHandler_inv routes versions catchall db cfg reqID plugins r h r' :
  Handler routes versions catchall db cfg reqID plugins r = ServeHandler h r' ->
  exists c requested mRoutes,
    plugin.OnRequest plugins (hookData db cfg reqID r) = false
    /\ Request.URL_Path r = String c requested
    /\ routes !! Request.Method r = Some mRoutes
    /\ ((exists pre cr post params,
           mRoutes = pre ++ cr :: post
           /\ Forall (fun cr' => ~ routeMatches cr' requested) pre
           /\ routeMatches cr requested
           /\ bindParams (CompiledRoute.Params cr) 0
                (FindStringSubmatch (CompiledRoute.Regex cr) requested) ∅ = Some params
           /\ h = CompiledRoute.Handler cr
           /\ r' = routedRequest db cfg reqID r params)
        \/ (Forall (fun cr => ~ routeMatches cr requested) mRoutes
            /\ IsRequestAPIAndUnknownVersion r versions = true
            /\ (exists secret0,
                  Secrets cfg !! 0%nat = Some secret0
                  /\ h = wrapAccessLog secret0 NotImplementedHandler)
            /\ r' = r)).
Proof.
  rewrite Handler_cases. intros HH.
  destruct (plugin.OnRequest plugins (hookData db cfg reqID r)) eqn:Hhook; [done|].
  destruct (Request.URL_Path r) as [|c requested] eqn:Hpath; [done|].
  destruct (routes !! Request.Method r) as [mRoutes|] eqn:Hroutes; [|done].
  exists c, requested, mRoutes. split; [done|]. split; [done|]. split; [done|].
  pose proof (tryRoutes_inv mRoutes requested (baseContext db cfg reqID r) r) as Hinv.
  destruct (tryRoutes mRoutes requested (baseContext db cfg reqID r) r) as [served|].
  - left. destruct Hinv as (pre & cr & post & -> & Hpre & Hm & Hs).
    rewrite Hs in HH.
    destruct (bindParams _ _ _ _) as [params|] eqn:Hb; [|done].
    injection HH as <- <-. by exists pre, cr, post, params.
  - right. split; [done|].
    destruct (IsRequestAPIAndUnknownVersion r versions); [|done].
    split; [done|].
    destruct (Secrets cfg !! 0%nat) as [secret0|]; [|done].
    injection HH as <- <-. split; [by exists secret0|done].
Qed.

(** X13. The plugin hook comes first: when it takes the request,
    [Handler] returns at once, whatever the path and the routes.  When it
    does not and the path of the request is empty, [Handler] panics in the
    slice expression [r.URL.Path[1:]]. *)
Theorem Handler_plugin_first
  (routes : gmap string (list (CompiledRoute.t World))) (versions : gset Z)
  (catchall : HandlerFunc World) (db : Z) (cfg : Config) (reqID : Z)
  (plugins : plugin.Plugins) (r : Request.t) :
  (plugin.OnRequest plugins (hookData db cfg reqID r) = true ->
   Handler routes versions catchall db cfg reqID plugins r = HandledByPlugin)
  /\ (plugin.OnRequest plugins (hookData db cfg reqID r) = false ->
      Request.URL_Path r = "" ->
      Handler routes versions catchall db cfg reqID plugins r = HandlerPanic SliceBounds).
Proof.
  rewrite Handler_cases. split.
  - by intros ->.
  - by intros -> ->.
Qed.

(** X14. When the first route that matches has at least as many
    parameter names as its match has entries (the whole match and the
    submatches), [Handler] panics with an index out of range at
    [match[i+1]]. *)
Theorem Handler_panics_on_missing_submatch
  (routes : gmap string (list (CompiledRoute.t World))) (versions : gset Z)
  (catchall : HandlerFunc World) (db : Z) (cfg : Config) (reqID : Z)
  (plugins : plugin.Plugins) (r : Request.t) (c : ascii) (requested : string)
  (pre post : list (CompiledRoute.t World)) (cr : CompiledRoute.t World) :
  plugin.OnRequest plugins (hookData db cfg reqID r) = false ->
  Request.URL_Path r = String c requested ->
  routes !! Request.Method r = Some (pre ++ cr :: post) ->
  Forall (fun cr' => ~ routeMatches cr' requested) pre ->
  routeMatches cr requested ->
  (length (FindStringSubmatch (CompiledRoute.Regex cr) requested)
   <= length (CompiledRoute.Params cr))%nat ->
  Handler routes versions catchall db cfg reqID plugins r = HandlerPanic IndexRange.
Proof.
  intros Hhook Hpath Hroutes Hpre Hm Hlen.
  rewrite (Handler_routes _ _ _ _ _ _ _ _ _ _ _ Hhook Hpath Hroutes).
  rewrite tryRoutes_skip by by apply no_match_nil.
  cbn [tryRoutes]. unfold routeMatches in Hm.
  destruct (FindStringSubmatch (CompiledRoute.Regex cr) requested) as [|x m] eqn:Hf;
    [done|].
  cbn [length Nat.eqb].
  assert (bindParams (CompiledRoute.Params cr) 0 (x :: m) ∅ = None) as ->; [|done].
  apply bindParams_None. split; [|lia].
  intros Hnil. rewrite Hnil in Hlen. simpl in Hlen. lia.
Qed.

(** X15. [Handler] never calls a handler other than these: the handler of
    the first route in the list of the request's method whose pattern
    matches the path after its first byte, on the request that carries the
    parameters bound from that match; or, when no route of the method
    matches and the request is for an unknown version of the API, the
    unknown-version handler inside the access log wrapper with the first
    secret, on the request as it came. *)
Theorem Handler_invokes_first_match
  (routes : gmap string (list (CompiledRoute.t World))) (versions : gset Z)
  (catchall : HandlerFunc World) (db : Z) (cfg : Config) (reqID : Z)
  (plugins : plugin.Plugins) (r : Request.t) (h : HandlerFunc World) (r' : Request.t) :
  Handler routes versions catchall db cfg reqID plugins r = ServeHandler h r' ->
  exists c requested mRoutes,
    plugin.OnRequest plugins (hookData db cfg reqID r) = false
    /\ Request.URL_Path r = String c requested
    /\ routes !! Request.Method r = Some mRoutes
    /\ ((exists pre cr post params,
           mRoutes = pre ++ cr :: post
           /\ Forall (fun cr' => ~ routeMatches cr' requested) pre
           /\ routeMatches cr requested
           /\ bindParams (CompiledRoute.Params cr) 0
                (FindStringSubmatch (CompiledRoute.Regex cr) requested) ∅ = Some params
           /\ h = CompiledRoute.Handler cr
           /\ r' = routedRequest db cfg reqID r params)
        \/ (Forall (fun cr => ~ routeMatches cr requested) mRoutes
            /\ IsRequestAPIAndUnknownVersion r versions = true
            /\ (exists secret0,
                  Secrets cfg !! 0%nat = Some secret0
                  /\ h = wrapAccessLog secret0 NotImplementedHandler)
            /\ r' = r)).
Proof. apply Handler_ServeHandler_inv. Qed.

(** X16. What the plugin hook and the handlers read in the context of the
    request.  The hook decides on data that hold the request id and the
    configuration of this call and the request with the database handle,
    the configuration, the request id and empty path parameters in its
    context.  When [Handler] calls a handler, method and path of the
    request it passes are those of the incoming request, and one of two
    cases holds.  No route of the method matches: the handler (the
    unknown-version handler) gets the request as it came.  Or the handler
    is the one of the first route that matches: then it reads the
    database handle, the configuration and the request id of this call in
    the context and, under the key of the path parameters, the parameters
    bound from the match of that route, whatever the context of the
    incoming request held under these keys.  The catch-all gets the
    request as it came. *)
Theorem Handler_context
  (routes : gmap string (list (CompiledRoute.t World))) (versions : gset Z)
  (catchall : HandlerFunc World) (db : Z) (cfg : Config) (reqID : Z) (r : Request.t) :
  (exists data : plugin.OnRequestData,
     (forall plugins,
        Handler routes versions catchall db cfg reqID plugins r = HandledByPlugin
        <-> plugin.OnRequest plugins data = true)
     /\ plugin.RequestID data = reqID
     /\ plugin.AppCfg data = cfg
     /\ Request.Method (plugin.R data) = Request.Method r
     /\ Request.URL_Path (plugin.R data) = Request.URL_Path r
     /\ Value (Request.Ctx (plugin.R data)) DBContextKey = Some (DBValue db)
     /\ Value (Request.Ctx (plugin.R data)) ConfigContextKey = Some (ConfigValue cfg)
     /\ Value (Request.Ctx (plugin.R data)) ReqIDContextKey = Some (ReqIDValue reqID)
     /\ Value (Request.Ctx (plugin.R data)) PathParamsKey = Some (PathParamsValue ∅))
  /\ (forall plugins h r',
        Handler routes versions catchall db cfg reqID plugins r = ServeHandler h r' ->
        Request.Method r' = Request.Method r
        /\ Request.URL_Path r' = Request.URL_Path r
        /\ exists c requested mRoutes,
             Request.URL_Path r = String c requested
             /\ routes !! Request.Method r = Some mRoutes
             /\ ((Forall (fun cr => ~ routeMatches cr requested) mRoutes /\ r' = r)
                 \/ (exists pre cr post params,
                       mRoutes = pre ++ cr :: post
                       /\ Forall (fun cr' => ~ routeMatches cr' requested) pre
                       /\ routeMatches cr requested
                       /\ bindParams (CompiledRoute.Params cr) 0
                            (FindStringSubmatch (CompiledRoute.Regex cr) requested) ∅
                          = Some params
                       /\ h = CompiledRoute.Handler cr
                       /\ Value (Request.Ctx r') DBContextKey = Some (DBValue db)
                       /\ Value (Request.Ctx r') ConfigContextKey
                          = Some (ConfigValue cfg)
                       /\ Value (Request.Ctx r') ReqIDContextKey
                          = Some (ReqIDValue reqID)
                       /\ Value (Request.Ctx r') PathParamsKey
                          = Some (PathParamsValue params))))
  /\ (forall plugins r',
        Handler routes versions catchall db cfg reqID plugins r = ServeCatchall r' ->
        r' = r).
Proof.
  split; [|split].
  - exists (hookData db cfg reqID r). split; [|done].
    intros plugins. rewrite Handler_cases.
    destruct (plugin.OnRequest plugins (hookData db cfg reqID r)); [done|].
    split; [|done]. intros HH. exfalso.
    destruct (Request.URL_Path r) as [|c requested]; [done|].
    destruct (routes !! Request.Method r) as [mRoutes|]; [|done].
    pose proof (tryRoutes_inv mRoutes requested (baseContext db cfg reqID r) r) as Hinv.
    destruct (tryRoutes mRoutes requested (baseContext db cfg reqID r) r) as [served|].
    + destruct Hinv as (pre & cr & post & -> & Hpre & Hm & Hs). rewrite Hs in HH.
      by destruct (bindParams _ _ _ _).
    + destruct (IsRequestAPIAndUnknownVersion r versions); [|done].
      by destruct (Secrets cfg !! 0%nat).
  - intros plugins h r' HH.
    destruct (Handler_ServeHandler_inv _ _ _ _ _ _ _ _ _ _ HH)
      as (c & requested & mRoutes & _ & Hpath & Hroutes & [Hroute|Hno]).
    + destruct Hroute as (pre & cr & post & params & Hl & Hpre & Hm & Hb & Hh & ->).
      split; [done|]. split; [done|].
      exists c, requested, mRoutes. split; [done|]. split; [done|]. right.
      exists pre, cr, post, params. by repeat split.
    + destruct Hno as (Hnone & _ & _ & ->). split; [done|]. split; [done|].
      exists c, requested, mRoutes. split; [done|]. split; [done|]. by left.
  - intros plugins r'. rewrite Handler_cases. intros HH.
    destruct (plugin.OnRequest plugins (hookData db cfg reqID r)); [done|].
    destruct (Request.URL_Path r) as [|c requested]; [done|].
    destruct (routes !! Request.Method r) as [mRoutes|]; [|by injection HH].
    pose proof (tryRoutes_inv mRoutes requested (baseContext db cfg reqID r) r) as Hinv.
    destruct (tryRoutes mRoutes requested (baseContext db cfg reqID r) r) as [served|].
    + destruct Hinv as (pre & cr & post & -> & Hpre & Hm & Hs). rewrite Hs in HH.
      by destruct (bindParams _ _ _ _).
    + destruct (IsRequestAPIAndUnknownVersion r versions).
      * by destruct (Secrets cfg !! 0%nat).
      * by injection HH.
Qed.

End Outcomes.

(** ** The panics of [Handler] *)

Section Panics.
Context {World : Type} {RL : RegexpLib} {SC : Strconv} {ST : Strings}
  {WR : Wrappers World}.

(** X17. [Handler] panics in three ways only, each after the plugin hook
    has passed the request on: in the slice expression on an empty path;
    with an index out of range when the first route that matches has at
    least as many parameter names as its match has entries; and with an
    index out of range at [cfg.Secrets[0]] when no route of the method
    matches, the request is for an unknown version of the API and the
    configuration has no secret. *)
Theorem Handler_panics_only
  (routes : gmap string (list (CompiledRoute.t World))) (versions : gset Z)
  (catchall : HandlerFunc World) (db : Z) (cfg : Config) (reqID : Z)
  (plugins : plugin.Plugins) (r : Request.t) (p : Panic) :
  Handler routes versions catchall db cfg reqID plugins r = HandlerPanic p ->
  plugin.OnRequest plugins (hookData db cfg reqID r) = false
  /\ ((p = SliceBounds /\ Request.URL_Path r = "")
      \/ (p = IndexRange
          /\ exists c requested mRoutes,
               Request.URL_Path r = String c requested
               /\ routes !! Request.Method r = Some mRoutes
               /\ ((exists pre cr post,
                      mRoutes = pre ++ cr :: post
                      /\ Forall (fun cr' => ~ routeMatches cr' requested) pre
                      /\ routeMatches cr requested
                      /\ (length (FindStringSubmatch (CompiledRoute.Regex cr) requested)
                          <= length (CompiledRoute.Params cr))%nat)
                   \/ (Forall (fun cr => ~ routeMatches cr requested) mRoutes
                       /\ IsRequestAPIAndUnknownVersion r versions = true
                       /\ Secrets cfg = [])))).
Proof.
  rewrite Handler_cases. intros HH.
  destruct (plugin.OnRequest plugins (hookData db cfg reqID r)); [done|].
  split; [done|].
  destruct (Request.URL_Path r) as [|c requested]; [left; by injection HH as <-|].
  destruct (routes !! Request.Method r) as [mRoutes|]; [|done].
  right.
  pose proof (tryRoutes_inv mRoutes requested (baseContext db cfg reqID r) r) as Hinv.
  destruct (tryRoutes mRoutes requested (baseContext db cfg reqID r) r) as [served|].
  - destruct Hinv as (pre & cr & post & -> & Hpre & Hm & Hs). rewrite Hs in HH.
    destruct (bindParams _ _ _ _) as [params|] eqn:Hb; [done|].
    injection HH as <-. split; [done|].
    exists c, requested, (pre ++ cr :: post). split; [done|]. split; [done|]. left.
    exists pre, cr, post. split; [done|]. split; [done|]. split; [done|].
    apply bindParams_None in Hb as [_ Hlen]. lia.
  - destruct (IsRequestAPIAndUnknownVersion r versions); [|done].
    destruct (Secrets cfg) as [|secret0 secrets] eqn:Hs; [|done].
    injection HH as <-. split; [done|].
    exists c, requested, mRoutes. split; [done|]. split; [done|]. by right.
Qed.

End Panics.

(** A configuration without secrets. *)
Lemma Handler_panics_only_witness :
  let cfg := {| Secrets := []; PerlRoutes := []; DisabledRoutes := [];
                RequestTimeout := 0 |} in
  let r := Demo.request "GET" "/api/9.9/foo" in
  let routes : gmap string (list (CompiledRoute.t (RL := Go_regexp.lib) (list string))) :=
    {["GET" := [Demo.compiled "^api/1.1/ping" "ping" []]]} in
  Handler (RL := Go_regexp.lib) (SC := Demo.strconv) (WR := Demo.wrappers) routes {[11]}
    Demo.catchall 0 cfg 1 Demo.plugins r
  = HandlerPanic IndexRange
  /\ plugin.OnRequest Demo.plugins (hookData 0 cfg 1 r) = false.
Proof.
  intros cfg r routes.
  assert (Handler (RL := Go_regexp.lib) (SC := Demo.strconv) (WR := Demo.wrappers) routes
            {[11]} Demo.catchall 0 cfg 1 Demo.plugins r = HandlerPanic IndexRange) as HH
    by by_computation.
  split; [exact HH|].
  exact (proj1 (Handler_panics_only (RL := Go_regexp.lib) (SC := Demo.strconv)
                  (WR := Demo.wrappers) _ _ _ _ _ _ _ _ _ HH)).
Defined.

(** ** Routes that are never reached *)

Section Shadowing.
Context {World : Type} {RL : RegexpLib} {SC : Strconv} {ST : Strings}
  {WR : Wrappers World}.

Lemma tryRoutes_drop_unmatched (l2 l3 : list (CompiledRoute.t World)) cb requested ctx r :
  FindStringSubmatch (CompiledRoute.Regex cb) requested = [] ->
  tryRoutes (l2 ++ cb :: l3) requested ctx r = tryRoutes (l2 ++ l3) requested ctx r.
Proof.
  intros Hcb. induction l2 as [|c l2 IH]; cbn [app tryRoutes].
  - by rewrite Hcb.
  - by rewrite IH.
Qed.

Lemma tryRoutes_shadowed (l1 l2 l3 : list (CompiledRoute.t World)) ca cb requested ctx r :
  CompiledRoute.Regex cb = CompiledRoute.Regex ca ->
  tryRoutes (l1 ++ ca :: l2 ++ cb :: l3) requested ctx r
  = tryRoutes (l1 ++ ca :: l2 ++ l3) requested ctx r.
Proof.
  intros Hre. induction l1 as [|c l1 IH]; cbn [app tryRoutes].
  - destruct (FindStringSubmatch (CompiledRoute.Regex ca) requested) as [|x m] eqn:Hf.
    + cbn [length Nat.eqb]. apply tryRoutes_drop_unmatched. by rewrite Hre.
    + done.
  - by rewrite IH.
Qed.

(** X18. A compiled route that comes later in the list of its method
    than a route with the same pattern is never reached: [Handler] does
    the same on every request when that later route is taken out of the
    list. *)
Theorem same_pattern_later_route_is_dead
  (routes : gmap string (list (CompiledRoute.t World))) (versions : gset Z)
  (catchall : HandlerFunc World) (db : Z) (cfg : Config) (reqID : Z)
  (plugins : plugin.Plugins) (meth : string)
  (l1 l2 l3 : list (CompiledRoute.t World)) (ca cb : CompiledRoute.t World) :
  routes !! meth = Some (l1 ++ ca :: l2 ++ cb :: l3) ->
  CompiledRoute.Regex cb = CompiledRoute.Regex ca ->
  forall r : Request.t,
    Handler routes versions catchall db cfg reqID plugins r
    = Handler (<[meth := l1 ++ ca :: l2 ++ l3]> routes) versions catchall db cfg reqID
        plugins r.
Proof.
  intros Hroutes Hre r. rewrite !Handler_cases.
  destruct (plugin.OnRequest plugins (hookData db cfg reqID r)); [done|].
  destruct (Request.URL_Path r) as [|c requested]; [done|].
  destruct (decide (meth = Request.Method r)) as [<-|Hne].
  - rewrite Hroutes, lookup_insert_eq. by rewrite tryRoutes_shadowed.
  - by rewrite lookup_insert_ne.
Qed.

End Shadowing.

(** Two routes with the pattern [^api/1.1/servers]. *)
Lemma same_pattern_later_route_is_dead_witness :
  let ca := Demo.compiled "^api/1.1/servers" "old" [] in
  let cb := Demo.compiled "^api/1.1/servers" "new" [] in
  let r := Demo.request "GET" "/api/1.1/servers" in
  Demo.handle {["GET" := [ca; cb]]} ∅ r = Demo.handle {["GET" := [ca]]} ∅ r
  /\ Demo.handle {["GET" := [ca; cb]]} ∅ r
     = ServeHandler (say "old") (routedRequest 0 Demo.cfg 1 r ∅).
Proof.
  intros ca cb r. split; [|by_computation].
  rewrite <- (insert_singleton_eq (M := gmap string) "GET" [ca; cb] [ca]).
  exact (same_pattern_later_route_is_dead (RL := Go_regexp.lib) (SC := Demo.strconv)
           (WR := Demo.wrappers) {["GET" := [ca; cb]]} ∅ Demo.catchall 0 Demo.cfg 1
           Demo.plugins "GET" [] [] [] ca cb (lookup_singleton_eq _ _) eq_refl r).
Defined.

(** A route that has a parameter name and no group in its pattern. *)
Lemma Handler_panics_on_missing_submatch_witness :
  let cr := Demo.compiled "^api/1.1/ping" "ping" ["id"] in
  let r := Demo.request "GET" "/api/1.1/ping" in
  FindStringSubmatch (CompiledRoute.Regex cr) "api/1.1/ping" = ["api/1.1/ping"]
  /\ Demo.handle {["GET" := [cr]]} ∅ r = HandlerPanic IndexRange.
Proof.
  intros cr r.
  assert (FindStringSubmatch (CompiledRoute.Regex cr) "api/1.1/ping" = ["api/1.1/ping"])
    as Hf by by_computation.
  split; [exact Hf|].
  refine (Handler_panics_on_missing_submatch (RL := Go_regexp.lib) (SC := Demo.strconv)
            (WR := Demo.wrappers) {["GET" := [cr]]} ∅ Demo.catchall 0 Demo.cfg 1
            Demo.plugins r "/" "api/1.1/ping" [] [] cr eq_refl eq_refl
            (lookup_singleton_eq _ _) (Forall_nil_2 _) _ _).
  - unfold routeMatches. by rewrite Hf.
  - rewrite Hf. simpl. lia.
Defined.

(** A request that a route takes. *)
Lemma Handler_invokes_first_match_witness :
  let c1 := Demo.compiled "^api/1.1/servers/([^/]+)" "by id" ["id"] in
  let r := Demo.request "GET" "/api/1.1/servers/7" in
  let h := say "by id" in
  let r' := routedRequest 0 Demo.cfg 1 r {["id" := "7"]} in
  Demo.handle {["GET" := [c1]]} ∅ r = ServeHandler h r'
  /\ exists c requested mRoutes,
       plugin.OnRequest Demo.plugins (hookData 0 Demo.cfg 1 r) = false
       /\ Request.URL_Path r = String c requested
       /\ ({["GET" := [c1]]} : gmap string _) !! Request.Method r = Some mRoutes
       /\ ((exists pre cr post params,
              mRoutes = pre ++ cr :: post
              /\ Forall (fun cr' => ~ routeMatches cr' requested) pre
              /\ routeMatches cr requested
              /\ bindParams (CompiledRoute.Params cr) 0
                   (FindStringSubmatch (CompiledRoute.Regex cr) requested) ∅ = Some params
              /\ h = CompiledRoute.Handler cr
              /\ r' = routedRequest 0 Demo.cfg 1 r params)
           \/ (Forall (fun cr => ~ routeMatches cr requested) mRoutes
               /\ IsRequestAPIAndUnknownVersion (SC := Demo.strconv) r ∅ = true
               /\ (exists secret0,
                     Secrets Demo.cfg !! 0%nat = Some secret0
                     /\ h = wrapAccessLog (Wrappers := Demo.wrappers) secret0
                              (NotImplementedHandler (Wrappers := Demo.wrappers)))
               /\ r' = r)).
Proof.
  intros c1 r h r'.
  assert (Demo.handle {["GET" := [c1]]} ∅ r = ServeHandler h r') as HH by by_computation.
  split; [exact HH|].
  exact (Handler_invokes_first_match (RL := Go_regexp.lib) (SC := Demo.strconv)
           (WR := Demo.wrappers) _ _ _ _ _ _ _ _ _ _ HH).
Defined.

(** ** Requests under a declared version *)

Section SplitFacts.
Import Go_strings.

(** A byte is absent from a string when it is not its first byte and is
    absent from the rest. *)
Lemma Index_String_absent (a : ascii) (s : string) (x : ascii) :
  Index (String a s) x = -1 <-> a <> x /\ Index s x = -1.
Proof.
  simpl. destruct (Ascii.eqb_spec a x) as [->|Hne].
  - split; [lia|]. by intros [? _].
  - destruct (Index_range s x) as [->|Hr]; [done|].
    destruct (Z.ltb_spec (Index s x) 0); [lia|]. split; [lia|]. intros [_ ?]. lia.
Qed.

(** A string without the separator is one piece. *)
Lemma Split_one (s : string) (sep : ascii) :
  Index s sep = -1 -> Split s sep = [s].
Proof.
  induction s as [|a s IH]; [done|].
  intros [Hne Hs]%Index_String_absent. simpl.
  destruct (Ascii.eqb_spec a sep); [done|]. by rewrite IH.
Qed.

(** The first piece ends at the first separator. *)
Lemma Split_cons (s t : string) (sep : ascii) :
  Index s sep = -1 -> Split (s +:+ String sep t) sep = s :: Split t sep.
Proof.
  induction s as [|a s IH]; simpl.
  - intros _. by rewrite Ascii.eqb_refl.
  - intros H. apply (Index_String_absent a s sep) in H as [Hne Hs].
    destruct (Ascii.eqb_spec a sep); [done|]. by rewrite IH.
Qed.

Lemma pretty_N_char_no_slash (x : N) : pretty_N_char x <> "/"%char.
Proof. unfold pretty_N_char. by repeat case_match. Qed.

Lemma pretty_N_go_no_slash (x : N) (s : string) :
  Index s "/" = -1 -> Index (pretty_N_go x s) "/" = -1.
Proof.
  revert s. induction (N.lt_wf_0 x) as [x _ IH]; intros s Hs.
  assert (x = 0 \/ 0 < x)%N as [->|Hx] by lia.
  - by rewrite pretty_N_go_0.
  - rewrite pretty_N_go_step by done. apply IH.
    + by apply N.div_lt.
    + apply Index_String_absent. split; [apply pretty_N_char_no_slash|done].
Qed.

Lemma pretty_Z_no_slash (z : Z) : Index (pretty z) "/" = -1.
Proof.
  assert (forall n : N, Index (pretty n) "/" = -1) as HN.
  { intros n. unfold pretty, pretty_N. case_decide; [done|].
    by apply pretty_N_go_no_slash. }
  destruct z as [|p|p]; [done|apply HN|].
  change (pretty (Z.neg p)) with ("-" +:+ pretty (N.pos p)).
  rewrite Index_append_absent by done. by rewrite HN.
Qed.

Lemma digit_no_slash (d : Z) : 0 <= d < 10 -> Go_strconv.digit d <> "/"%char.
Proof.
  intros Hd.
  assert (d = 0 \/ d = 1 \/ d = 2 \/ d = 3 \/ d = 4 \/ d = 5 \/ d = 6 \/ d = 7
          \/ d = 8 \/ d = 9) as Hcases by lia.
  repeat (destruct Hcases as [->|Hcases]); try subst d; done.
Qed.

Lemma frac_digits_no_slash (n : nat) (f : Z) :
  0 <= f < 10 ^ Z.of_nat n -> Index (Go_strconv.frac_digits n f) "/" = -1.
Proof.
  revert f. induction n as [|n IH]; intros f Hf; [done|].
  cbn [Go_strconv.frac_digits].
  assert (0 < 10 ^ Z.of_nat n) as Hpow by (apply Z.pow_pos_nonneg; lia).
  rewrite Nat2Z.inj_succ, Z.pow_succ_r in Hf by lia.
  apply Index_String_absent. split.
  - apply digit_no_slash.
    split; [apply Z.div_pos; lia|]. apply Z.div_lt_upper_bound; lia.
  - apply IH. apply Z.mod_pos_bound. lia.
Qed.

Lemma strip_zeros_no_slash (s : string) :
  Index s "/" = -1 -> Index (Go_strconv.strip_zeros s) "/" = -1.
Proof.
  induction s as [|c s IH]; [done|].
  intros [Hc Hs]%Index_String_absent.
  cbn [Go_strconv.strip_zeros]. specialize (IH Hs).
  destruct (Go_strconv.strip_zeros s) as [|c' t].
  - destruct (Ascii.eqb c "0"); [done|]. by apply Index_String_absent.
  - by apply Index_String_absent.
Qed.

(** A version is written without a slash. *)
Lemma FormatFloat_no_slash (prec : nat) (v : Z) :
  Index (Go_strconv.FormatFloat prec v) "/" = -1.
Proof.
  unfold Go_strconv.FormatFloat.
  pose proof (scale_pos prec) as Hs.
  assert (Index (Go_strconv.strip_zeros
            (Go_strconv.frac_digits prec (Z.abs v mod Go_strconv.scale prec))) "/" = -1)
    as Hfrac.
  { apply strip_zeros_no_slash, frac_digits_no_slash.
    apply Z.mod_pos_bound. exact Hs. }
  rewrite Index_append_absent by by destruct (v <? 0).
  rewrite Index_append_absent by apply pretty_Z_no_slash.
  destruct (Go_strconv.strip_zeros _) as [|c t]; [done|].
  rewrite (Index_append_absent "." (String c t)) by done.
  by rewrite Hfrac.
Qed.

End SplitFacts.

Section KnownVersions.
Context {World : Type} {RL : RegexpLib} {SC : Strconv} {ST : Strings}
  {WR : Wrappers World}.
Variable prec : nat.

Lemma IsRequestAPIAndUnknownVersion_parts (r : Request.t) (versions : gset Z)
  (p0 p1 p2 : string) (rest : list string) :
  Go_strings.Split (Request.URL_Path r) "/" = p0 :: p1 :: p2 :: rest ->
  IsRequestAPIAndUnknownVersion r versions
  = if negb (String.eqb (ToLower p1) "api") then false
    else match ParseFloat p2 with
         | Go_strconv.ParseOk version => if decide (version ∈ versions) then false else true
         | _ => true
         end.
Proof.
  intros Hs. unfold IsRequestAPIAndUnknownVersion. rewrite Hs. simpl.
  destruct (negb _); [done|]. by destruct (ParseFloat p2).
Qed.

(** X19. A request for [/api/], a declared version as
    [CreateRouteMap] writes it in the paths, and any rest is not a request
    for an unknown version, given that [ParseFloat] reads the version back
    from what [FormatFloat] wrote; when no route matches it, it goes to the
    catch-all. *)
Theorem declared_version_is_known
  (rs : list (Route.t World)) (rawRoutes : list (RawRoute.t World))
  (perlRouteIDs disabledRouteIDs : list Z) (perlHandler : HandlerFunc World)
  (authBase : AuthBase World) (reqTimeOutSeconds : Z)
  (declared : Route.t World) (req : Request.t) (rest : string) :
  let versions :=
    (CreateRouteMap prec rs rawRoutes perlRouteIDs disabledRouteIDs perlHandler authBase
       reqTimeOutSeconds).2 in
  let vstr := Go_strconv.FormatFloat prec (Route.Version declared) in
  declared ∈ rs ->
  ParseFloat vstr = Go_strconv.ParseOk (Route.Version declared) ->
  Request.URL_Path req = "/api/" +:+ vstr +:+ "/" +:+ rest ->
  IsRequestAPIAndUnknownVersion req versions = false
  /\ (forall (routes : gmap string (list (CompiledRoute.t World)))
        (catchall : HandlerFunc World) (db : Z) (cfg : Config) (reqID : Z)
        (plugins : plugin.Plugins) (mRoutes : list (CompiledRoute.t World)),
        plugin.OnRequest plugins (hookData db cfg reqID req) = false ->
        routes !! Request.Method req = Some mRoutes ->
        Forall (fun cr => ~ routeMatches cr ("api/" +:+ vstr +:+ "/" +:+ rest)) mRoutes ->
        Handler routes versions catchall db cfg reqID plugins req = ServeCatchall req).
Proof.
  intros versions vstr Hin Hparse Hpath.
  assert (IsRequestAPIAndUnknownVersion req versions = false) as Hknown.
  { rewrite (IsRequestAPIAndUnknownVersion_parts req versions "" "api" vstr
               (Go_strings.Split rest "/")).
    - rewrite (ToLower_ascii "api") by done.
      simpl. rewrite Hparse. rewrite decide_True; [done|].
      apply CreateRouteMap_versions. by exists declared.
    - rewrite Hpath.
      change ("/api/" +:+ vstr +:+ "/" +:+ rest)
        with ("" +:+ String "/" ("api" +:+ String "/" (vstr +:+ String "/" rest))).
      rewrite Split_cons by done. rewrite Split_cons by done.
      rewrite Split_cons by apply FormatFloat_no_slash. done. }
  split; [exact Hknown|].
  intros routes catchall db cfg reqID plugins mRoutes Hhook Hroutes Hno.
  rewrite Handler_cases, Hhook, Hpath. cbn [String.append].
  rewrite Hroutes, tryRoutes_none, Hknown; [done|].
  by apply no_match_nil.
Qed.

(** X20. [IsRequestAPIAndUnknownVersion] looks at the first three pieces
    of the path between slashes only: two requests whose paths have the
    same first three pieces get the same answer, whatever their methods
    and whatever follows in the paths. *)
Theorem IsRequestAPIAndUnknownVersion_first_segments (r1 r2 : Request.t)
  (versions : gset Z) :
  take 3 (Go_strings.Split (Request.URL_Path r1) "/")
  = take 3 (Go_strings.Split (Request.URL_Path r2) "/") ->
  IsRequestAPIAndUnknownVersion r1 versions = IsRequestAPIAndUnknownVersion r2 versions.
Proof.
  unfold IsRequestAPIAndUnknownVersion.
  generalize (Go_strings.Split (Request.URL_Path r1) "/") as l1.
  generalize (Go_strings.Split (Request.URL_Path r2) "/") as l2.
  intros l2 l1 Htake.
  destruct l1 as [|a0 [|a1 [|a2 l1]]], l2 as [|b0 [|b1 [|b2 l2]]];
    simpl in Htake; try discriminate; try done.
  - by injection Htake as -> ->.
  - by injection Htake as -> -> ->.
Qed.

End KnownVersions.

(** The version 2.0, written [2], with routes at 1.1 and 2.0. *)
Lemma declared_version_is_known_witness :
  let rs := [Demo.route 11 "GET" "ping" 1; Demo.route 20 "GET" "pong" 2] in
  let req := Demo.request "GET" "/api/2/ping" in
  IsRequestAPIAndUnknownVersion (SC := Demo.strconv) req (Demo.versionsOf rs [] [] [])
  = false
  /\ Demo.serve rs [] [] [] req = Some (ServeCatchall req).
Proof.
  intros rs req.
  assert (Demo.route 20 "GET" "pong" 2 ∈ rs) as Hin by (right; left).
  pose proof (declared_version_is_known (RL := Go_regexp.lib) (SC := Demo.strconv)
                (WR := Demo.wrappers) 1 rs [] [] [] Demo.catchall Demo.authBase 0
                (Demo.route 20 "GET" "pong" 2) req "ping" Hin eq_refl eq_refl) as [Hk _].
  split; [exact Hk|by_computation].
Defined.

(** Two paths under [/api/9.9]. *)
Lemma IsRequestAPIAndUnknownVersion_first_segments_witness :
  IsRequestAPIAndUnknownVersion (SC := Demo.strconv)
    (Demo.request "GET" "/api/9.9/foo") {[11]}
  = IsRequestAPIAndUnknownVersion (SC := Demo.strconv)
      (Demo.request "DELETE" "/api/9.9/bar/baz") {[11]}.
Proof.
  exact (IsRequestAPIAndUnknownVersion_first_segments (SC := Demo.strconv)
           (Demo.request "GET" "/api/9.9/foo") (Demo.request "DELETE" "/api/9.9/bar/baz")
           {[11]} eq_refl).
Defined.

(** ** What the registered server dispatches to *)

Section Installed.
Context {World : Type} {RL : RegexpLib} {SC : Strconv} {ST : Strings}
  {WR : Wrappers World}.
Variable prec : nat.



End Installed.


(** ** Routes declared twice *)

Section Redeclared.
Context {World : Type} {RL : RegexpLib} {SC : Strconv} {ST : Strings}
  {WR : Wrappers World}.
Variable prec : nat.

Lemma compileAll_cons_inv (ph : PathHandler.t World) l cs :
  compileAll (ph :: l) = Ok cs ->
  exists c cs', cs = c :: cs' /\ compileRoute ph = Ok c /\ compileAll l = Ok cs'.
Proof.
  simpl. destruct (compileRoute ph) as [c| |]; [|done..].
  destruct (compileAll l) as [cs'| |]; [|done..].
  intros [= <-]. by exists c, cs'.
Qed.

Lemma compileAll_app_inv (l1 l2 : list (PathHandler.t World)) cs :
  compileAll (l1 ++ l2) = Ok cs ->
  exists c1 c2, cs = c1 ++ c2 /\ compileAll l1 = Ok c1 /\ compileAll l2 = Ok c2
                /\ length c1 = length l1.
Proof.
  revert cs. induction l1 as [|ph l1 IH]; intros cs Hc.
  - by exists [], cs.
  - apply compileAll_cons_inv in Hc as (c & cs' & -> & Hph & Hrest).
    destruct (IH _ Hrest) as (c1 & c2 & -> & H1 & H2 & Hlen).
    exists (c :: c1), c2. simpl. rewrite Hph, H1, Hlen. done.
Qed.

(** The pattern and the names of a compiled route come from its path
    alone. *)
Lemma compileRoute_same_path (ph1 ph2 : PathHandler.t World) c1 c2 :
  PathHandler.Path ph1 = PathHandler.Path ph2 ->
  compileRoute ph1 = Ok c1 -> compileRoute ph2 = Ok c2 ->
  CompiledRoute.Regex c1 = CompiledRoute.Regex c2
  /\ CompiledRoute.Params c1 = CompiledRoute.Params c2.
Proof.
  unfold compileRoute. intros <-.
  destruct (compileTemplate _ _ _) as [[route params]| |]; [|done..].
  destruct (MustCompile route) as [regex|]; [|done].
  by intros [= <-] [= <-].
Qed.

(** The entries of two routes of the same method at a version at which
    both are mounted, in the list of the method. *)
Lemma CreateRouteMap_two_entries rs rawRoutes perlRouteIDs disabledRouteIDs perlHandler
  authBase reqTimeOutSeconds (pre mid post : list (Route.t World)) (a b : Route.t World)
  (v : Z) :
  let entry := fun r =>
    PathHandler.mk (mountPath prec v r)
      (installedHandler perlRouteIDs disabledRouteIDs perlHandler authBase
         (effectiveTimeout reqTimeOutSeconds) r) in
  rs = pre ++ a :: mid ++ b :: post ->
  Route.Method b = Route.Method a ->
  v ∈ routeVersions prec (getSortedRouteVersions rs) a ->
  v ∈ routeVersions prec (getSortedRouteVersions rs) b ->
  exists t1 t2 t3,
    (CreateRouteMap prec rs rawRoutes perlRouteIDs disabledRouteIDs perlHandler authBase
       reqTimeOutSeconds).1 !!! Route.Method a
    = t1 ++ entry a :: t2 ++ entry b :: t3.
Proof.
  intros entry Hrs Hmeth Ha Hb.
  apply list_elem_of_split in Ha as (va1 & va2 & Hva).
  apply list_elem_of_split in Hb as (vb1 & vb2 & Hvb).
  set (E := routeEntries prec (getSortedRouteVersions rs) perlRouteIDs disabledRouteIDs
              perlHandler authBase (effectiveTimeout reqTimeOutSeconds)).
  set (mk := fun (r : Route.t World) (version : Z) =>
               PathHandler.mk (mountPath prec version r)
                 (installedHandler perlRouteIDs disabledRouteIDs perlHandler authBase
                    (effectiveTimeout reqTimeOutSeconds) r)).
  assert (E a = (mk a <$> va1) ++ entry a :: (mk a <$> va2)) as HEa.
  { unfold E, routeEntries. fold (mk a). rewrite Hva, fmap_app, fmap_cons. done. }
  assert (E b = (mk b <$> vb1) ++ entry b :: (mk b <$> vb2)) as HEb.
  { unfold E, routeEntries. fold (mk b). rewrite Hvb, fmap_app, fmap_cons. done. }
  set (is_meth := fun r : Route.t World => Route.Method r = Route.Method a).
  assert (filter is_meth rs
          = filter is_meth pre ++ a :: filter is_meth mid ++ b :: filter is_meth post)
    as Hfilter.
  { rewrite Hrs, filter_app, filter_cons_True by done.
    by rewrite filter_app, filter_cons_True by done. }
  exists (flat_map E (filter is_meth pre) ++ (mk a <$> va1)),
    ((mk a <$> va2) ++ flat_map E (filter is_meth mid) ++ (mk b <$> vb1)),
    ((mk b <$> vb2) ++ flat_map E (filter is_meth post)
     ++ (rawEntry authBase (effectiveTimeout reqTimeOutSeconds)
           <$> filter (fun r => RawRoute.Method r = Route.Method a) rawRoutes)).
  rewrite CreateRouteMap_lookup_total. fold E is_meth. rewrite Hfilter.
  rewrite flat_map_app. cbn [flat_map]. rewrite flat_map_app. cbn [flat_map].
  rewrite HEa, HEb.
  rewrite <- !(assoc_L (++)). cbn [app]. rewrite <- ?(assoc_L (++)). cbn [app].
  reflexivity.
Qed.

(** X22. A route that is declared after another route of the same method
    with the same path is never served at a version at which both are
    mounted: in the compiled list of the method its entry comes after the
    entry of the earlier route, both have the same pattern, and [Handler]
    does the same on every request when that entry is taken out. *)
Theorem redeclared_route_is_shadowed
  (rs : list (Route.t World)) (rawRoutes : list (RawRoute.t World))
  (perlRouteIDs disabledRouteIDs : list Z) (perlHandler : HandlerFunc World)
  (authBase : AuthBase World) (reqTimeOutSeconds : Z)
  (pre mid post : list (Route.t World)) (a b : Route.t World) (v : Z)
  (compiled : gmap string (list (CompiledRoute.t World))) :
  let table := (CreateRouteMap prec rs rawRoutes perlRouteIDs disabledRouteIDs perlHandler
                  authBase reqTimeOutSeconds).1 in
  let entry := fun r =>
    PathHandler.mk (mountPath prec v r)
      (installedHandler perlRouteIDs disabledRouteIDs perlHandler authBase
         (effectiveTimeout reqTimeOutSeconds) r) in
  rs = pre ++ a :: mid ++ b :: post ->
  Route.Method b = Route.Method a ->
  Route.Path b = Route.Path a ->
  v ∈ routeVersions prec (getSortedRouteVersions rs) a ->
  v ∈ routeVersions prec (getSortedRouteVersions rs) b ->
  CompileRoutes table = Some compiled ->
  exists t1 t2 t3 l1 ca l2 cb l3,
    table !!! Route.Method a = t1 ++ entry a :: t2 ++ entry b :: t3
    /\ compiled !! Route.Method a = Some (l1 ++ ca :: l2 ++ cb :: l3)
    /\ length l1 = length t1 /\ length l2 = length t2
    /\ compileRoute (entry a) = Ok ca
    /\ compileRoute (entry b) = Ok cb
    /\ forall versions catchall db cfg reqID plugins r,
         Handler compiled versions catchall db cfg reqID plugins r
         = Handler (<[Route.Method a := l1 ++ ca :: l2 ++ l3]> compiled) versions catchall
             db cfg reqID plugins r.
Proof.
  intros table entry Hrs Hmeth Hpath Ha Hb Hc.
  destruct (CreateRouteMap_two_entries rs rawRoutes perlRouteIDs disabledRouteIDs
              perlHandler authBase reqTimeOutSeconds pre mid post a b v Hrs Hmeth Ha Hb)
    as (t1 & t2 & t3 & Htable).
  fold table entry in Htable.
  destruct (CompileRoutes_lookup table compiled (Route.Method a) Hc) as [Hall Hnone].
  rewrite Htable in Hall.
  apply compileAll_app_inv in Hall as (l1 & rest & Hcs & _ & Hrest & Hlen1).
  apply compileAll_cons_inv in Hrest as (ca & rest' & -> & Hca & Hrest).
  apply compileAll_app_inv in Hrest as (l2 & rest & -> & _ & Hrest & Hlen2).
  apply compileAll_cons_inv in Hrest as (cb & l3 & -> & Hcb & _).
  assert (compiled !! Route.Method a = Some (l1 ++ ca :: l2 ++ cb :: l3)) as Hlookup.
  { rewrite lookup_total_alt in Hcs, Hnone.
    destruct (compiled !! Route.Method a) as [cs|]; simpl in *; [by rewrite Hcs|].
    by destruct l1. }
  exists t1, t2, t3, l1, ca, l2, cb, l3.
  split; [done|]. split; [done|]. split; [done|]. split; [done|].
  split; [done|]. split; [done|].
  assert (CompiledRoute.Regex cb = CompiledRoute.Regex ca) as Hre.
  { eapply (compileRoute_same_path (entry b) (entry a)); [|done..].
    unfold entry, mountPath. cbn [PathHandler.Path]. by rewrite Hpath. }
  intros versions catchall db cfg reqID plugins r. rewrite !Handler_cases.
  destruct (plugin.OnRequest plugins (hookData db cfg reqID r)); [done|].
  destruct (Request.URL_Path r) as [|c requested]; [done|].
  destruct (decide (Route.Method a = Request.Method r)) as [<-|Hne].
  - rewrite Hlookup, lookup_insert_eq. by rewrite tryRoutes_shadowed.
  - by rewrite lookup_insert_ne.
Qed.

End Redeclared.

(** The path [servers], declared at 1.1 with one handler and then at 1.2
    with another: the request for [/api/1.2/servers] is served by the
    handler declared at 1.1. *)
Lemma redeclared_route_is_shadowed_witness :
  let a := Route.mk 11 "GET" "servers" (say "old") 0 false None 1 false in
  let b := Route.mk 12 "GET" "servers" (say "new") 0 false None 2 false in
  let r := Demo.request "GET" "/api/1.2/servers" in
  routeVersions 1 (getSortedRouteVersions [a; b]) a = [11; 12]
  /\ routeVersions 1 (getSortedRouteVersions [a; b]) b = [12]
  /\ Demo.serve [a; b] [] [] [] r
     = Some (ServeHandler
               (CompiledRoute.Handler (Demo.mounted "^api/1.2/servers" "old" []))
               (routedRequest 0 Demo.cfg 1 r ∅))
  /\ exists compiled t1 t2 t3 l1 ca l2 cb l3,
       (Demo.table [a; b] [] [] []).1 = Some compiled
       /\ (CreateRouteMap (WR := Demo.wrappers) 1 [a; b] [] [] [] Demo.catchall
             Demo.authBase 0).1 !!! "GET"
          = t1 ++ PathHandler.mk (mountPath 1 12 a)
                    (installedHandler (WR := Demo.wrappers) [] [] Demo.catchall
                       Demo.authBase (effectiveTimeout 0) a)
               :: t2 ++ PathHandler.mk (mountPath 1 12 b)
                          (installedHandler (WR := Demo.wrappers) [] [] Demo.catchall
                             Demo.authBase (effectiveTimeout 0) b) :: t3
       /\ compiled !! "GET" = Some (l1 ++ ca :: l2 ++ cb :: l3)
       /\ length l1 = length t1 /\ length l2 = length t2
       /\ forall r',
            Demo.handle compiled ∅ r'
            = Demo.handle (<["GET" := l1 ++ ca :: l2 ++ l3]> compiled) ∅ r'.
Proof.
  intros a b r.
  assert (routeVersions 1 (getSortedRouteVersions [a; b]) a = [11; 12]) as Hva
    by by_computation.
  assert (routeVersions 1 (getSortedRouteVersions [a; b]) b = [12]) as Hvb
    by by_computation.
  split; [exact Hva|]. split; [exact Hvb|]. split; [by_computation|].
  assert (is_Some (Demo.table [a; b] [] [] []).1) as [compiled Hc]
    by (apply (bool_decide_unpack _); by_computation).
  destruct (redeclared_route_is_shadowed (RL := Go_regexp.lib) (SC := Demo.strconv)
              (WR := Demo.wrappers) 1 [a; b] [] [] [] Demo.catchall Demo.authBase 0
              [] [] [] a b 12 compiled eq_refl eq_refl eq_refl)
    as (t1 & t2 & t3 & l1 & ca & l2 & cb & l3 & Ht & Hl & Hl1 & Hl2 & _ & _ & Hdead).
  - rewrite Hva. right; left.
  - rewrite Hvb. left.
  - exact Hc.
  - exists compiled, t1, t2, t3, l1, ca, l2, cb, l3.
    split; [exact Hc|]. split; [exact Ht|]. split; [exact Hl|].
    split; [exact Hl1|]. split; [exact Hl2|].
    intros r'. apply Hdead.
Defined.

(** ** The dot of a version *)

(** X23. The version is put into the pattern of a route as it is written,
    so that its dot stands for any byte but a newline: with the route [ping]
    declared at 1.1, a request for [/api/1] followed by such a byte and
    [1/ping] is served by that route. *)
Theorem version_dot_matches_any_byte (c : ascii) :
  c <> "010"%char ->
  let r := Demo.request "GET" ("/api/1" +:+ String c "1/ping") in
  Demo.serve [Demo.route 11 "GET" "ping" 1] [] [] [] r
  = Some (ServeHandler
            (CompiledRoute.Handler (Demo.mounted "^api/1.1/ping" "ping" []))
            (routedRequest 0 Demo.cfg 1 r ∅)).
Proof.
  intros Hc r. unfold Demo.serve.
  assert (Demo.table [Demo.route 11 "GET" "ping" 1] [] [] []
          = (Some {["GET" := [Demo.mounted "^api/1.1/ping" "ping" []]]}, {[11]})) as ->
    by by_computation.
  f_equal. rewrite Handler_cases.
  assert (plugin.OnRequest Demo.plugins (hookData 0 Demo.cfg 1 r) = false) as ->
    by reflexivity.
  unfold r at 1. cbn [Request.URL_Path Demo.request String.append].
  rewrite lookup_singleton_eq. cbn [tryRoutes].
  assert (FindStringSubmatch (CompiledRoute.Regex
            (Demo.mounted "^api/1.1/ping" "ping" [])) (String "a" (String "p" (String "i"
              (String "/" (String "1" (String c "1/ping"))))))
          = ["api/1" +:+ String c "1/ping"]) as ->.
  { cbn. apply Ascii.eqb_neq in Hc. rewrite Hc. reflexivity. }
  reflexivity.
Qed.

(** The path [/api/1x1/ping]. *)
Lemma version_dot_matches_any_byte_witness :
  let r := Demo.request "GET" "/api/1x1/ping" in
  Demo.serve [Demo.route 11 "GET" "ping" 1] [] [] [] r
  = Some (ServeHandler
            (CompiledRoute.Handler (Demo.mounted "^api/1.1/ping" "ping" []))
            (routedRequest 0 Demo.cfg 1 r ∅)).
Proof. exact (version_dot_matches_any_byte "x" ltac:(discriminate)). Defined.

(** ** The request ids *)

Section Counter.

Lemma AddUint64_range (val delta : Z) : 0 <= AddUint64 val delta < 2 ^ 64.
Proof. unfold AddUint64. apply Z.mod_pos_bound. lia. Qed.

Lemma AddUint64_shift (id k : Z) :
  (AddUint64 id 1 + k + 1) mod 2 ^ 64 = (id + (k + 1) + 1) mod 2 ^ 64.
Proof.
  unfold AddUint64. rewrite <- Z.add_assoc, Zplus_mod_idemp_l. f_equal. lia.
Qed.

(** The calls from a counter that holds [id]. *)
Lemma reqIDs_from (n : nat) (id : Z) :
  reqIDs n id = (fun k : nat => (id + Z.of_nat k + 1) mod 2 ^ 64) <$> seq 0 n.
Proof.
  revert id. induction n as [|n IH]; intros id; [done|].
  cbn [reqIDs getReqID]. rewrite IH. cbn [seq fmap list_fmap]. f_equal.
  - unfold AddUint64. f_equal. lia.
  - rewrite <- seq_shift, <- list_fmap_compose. apply list_fmap_ext.
    intros _ k _. cbn beta. unfold compose. rewrite AddUint64_shift. f_equal. lia.
Qed.

(** X24. The getter of [nextReqIDGetter] counts from one: its k-th call
    returns k modulo 2^64.  Fewer than 2^64 calls in a row return the
    numbers from 1 on, all different; two calls return the same
    identifier exactly when their positions differ by a multiple of
    2^64. *)
Theorem reqIDs_count_from_one (n : nat) :
  reqIDs n nextReqIDGetter = (fun k : nat => (Z.of_nat k + 1) mod 2 ^ 64) <$> seq 0 n
  /\ (Z.of_nat n < 2 ^ 64 ->
      reqIDs n nextReqIDGetter = (fun k : nat => Z.of_nat k + 1) <$> seq 0 n
      /\ NoDup (reqIDs n nextReqIDGetter))
  /\ (forall i j x y,
        reqIDs n nextReqIDGetter !! i = Some x ->
        reqIDs n nextReqIDGetter !! j = Some y ->
        x = y <-> (Z.of_nat i - Z.of_nat j) mod 2 ^ 64 = 0).
Proof.
  assert (reqIDs n nextReqIDGetter
          = (fun k : nat => (Z.of_nat k + 1) mod 2 ^ 64) <$> seq 0 n) as Hids.
  { rewrite reqIDs_from. apply list_fmap_ext. intros _ k _. simpl.
    unfold nextReqIDGetter. f_equal. }
  split; [exact Hids|]. split.
  - intros Hn.
    assert (reqIDs n nextReqIDGetter = (fun k : nat => Z.of_nat k + 1) <$> seq 0 n) as Hsmall.
    { rewrite Hids. apply list_fmap_ext. intros i k Hk.
      apply lookup_seq in Hk as [-> Hi]. simpl. apply Z.mod_small. lia. }
    split; [exact Hsmall|]. rewrite Hsmall.
    apply NoDup_fmap_2; [|apply NoDup_seq]. intros a b Hab. lia.
  - intros i j x y. rewrite Hids, !list_lookup_fmap.
    intros Hi Hj.
    destruct (seq 0 n !! i) as [i'|] eqn:Hi'; [|done].
    destruct (seq 0 n !! j) as [j'|] eqn:Hj'; [|done].
    apply lookup_seq in Hi' as [-> _]. apply lookup_seq in Hj' as [-> _].
    simpl in Hi, Hj. injection Hi as <-. injection Hj as <-. simpl.
    split.
    + intros Heq.
      replace (Z.of_nat i - Z.of_nat j) with ((Z.of_nat i + 1) - (Z.of_nat j + 1)) by lia.
      rewrite Zminus_mod, Heq, Z.sub_diag. done.
    + intros Hdiff.
      replace (Z.of_nat i + 1) with ((Z.of_nat i - Z.of_nat j) + (Z.of_nat j + 1)) by lia.
      rewrite <- Zplus_mod_idemp_l, Hdiff. done.
Qed.

(** X25. Every call of the function that [RegisterRoutes] registers takes
    one identifier: the k-th request that the server handles is handled
    with the request id k modulo 2^64, also when a plugin takes it, when it
    goes to the catch-all, or when [Handler] panics on it. *)
Theorem serveAll_numbers_requests {World : Type}
  (root : Z -> Request.t -> Served World) (requests : list Request.t) :
  serveAll root nextReqIDGetter requests
  = imap (fun k r => root ((Z.of_nat k + 1) mod 2 ^ 64) r) requests.
Proof.
  assert (forall id,
    serveAll root id requests
    = imap (fun k r => root ((id + Z.of_nat k + 1) mod 2 ^ 64) r) requests) as Hfrom.
  { induction requests as [|r rest IH]; intros id; [done|].
    cbn [serveAll getReqID imap]. rewrite IH. f_equal.
    - unfold AddUint64. do 2 f_equal. lia.
    - apply imap_ext. intros k r' _. cbn beta. unfold compose.
      rewrite AddUint64_shift. do 2 f_equal. lia. }
  rewrite Hfrom. apply imap_ext. intros k r _. simpl. unfold nextReqIDGetter.
  do 2 f_equal.
Qed.

End Counter.

(** ** Alert levels *)

(** X26. [AlertLevel.String] returns a string for the four declared
    levels, 0 to 3, and panics with an index out of range for every other
    value of the integer type.  Different levels have different strings:
    success, info, warning and error. *)
Theorem AlertLevel_String_defined (a : tc.AlertLevel) :
  (is_Some (tc.AlertLevel_String a) <-> 0 <= a <= 3)
  /\ (forall b s, tc.AlertLevel_String a = Some s -> tc.AlertLevel_String b = Some s ->
                  a = b)
  /\ tc.AlertLevel_String <$> [tc.SuccessLevel; tc.InfoLevel; tc.WarnLevel; tc.ErrorLevel]
     = Some <$> ["success"; "info"; "warning"; "error"].
Proof.
  assert (forall x, is_Some (tc.AlertLevel_String x) ->
                    x = 0 \/ x = 1 \/ x = 2 \/ x = 3) as Hrange.
  { intros x. unfold tc.AlertLevel_String.
    destruct (Z.leb_spec 0 x), (Z.ltb_spec x 4); simpl; try (by intros [? ?]).
    intros _. lia. }
  split; [|split; [|done]].
  - split; [intros H; apply Hrange in H; lia|].
    intros Ha. assert (a = 0 \/ a = 1 \/ a = 2 \/ a = 3) as [->|[->|[->| ->]]] by lia;
      by eexists.
  - intros b s Ha Hb.
    assert (is_Some (tc.AlertLevel_String a)) as Ha' by by eexists.
    assert (is_Some (tc.AlertLevel_String b)) as Hb' by by eexists.
    apply Hrange in Ha', Hb'.
    destruct Ha' as [->|[->|[->| ->]]], Hb' as [->|[->|[->| ->]]]; try done;
      vm_compute in Ha, Hb; congruence.
Qed.
